(** * Battle state reducer of BattleGame.jsx

    A shallow embedding of [battleReducer] (the pure state-transition
    function handed to [useReducer]) together with the two orchestrator
    helpers that decide which reducer action is dispatched
    ([applyEnergyDecay] and [executeSingleAIAction]).

    Conventions of the embedding.
    - JavaScript numbers that the game only ever uses as integers (energy,
      costs, health, stats, counters) are [Z].  [Math.floor (x / 10)] is
      [x / 10] on [Z] (floor division).  [Math.floor (x * 0.1)] is also
      [x / 10]: the double nearest to 0.1 exceeds 1/10 by 2^-55 / 5, so for an
      integer [x] below 2^53 the rounded product is [x / 10] exactly when
      [x] is a multiple of ten and lies strictly between two integers
      otherwise.  The one number that can stop being an integer is
      [enemyEnergy], which the sequence case of the reducer can make [NaN]:
      it is a [Num], an integer or [NaN].
    - A property the code itself tests for absence ([!x], [x || d],
      [if (x)]) is an [option]; every other property has the type its
      producers give it.
    - The reducer runs in a small monad that records console output and the
      calls of [action.addLog], and that can stop with a [Fault]: a
      [TypeError] where the code reads a property of [undefined]/[null], and
      [Unmodelled] where the JavaScript value has no counterpart in the
      typed model ([undefined] stored in a field, a collaborator called
      with [undefined], a payload of another shape).
    - Object spreads are value copies.  [EXECUTE_AI_ACTION] increments
      [consecutiveActions] and [energyMomentum] through a shallow copy, and
      [APPLY_ONGOING_EFFECTS] adds to [battleStats] through one; the
      returned value is the one modelled here, the change this makes to
      the previous state object is not. *)

From Stdlib Require Import ZArith List String Ascii Bool Lia DecimalString.
From Stdlib Require Import QArith_base Qround.
Import ListNotations.
Open Scope string_scope.
Open Scope list_scope.
Open Scope Z_scope.

(** ** Constants *)

Definition ATTACK_ENERGY_COST : Z := 2.
Definition DEFEND_ENERGY_COST : Z := 1.
Definition BASE_ENERGY_REGEN : Z := 3.
Definition SPELL_ENERGY_COST : Z := 4.
Definition TOOL_ENERGY_COST : Z := 0.
Definition MAX_ENERGY : Z := 15.

(** ** Data model *)

Inductive Side : Type := Player | Enemy.

Inductive GameState : Type := setup | battle | victory | defeat.

(** The numbers of the code are integers, with one exception.  The
    [EXECUTE_AI_ACTION_SEQUENCE] case subtracts [aiAction.energyCost] from
    [enemyEnergy] without testing it: on a descriptor without [energyCost]
    the difference, and with it [enemyEnergy], is [NaN], and [NaN] it stays
    through every later subtraction, addition, [Math.max] and [Math.min].
    So [enemyEnergy] is an integer or [NaN]. *)
Inductive Num : Type := Int (z : Z) | NaN.

(** [battleStats]: the four stats the reducer names, and the remaining
    derived stats as an association list (the object's other keys). *)
Record BattleStats : Type := mkBattleStats {
  maxHealth : Z;
  physicalAttack : Z;
  magicalAttack : Z;
  energyCost : Z;
  otherStats : list (string * Z)
}.

(** An effect.  [healthEffect] and [statEffect] are tested for truthiness:
    a missing [healthEffect] behaves as [0], a missing [statEffect] as the
    empty object. *)
Record Effect : Type := mkEffect {
  name : string;
  duration : Z;
  healthEffect : Z;
  statEffect : list (string * Z)
}.

Record Creature : Type := mkCreature {
  id : string;
  species_name : string;
  battleStats : BattleStats;
  currentHealth : Z;
  activeEffects : option (list (option Effect));
  isDefending : bool
}.

Record Tool : Type := mkTool { tool_id : string; tool_name : string }.
Record Spell : Type := mkSpell { spell_id : string; spell_name : string }.

(** [Date.now()] and [Math.random()] as seen by one reducer call. *)
Record Env : Type := mkEnv { dateNow : Z; mathRandom : Z }.

(** The [id] of a log entry: [Date.now()] or [Date.now() + Math.random()],
    kept as the pair of its two summands. *)
Record LogEntry : Type := mkLogEntry {
  log_id : Z * Z;
  log_turn : Z;
  message : string
}.

Record Counters : Type := mkCounters { player : Z; enemy : Z }.

Record BattleState : Type := mkBattleState {
  gameState : GameState;
  turn : Z;
  activePlayer : Side;
  difficulty : string;
  playerDeck : list Creature;
  playerHand : list Creature;
  playerField : list Creature;
  playerEnergy : Z;
  playerTools : list Tool;
  playerSpells : list Spell;
  enemyDeck : list Creature;
  enemyHand : list Creature;
  enemyField : list Creature;
  enemyEnergy : Num;
  enemyTools : list Tool;
  enemySpells : list Spell;
  battleLog : list LogEntry;
  consecutiveActions : Counters;
  energyMomentum : Counters
}.

(** The initial state given to [useReducer]. *)
Definition initialState : BattleState :=
  {| gameState := setup; turn := 1; activePlayer := Player;
     difficulty := "easy";
     playerDeck := []; playerHand := []; playerField := [];
     playerEnergy := 10; playerTools := []; playerSpells := [];
     enemyDeck := []; enemyHand := []; enemyField := [];
     enemyEnergy := Int 10; enemyTools := []; enemySpells := [];
     battleLog := [];
     consecutiveActions := mkCounters 0 0;
     energyMomentum := mkCounters 0 0 |}.

(** *** Results of the collaborators in [battleCore] *)

Record AttackResult : Type := mkAttackResult {
  updatedAttacker : Creature;
  updatedDefender : Creature;
  attackLog : string   (* the property [battleLog] of the result *)
}.

Record ToolResult : Type := mkToolResult {
  updatedCreature : option Creature
}.

Record SpellResult : Type := mkSpellResult {
  updatedCaster : option Creature;
  updatedTarget : option Creature
}.

(** *** AI action descriptors, as [determineAIAction] returns them *)

Record AIAction : Type := mkAIAction {
  ai_type : string;
  ai_creature : option Creature;
  ai_attacker : option Creature;
  ai_target : option Creature;
  ai_caster : option Creature;
  ai_tool : option Tool;
  ai_spell : option Spell;
  ai_energyCost : option Z
}.

(** *** Actions *)

(** The properties an action object carries besides [type], by shape. *)
Inductive Payload : Type :=
| PNone
| PStartBattle (playerDeck playerHand : list Creature)
               (playerTools : list Tool) (playerSpells : list Spell)
               (enemyDeck enemyHand : list Creature)
               (enemyTools : option (list Tool))
               (enemySpells : option (list Spell))
               (difficulty : string)
| PDeploy (creature : Creature) (energyCost : option Z)
| PUpdateCreature (creature : Creature) (isPlayer : bool)
| PAttack (attackResult : AttackResult) (energyCost : Z)
| PUseTool (result : option ToolResult) (tool : Tool)
           (isPlayerTool isEnemyTool : bool)
| PUseSpell (spellResult : option SpellResult) (spell : Spell)
            (energyCost : option Z) (isEnemySpell : bool)
| PDefend (updatedCreature : Creature)
| PSide (player : Side)
| PSpendEnergy (player : Side) (amount : Z)
| PRegenerate (playerRegen enemyRegen : Z)
| PGameState (gameState : GameState)
| POngoing (addLog : bool)
           (updatedPlayerField updatedEnemyField : option (list Creature))
| PLog (message : string)
| PAIAction (aiAction : AIAction)
| PAISequence (actionSequence : list AIAction).

Record Action : Type := mkAction { type : string; payload : Payload }.

(** The table [ACTIONS]. *)
Inductive ActionKind : Type :=
| START_BATTLE | DEPLOY_CREATURE | ENEMY_DEPLOY_CREATURE | UPDATE_CREATURE
| ATTACK | USE_TOOL | USE_SPELL | DEFEND | DRAW_CARD | REGENERATE_ENERGY
| APPLY_ENERGY_DECAY | SET_ACTIVE_PLAYER | INCREMENT_TURN | SET_GAME_STATE
| APPLY_ONGOING_EFFECTS | ADD_LOG | SPEND_ENERGY | EXECUTE_AI_ACTION
| EXECUTE_AI_ACTION_SEQUENCE | COMBO_BONUS.

Definition ACTIONS : list (ActionKind * string) :=
  [ (START_BATTLE, "START_BATTLE");
    (DEPLOY_CREATURE, "DEPLOY_CREATURE");
    (ENEMY_DEPLOY_CREATURE, "ENEMY_DEPLOY_CREATURE");
    (UPDATE_CREATURE, "UPDATE_CREATURE");
    (ATTACK, "ATTACK");
    (USE_TOOL, "USE_TOOL");
    (USE_SPELL, "USE_SPELL");
    (DEFEND, "DEFEND");
    (DRAW_CARD, "DRAW_CARD");
    (REGENERATE_ENERGY, "REGENERATE_ENERGY");
    (APPLY_ENERGY_DECAY, "APPLY_ENERGY_DECAY");
    (SET_ACTIVE_PLAYER, "SET_ACTIVE_PLAYER");
    (INCREMENT_TURN, "INCREMENT_TURN");
    (SET_GAME_STATE, "SET_GAME_STATE");
    (APPLY_ONGOING_EFFECTS, "APPLY_ONGOING_EFFECTS");
    (ADD_LOG, "ADD_LOG");
    (SPEND_ENERGY, "SPEND_ENERGY");
    (EXECUTE_AI_ACTION, "EXECUTE_AI_ACTION");
    (EXECUTE_AI_ACTION_SEQUENCE, "EXECUTE_AI_ACTION_SEQUENCE");
    (COMBO_BONUS, "COMBO_BONUS") ].

(** [switch (action.type)]: the first [case] label equal to the string. *)
Fixpoint lookupKind (table : list (ActionKind * string)) (t : string)
  : option ActionKind :=
  match table with
  | [] => None
  | (k, label) :: rest => if String.eqb t label then Some k else lookupKind rest t
  end.

Definition kindOf (t : string) : option ActionKind := lookupKind ACTIONS t.

Definition typeName (k : ActionKind) : string :=
  match k with
  | START_BATTLE => "START_BATTLE"
  | DEPLOY_CREATURE => "DEPLOY_CREATURE"
  | ENEMY_DEPLOY_CREATURE => "ENEMY_DEPLOY_CREATURE"
  | UPDATE_CREATURE => "UPDATE_CREATURE"
  | ATTACK => "ATTACK"
  | USE_TOOL => "USE_TOOL"
  | USE_SPELL => "USE_SPELL"
  | DEFEND => "DEFEND"
  | DRAW_CARD => "DRAW_CARD"
  | REGENERATE_ENERGY => "REGENERATE_ENERGY"
  | APPLY_ENERGY_DECAY => "APPLY_ENERGY_DECAY"
  | SET_ACTIVE_PLAYER => "SET_ACTIVE_PLAYER"
  | INCREMENT_TURN => "INCREMENT_TURN"
  | SET_GAME_STATE => "SET_GAME_STATE"
  | APPLY_ONGOING_EFFECTS => "APPLY_ONGOING_EFFECTS"
  | ADD_LOG => "ADD_LOG"
  | SPEND_ENERGY => "SPEND_ENERGY"
  | EXECUTE_AI_ACTION => "EXECUTE_AI_ACTION"
  | EXECUTE_AI_ACTION_SEQUENCE => "EXECUTE_AI_ACTION_SEQUENCE"
  | COMBO_BONUS => "COMBO_BONUS"
  end.

(** An action object of kind [k], as the component writes it:
    [{ type: ACTIONS.k, ...payload }]. *)
Definition act (k : ActionKind) (p : Payload) : Action :=
  {| type := typeName k; payload := p |}.

(** ** Object spreads: [{ ...x, field: v }] *)

Definition setCurrentHealth (v : Z) (c : Creature) : Creature :=
  mkCreature (id c) (species_name c) (battleStats c) v (activeEffects c)
             (isDefending c).

Definition setBattleStats (v : BattleStats) (c : Creature) : Creature :=
  mkCreature (id c) (species_name c) v (currentHealth c) (activeEffects c)
             (isDefending c).

Definition setActiveEffects (v : option (list (option Effect))) (c : Creature)
  : Creature :=
  mkCreature (id c) (species_name c) (battleStats c) (currentHealth c) v
             (isDefending c).

Definition setIsDefending (v : bool) (c : Creature) : Creature :=
  mkCreature (id c) (species_name c) (battleStats c) (currentHealth c)
             (activeEffects c) v.

Definition setDuration (v : Z) (e : Effect) : Effect :=
  mkEffect (name e) v (healthEffect e) (statEffect e).

Definition setPlayer (v : Z) (c : Counters) : Counters := mkCounters v (enemy c).
Definition setEnemy (v : Z) (c : Counters) : Counters := mkCounters (player c) v.

Section StateSetters.
Variable s : BattleState.

Definition setGameState v := mkBattleState v (turn s) (activePlayer s) (difficulty s) (playerDeck s) (playerHand s) (playerField s) (playerEnergy s) (playerTools s) (playerSpells s) (enemyDeck s) (enemyHand s) (enemyField s) (enemyEnergy s) (enemyTools s) (enemySpells s) (battleLog s) (consecutiveActions s) (energyMomentum s).
Definition setTurn v := mkBattleState (gameState s) v (activePlayer s) (difficulty s) (playerDeck s) (playerHand s) (playerField s) (playerEnergy s) (playerTools s) (playerSpells s) (enemyDeck s) (enemyHand s) (enemyField s) (enemyEnergy s) (enemyTools s) (enemySpells s) (battleLog s) (consecutiveActions s) (energyMomentum s).
Definition setActivePlayer v := mkBattleState (gameState s) (turn s) v (difficulty s) (playerDeck s) (playerHand s) (playerField s) (playerEnergy s) (playerTools s) (playerSpells s) (enemyDeck s) (enemyHand s) (enemyField s) (enemyEnergy s) (enemyTools s) (enemySpells s) (battleLog s) (consecutiveActions s) (energyMomentum s).
Definition setDifficulty v := mkBattleState (gameState s) (turn s) (activePlayer s) v (playerDeck s) (playerHand s) (playerField s) (playerEnergy s) (playerTools s) (playerSpells s) (enemyDeck s) (enemyHand s) (enemyField s) (enemyEnergy s) (enemyTools s) (enemySpells s) (battleLog s) (consecutiveActions s) (energyMomentum s).
Definition setPlayerDeck v := mkBattleState (gameState s) (turn s) (activePlayer s) (difficulty s) v (playerHand s) (playerField s) (playerEnergy s) (playerTools s) (playerSpells s) (enemyDeck s) (enemyHand s) (enemyField s) (enemyEnergy s) (enemyTools s) (enemySpells s) (battleLog s) (consecutiveActions s) (energyMomentum s).
Definition setPlayerHand v := mkBattleState (gameState s) (turn s) (activePlayer s) (difficulty s) (playerDeck s) v (playerField s) (playerEnergy s) (playerTools s) (playerSpells s) (enemyDeck s) (enemyHand s) (enemyField s) (enemyEnergy s) (enemyTools s) (enemySpells s) (battleLog s) (consecutiveActions s) (energyMomentum s).
Definition setPlayerField v := mkBattleState (gameState s) (turn s) (activePlayer s) (difficulty s) (playerDeck s) (playerHand s) v (playerEnergy s) (playerTools s) (playerSpells s) (enemyDeck s) (enemyHand s) (enemyField s) (enemyEnergy s) (enemyTools s) (enemySpells s) (battleLog s) (consecutiveActions s) (energyMomentum s).
Definition setPlayerEnergy v := mkBattleState (gameState s) (turn s) (activePlayer s) (difficulty s) (playerDeck s) (playerHand s) (playerField s) v (playerTools s) (playerSpells s) (enemyDeck s) (enemyHand s) (enemyField s) (enemyEnergy s) (enemyTools s) (enemySpells s) (battleLog s) (consecutiveActions s) (energyMomentum s).
Definition setPlayerTools v := mkBattleState (gameState s) (turn s) (activePlayer s) (difficulty s) (playerDeck s) (playerHand s) (playerField s) (playerEnergy s) v (playerSpells s) (enemyDeck s) (enemyHand s) (enemyField s) (enemyEnergy s) (enemyTools s) (enemySpells s) (battleLog s) (consecutiveActions s) (energyMomentum s).
Definition setPlayerSpells v := mkBattleState (gameState s) (turn s) (activePlayer s) (difficulty s) (playerDeck s) (playerHand s) (playerField s) (playerEnergy s) (playerTools s) v (enemyDeck s) (enemyHand s) (enemyField s) (enemyEnergy s) (enemyTools s) (enemySpells s) (battleLog s) (consecutiveActions s) (energyMomentum s).
Definition setEnemyDeck v := mkBattleState (gameState s) (turn s) (activePlayer s) (difficulty s) (playerDeck s) (playerHand s) (playerField s) (playerEnergy s) (playerTools s) (playerSpells s) v (enemyHand s) (enemyField s) (enemyEnergy s) (enemyTools s) (enemySpells s) (battleLog s) (consecutiveActions s) (energyMomentum s).
Definition setEnemyHand v := mkBattleState (gameState s) (turn s) (activePlayer s) (difficulty s) (playerDeck s) (playerHand s) (playerField s) (playerEnergy s) (playerTools s) (playerSpells s) (enemyDeck s) v (enemyField s) (enemyEnergy s) (enemyTools s) (enemySpells s) (battleLog s) (consecutiveActions s) (energyMomentum s).
Definition setEnemyField v := mkBattleState (gameState s) (turn s) (activePlayer s) (difficulty s) (playerDeck s) (playerHand s) (playerField s) (playerEnergy s) (playerTools s) (playerSpells s) (enemyDeck s) (enemyHand s) v (enemyEnergy s) (enemyTools s) (enemySpells s) (battleLog s) (consecutiveActions s) (energyMomentum s).
Definition setEnemyEnergy v := mkBattleState (gameState s) (turn s) (activePlayer s) (difficulty s) (playerDeck s) (playerHand s) (playerField s) (playerEnergy s) (playerTools s) (playerSpells s) (enemyDeck s) (enemyHand s) (enemyField s) v (enemyTools s) (enemySpells s) (battleLog s) (consecutiveActions s) (energyMomentum s).
Definition setEnemyTools v := mkBattleState (gameState s) (turn s) (activePlayer s) (difficulty s) (playerDeck s) (playerHand s) (playerField s) (playerEnergy s) (playerTools s) (playerSpells s) (enemyDeck s) (enemyHand s) (enemyField s) (enemyEnergy s) v (enemySpells s) (battleLog s) (consecutiveActions s) (energyMomentum s).
Definition setEnemySpells v := mkBattleState (gameState s) (turn s) (activePlayer s) (difficulty s) (playerDeck s) (playerHand s) (playerField s) (playerEnergy s) (playerTools s) (playerSpells s) (enemyDeck s) (enemyHand s) (enemyField s) (enemyEnergy s) (enemyTools s) v (battleLog s) (consecutiveActions s) (energyMomentum s).
Definition setBattleLog v := mkBattleState (gameState s) (turn s) (activePlayer s) (difficulty s) (playerDeck s) (playerHand s) (playerField s) (playerEnergy s) (playerTools s) (playerSpells s) (enemyDeck s) (enemyHand s) (enemyField s) (enemyEnergy s) (enemyTools s) (enemySpells s) v (consecutiveActions s) (energyMomentum s).
Definition setConsecutiveActions v := mkBattleState (gameState s) (turn s) (activePlayer s) (difficulty s) (playerDeck s) (playerHand s) (playerField s) (playerEnergy s) (playerTools s) (playerSpells s) (enemyDeck s) (enemyHand s) (enemyField s) (enemyEnergy s) (enemyTools s) (enemySpells s) (battleLog s) v (energyMomentum s).
Definition setEnergyMomentum v := mkBattleState (gameState s) (turn s) (activePlayer s) (difficulty s) (playerDeck s) (playerHand s) (playerField s) (playerEnergy s) (playerTools s) (playerSpells s) (enemyDeck s) (enemyHand s) (enemyField s) (enemyEnergy s) (enemyTools s) (enemySpells s) (battleLog s) (consecutiveActions s) v.
End StateSetters.

(** [{ ...s, f1: v1, f2: v2 }] is written [s <| setF1 v1 |> <| setF2 v2 |>]. *)
Notation "s <| f v |>" := (f s v)
  (at level 1, left associativity, f at level 0, v at level 0, only parsing).

(** ** JavaScript operators on the model's types *)

(** [a || b] where [a] may be missing: [undefined] and [0] are falsy. *)
Definition orNum (a : option Z) (b : Z) : Z :=
  match a with
  | Some v => if v =? 0 then b else v
  | None => b
  end.

(** A number read from a property that may be missing: [undefined]
    counts as [NaN] in arithmetic. *)
Definition toNumber (v : option Z) : Num :=
  match v with Some z => Int z | None => NaN end.

(** [a + b], [a - b], [Math.max(a, b)], [Math.min(a, b)]: [NaN] as soon as
    one argument is. *)
Definition numBinary (f : Z -> Z -> Z) (a b : Num) : Num :=
  match a, b with
  | Int x, Int y => Int (f x y)
  | _, _ => NaN
  end.

Definition numAdd : Num -> Num -> Num := numBinary Z.add.
Definition numSub : Num -> Num -> Num := numBinary Z.sub.
Definition numMax : Num -> Num -> Num := numBinary Z.max.
Definition numMin : Num -> Num -> Num := numBinary Z.min.

(** [a < b] and [a <= b]: false as soon as one argument is [NaN]. *)
Definition numLtb (a b : Num) : bool :=
  match a, b with
  | Int x, Int y => x <? y
  | _, _ => false
  end.

Definition numLeb (a b : Num) : bool :=
  match a, b with
  | Int x, Int y => x <=? y
  | _, _ => false
  end.

(** [a || []]. *)
Definition orList {A : Type} (a : option (list A)) : list A :=
  match a with Some l => l | None => [] end.

(** Template-literal rendering of an integer. *)
Definition showZ (z : Z) : string := NilZero.string_of_int (Z.to_int z).

(** [str.charAt(0).toUpperCase() + str.slice(1)] on ASCII text. *)
Definition toUpperAscii (c : ascii) : ascii :=
  let n := nat_of_ascii c in
  if andb (Nat.leb 97 n) (Nat.leb n 122) then ascii_of_nat (n - 32) else c.

Definition capitalize (str : string) : string :=
  match str with
  | EmptyString => EmptyString
  | String c rest => String (toUpperAscii c) rest
  end.

(** [lines.join('. ')]. *)
Definition joinLines (lines : list string) : string := String.concat ". " lines.

Definition sameId (a b : string) : bool := String.eqb a b.

(** ** The monad of a reducer call *)

Inductive Event : Type :=
| ConsoleError (text : string)
| ConsoleLog (text : string)
| AddLogCall (text : string).   (* [action.addLog(text)] *)

Inductive Fault : Type := TypeError | Unmodelled.

Inductive Outcome (A : Type) : Type :=
| Return (value : A) (events : list Event)
| Raise (fault : Fault) (events : list Event).

Arguments Return {A} value events.
Arguments Raise {A} fault events.

Definition ret {A : Type} (a : A) : Outcome A := Return a [].

Definition bind {A B : Type} (m : Outcome A) (f : A -> Outcome B) : Outcome B :=
  match m with
  | Return a ev =>
      match f a with
      | Return b ev' => Return b (ev ++ ev')
      | Raise e ev' => Raise e (ev ++ ev')
      end
  | Raise e ev => Raise e ev
  end.

Definition emit (e : Event) : Outcome unit := Return tt [e].
Definition throw {A : Type} (f : Fault) : Outcome A := Raise f [].

Notation "x <- m ;; k" := (bind m (fun x => k))
  (at level 61, m at next level, right associativity).
Notation "m ;;; k" := (bind m (fun _ => k))
  (at level 61, right associativity).

(** Reading [x.id] where [x] may be [undefined]. *)
Definition idOf (x : option Creature) : Outcome string :=
  match x with
  | Some c => ret (id c)
  | None => throw TypeError
  end.

(** [list.some(cb)], [list.map(cb)] and [list.filter(cb)] with a callback
    that may throw: the callback runs once per element, in order, and
    [some] stops at the first [true]. *)
Fixpoint someM {A : Type} (cb : A -> Outcome bool) (l : list A) : Outcome bool :=
  match l with
  | [] => ret false
  | x :: rest => b <- cb x ;; if b : bool then ret true else someM cb rest
  end.

Fixpoint mapM {A B : Type} (cb : A -> Outcome B) (l : list A) : Outcome (list B) :=
  match l with
  | [] => ret []
  | x :: rest => y <- cb x ;; ys <- mapM cb rest ;; ret (y :: ys)
  end.

Fixpoint filterM {A : Type} (cb : A -> Outcome bool) (l : list A) : Outcome (list A) :=
  match l with
  | [] => ret []
  | x :: rest =>
      b <- cb x ;; ys <- filterM cb rest ;; ret (if b : bool then x :: ys else ys)
  end.

(** ** Pieces shared by several reducer cases *)

(** [field.some(c => c.id === x.id)]. *)
Definition hasId (field : list Creature) (x : string) : bool :=
  existsb (fun c => sameId (id c) x) field.

(** [field.map(c => c.id === x.id ? x : c)]. *)
Definition replaceById (x : Creature) (field : list Creature) : list Creature :=
  map (fun c => if sameId (id c) (id x) then x else c) field.

(** [field.filter(c => c.currentHealth > 0)]. *)
Definition alive (c : Creature) : bool := 0 <? currentHealth c.
Definition removeDefeated (field : list Creature) : list Creature :=
  filter alive field.

(** [list.filter(c => c.id !== x.id)]. *)
Definition withoutId (x : string) (l : list Creature) : list Creature :=
  filter (fun c => negb (sameId (id c) x)) l.

(** ** Ongoing effects (the body of the two [map] callbacks) *)

(** [battleStats[stat] !== undefined] and [battleStats[stat] += value]. *)
Definition addToStat (stats : BattleStats) (entry : string * Z) : BattleStats :=
  let (stat, value) := entry in
  if (stat =? "maxHealth")%string then
    mkBattleStats (maxHealth stats + value) (physicalAttack stats)
                  (magicalAttack stats) (energyCost stats) (otherStats stats)
  else if (stat =? "physicalAttack")%string then
    mkBattleStats (maxHealth stats) (physicalAttack stats + value)
                  (magicalAttack stats) (energyCost stats) (otherStats stats)
  else if (stat =? "magicalAttack")%string then
    mkBattleStats (maxHealth stats) (physicalAttack stats)
                  (magicalAttack stats + value) (energyCost stats) (otherStats stats)
  else if (stat =? "energyCost")%string then
    mkBattleStats (maxHealth stats) (physicalAttack stats)
                  (magicalAttack stats) (energyCost stats + value) (otherStats stats)
  else
    mkBattleStats (maxHealth stats) (physicalAttack stats)
                  (magicalAttack stats) (energyCost stats)
                  (map (fun kv => if (fst kv =? stat)%string
                                  then (fst kv, snd kv + value) else kv)
                       (otherStats stats)).

(** [Object.entries(effect.statEffect).forEach(...)]. *)
Definition applyStatEffect (entries : list (string * Z)) (stats : BattleStats)
  : BattleStats :=
  fold_left addToStat entries stats.

(** The three locals of one creature's pass: [updatedCreature],
    [remainingEffects] and [effectLog]. *)
Record EffectPass : Type := mkEffectPass {
  passCreature : Creature;
  remainingEffects : list Effect;
  effectLog : list string
}.

(** One call of the [activeEffects.forEach] callback.  [label] is the
    empty string on the player's field and ["Enemy "] on the enemy's. *)
Definition applyEffect (label : string) (acc : EffectPass) (entry : option Effect)
  : EffectPass :=
  match entry with
  | None => acc
  | Some effect =>
      let c0 := passCreature acc in
      let previousHealth := currentHealth c0 in
      let newHealth :=
        Z.min (maxHealth (battleStats c0))
              (Z.max 0 (currentHealth c0 + healthEffect effect)) in
      let healthChange := newHealth - previousHealth in
      let changeType := if 0 <? healthChange then "healed" else "damaged" in
      let c1 := if healthEffect effect =? 0 then c0
                else setCurrentHealth newHealth c0 in
      let log1 :=
        if healthEffect effect =? 0 then effectLog acc
        else if healthChange =? 0 then effectLog acc
        else effectLog acc ++
             [(label ++ species_name c0 ++ " " ++ changeType ++
               " for " ++ showZ (Z.abs healthChange) ++ " from " ++
               name effect)%string] in
      let c2 := setBattleStats
                  (applyStatEffect (statEffect effect) (battleStats c1)) c1 in
      let updatedEffect := setDuration (duration effect - 1) effect in
      if 0 <? duration updatedEffect then
        mkEffectPass c2 (remainingEffects acc ++ [updatedEffect]) log1
      else
        mkEffectPass c2 (remainingEffects acc)
          (log1 ++ [(name effect ++ " effect has expired on " ++ label ++
                     species_name c2)%string])
  end.

Definition runEffects (label : string) (effects : list (option Effect))
  (creature : Creature) : EffectPass :=
  fold_left (applyEffect label) effects (mkEffectPass creature [] []).

(** The callback of [state.playerField.map] / [state.enemyField.map]. *)
Definition processCreature (label : string) (addLog : bool) (creature : Creature)
  : Outcome Creature :=
  let effects := orList (activeEffects creature) in
  updated <-
    (match effects with
     | [] => ret creature
     | _ :: _ =>
         let pass := runEffects label effects creature in
         let updated := setActiveEffects
                          (Some (map Some (remainingEffects pass)))
                          (passCreature pass) in
         match effectLog pass with
         | [] => ret updated
         | _ :: _ =>
             if addLog
             then emit (AddLogCall (joinLines (effectLog pass))) ;;; ret updated
             else ret updated
         end
     end) ;;
  ret (if isDefending updated then setIsDefending false updated else updated).

(** ** The reducer, one definition per [case] *)

Section Reducer.

(** The collaborators imported from [../utils/battleCore]. *)
Variable processAttack : Creature -> Creature -> option string -> AttackResult.
Variable defendCreature : Creature -> option string -> Creature.
Variable applyTool : Creature -> Tool -> string -> option ToolResult.
Variable applySpell : Creature -> Creature -> Spell -> string -> option SpellResult.

Variable env : Env.
Variable state : BattleState.

Definition incPlayer (c : Counters) (n : Z) : Counters := setPlayer (player c + n) c.
Definition incEnemy (c : Counters) (n : Z) : Counters := setEnemy (enemy c + n) c.

Definition startBattle (pDeck pHand : list Creature) (pTools : list Tool)
  (pSpells : list Spell) (eDeck eHand : list Creature)
  (eTools : option (list Tool)) (eSpells : option (list Spell))
  (diff : string) : Outcome BattleState :=
  ret {| gameState := battle;
         playerDeck := pDeck; playerHand := pHand; playerField := [];
         enemyDeck := eDeck; enemyHand := eHand; enemyField := [];
         playerEnergy := 10; enemyEnergy := Int 10;
         turn := 1; activePlayer := Player;
         battleLog :=
           [ {| log_id := (dateNow env, 0); log_turn := 1;
                message := ("Battle started! Difficulty: " ++ capitalize diff
                            ++ " - Prepare for intense combat!")%string |} ];
         playerTools := pTools; playerSpells := pSpells;
         enemyTools := orList eTools; enemySpells := orList eSpells;
         difficulty := diff;
         consecutiveActions := mkCounters 0 0;
         energyMomentum := mkCounters 0 0 |}.

(** [action.energyCost || action.creature.battleStats.energyCost || 3]. *)
Definition declaredDeployCost (creature : Creature) (cost : option Z) : Z :=
  orNum (Some (orNum cost (energyCost (battleStats creature)))) 3.

Definition deployCreature (creature : Creature) (cost : option Z)
  : Outcome BattleState :=
  let deployEnergyCost := declaredDeployCost creature cost in
  if playerEnergy state <? deployEnergyCost then
    emit (ConsoleError "Not enough energy to deploy creature") ;;; ret state
  else
    ret (state <| setPlayerHand (withoutId (id creature) (playerHand state)) |>
               <| setPlayerField (playerField state ++ [creature]) |>
               <| setPlayerEnergy (Z.max 0 (playerEnergy state - deployEnergyCost)) |>
               <| setConsecutiveActions (incPlayer (consecutiveActions state) 1) |>
               <| setEnergyMomentum (incPlayer (energyMomentum state) deployEnergyCost) |>).

Definition enemyDeployCreature (creature : Creature) (cost : option Z)
  : Outcome BattleState :=
  emit (ConsoleLog ("REDUCER: Deploying enemy creature " ++ species_name creature
                    ++ " to field")%string) ;;;
  let enemyDeployCost := declaredDeployCost creature cost in
  if numLtb (enemyEnergy state) (Int enemyDeployCost) then
    emit (ConsoleError "Enemy doesn't have enough energy to deploy") ;;; ret state
  else if hasId (enemyField state) (id creature) then
    emit (ConsoleError "Creature already deployed!") ;;; ret state
  else
    ret (state <| setEnemyHand (withoutId (id creature) (enemyHand state)) |>
               <| setEnemyField (enemyField state ++ [creature]) |>
               <| setEnemyEnergy
                    (numMax (Int 0) (numSub (enemyEnergy state) (Int enemyDeployCost))) |>
               <| setConsecutiveActions (incEnemy (consecutiveActions state) 1) |>
               <| setEnergyMomentum (incEnemy (energyMomentum state) enemyDeployCost) |>).

Definition updateCreature (creature : Creature) (isPlayer : bool)
  : Outcome BattleState :=
  if isPlayer
  then ret (state <| setPlayerField (replaceById creature (playerField state)) |>)
  else ret (state <| setEnemyField (replaceById creature (enemyField state)) |>).

(** The two [map] callbacks of [ATTACK] and [USE_SPELL]: the first
    replacement that is enabled and matches wins. *)
Definition replaceTwo (first : bool) (a : Creature) (second : bool) (b : Creature)
  (field : list Creature) : list Creature :=
  map (fun c => if andb first (sameId (id c) (id a)) then a
                else if andb second (sameId (id c) (id b)) then b
                else c) field.

(** [comboMultiplier] is computed by the source and never read. *)
Definition attack (attackResult : AttackResult) (cost : Z) : Outcome BattleState :=
  let isPlayerAttacker := hasId (playerField state) (id (updatedAttacker attackResult)) in
  let isPlayerDefender := hasId (playerField state) (id (updatedDefender attackResult)) in
  if andb isPlayerAttacker (playerEnergy state <? cost) then
    emit (ConsoleError "Not enough energy for attack") ;;; ret state
  else if andb (negb isPlayerAttacker) (numLtb (enemyEnergy state) (Int cost)) then
    emit (ConsoleError "Enemy doesn't have enough energy for attack") ;;; ret state
  else
    let updatedPlayerEnergy :=
      if isPlayerAttacker then Z.max 0 (playerEnergy state - cost)
      else playerEnergy state in
    let updatedEnemyEnergy :=
      if negb isPlayerAttacker
      then numMax (Int 0) (numSub (enemyEnergy state) (Int cost))
      else enemyEnergy state in
    ret (state <| setPlayerEnergy updatedPlayerEnergy |>
               <| setEnemyEnergy updatedEnemyEnergy |>
               <| setPlayerField
                    (removeDefeated
                       (replaceTwo isPlayerAttacker (updatedAttacker attackResult)
                                   isPlayerDefender (updatedDefender attackResult)
                                   (playerField state))) |>
               <| setEnemyField
                    (removeDefeated
                       (replaceTwo (negb isPlayerAttacker) (updatedAttacker attackResult)
                                   (negb isPlayerDefender) (updatedDefender attackResult)
                                   (enemyField state))) |>
               <| setConsecutiveActions
                    (if isPlayerAttacker then incPlayer (consecutiveActions state) 1
                     else incEnemy (consecutiveActions state) 1) |>
               <| setEnergyMomentum
                    (if isPlayerAttacker then incPlayer (energyMomentum state) cost
                     else incEnemy (energyMomentum state) cost) |>).

(** [action.result.updatedCreature.id], read inside the [some] callback
    before [action.result] is tested. *)
Definition toolTargetId (result : option ToolResult) : Outcome string :=
  match result with
  | Some r => idOf (updatedCreature r)
  | None => throw TypeError
  end.

Definition useTool (result : option ToolResult) (tool : Tool)
  (isPlayerTool isEnemyTool : bool) : Outcome BattleState :=
  isPlayerToolTarget <-
    someM (fun c => x <- toolTargetId result ;; ret (sameId (id c) x))
          (playerField state) ;;
  match result with
  | Some (mkToolResult (Some updated)) =>
      ret (state <| setPlayerField
                      (if isPlayerToolTarget : bool
                       then replaceById updated (playerField state)
                       else playerField state) |>
                 <| setEnemyField
                      (if negb isPlayerToolTarget
                       then replaceById updated (enemyField state)
                       else enemyField state) |>
                 <| setPlayerTools
                      (if isPlayerTool
                       then filter (fun t => negb (String.eqb (tool_id t) (tool_id tool)))
                                   (playerTools state)
                       else playerTools state) |>
                 <| setEnemyTools
                      (if isEnemyTool
                       then filter (fun t => negb (String.eqb (tool_id t) (tool_id tool)))
                                   (enemyTools state)
                       else enemyTools state) |>
                 <| setConsecutiveActions
                      (if isPlayerTool then incPlayer (consecutiveActions state) 1
                       else incEnemy (consecutiveActions state) 1) |>)
  | _ => emit (ConsoleError "Invalid tool result:") ;;; ret state
  end.

Definition useSpell (spellResult : option SpellResult) (spell : Spell)
  (cost : option Z) (isEnemySpell : bool) : Outcome BattleState :=
  match spellResult with
  | Some (mkSpellResult (Some caster) (Some target)) =>
      let isPlayerCaster := hasId (playerField state) (id caster) in
      let isPlayerTarget := hasId (playerField state) (id target) in
      let spellCost := orNum cost SPELL_ENERGY_COST in
      if andb isPlayerCaster (playerEnergy state <? spellCost) then
        emit (ConsoleError "Not enough energy for spell") ;;; ret state
      else if andb (negb isPlayerCaster)
                   (numLtb (enemyEnergy state) (Int spellCost)) then
        emit (ConsoleError "Enemy doesn't have enough energy for spell") ;;; ret state
      else
        ret (state <| setPlayerField
                        (removeDefeated
                           (replaceTwo isPlayerCaster caster isPlayerTarget target
                                       (playerField state))) |>
                   <| setEnemyField
                        (removeDefeated
                           (replaceTwo (negb isPlayerCaster) caster
                                       (negb isPlayerTarget) target
                                       (enemyField state))) |>
                   <| setPlayerEnergy
                        (if isPlayerCaster
                         then Z.max 0 (playerEnergy state - spellCost)
                         else playerEnergy state) |>
                   <| setEnemyEnergy
                        (if negb isPlayerCaster
                         then numMax (Int 0) (numSub (enemyEnergy state) (Int spellCost))
                         else enemyEnergy state) |>
                   <| setPlayerSpells
                        (if isPlayerCaster
                         then filter (fun sp => negb (String.eqb (spell_id sp) (spell_id spell)))
                                     (playerSpells state)
                         else playerSpells state) |>
                   <| setEnemySpells
                        (if isEnemySpell
                         then filter (fun sp => negb (String.eqb (spell_id sp) (spell_id spell)))
                                     (enemySpells state)
                         else enemySpells state) |>
                   <| setConsecutiveActions
                        (if isPlayerCaster then incPlayer (consecutiveActions state) 1
                         else incEnemy (consecutiveActions state) 1) |>
                   <| setEnergyMomentum
                        (if isPlayerCaster then incPlayer (energyMomentum state) spellCost
                         else incEnemy (energyMomentum state) spellCost) |>)
  | _ => emit (ConsoleError "Invalid spell result:") ;;; ret state
  end.

Definition defend (updated : Creature) : Outcome BattleState :=
  let isPlayerDefending := hasId (playerField state) (id updated) in
  if andb isPlayerDefending (playerEnergy state <? DEFEND_ENERGY_COST) then
    emit (ConsoleError "Not enough energy to defend") ;;; ret state
  else if andb (negb isPlayerDefending)
               (numLtb (enemyEnergy state) (Int DEFEND_ENERGY_COST)) then
    emit (ConsoleError "Enemy doesn't have enough energy to defend") ;;; ret state
  else
    let playerEnergyAfterDefend :=
      if isPlayerDefending then Z.max 0 (playerEnergy state - DEFEND_ENERGY_COST)
      else playerEnergy state in
    let enemyEnergyAfterDefend :=
      if negb isPlayerDefending
      then numMax (Int 0) (numSub (enemyEnergy state) (Int DEFEND_ENERGY_COST))
      else enemyEnergy state in
    ret (state <| setPlayerEnergy playerEnergyAfterDefend |>
               <| setEnemyEnergy enemyEnergyAfterDefend |>
               <| setPlayerField
                    (if isPlayerDefending
                     then replaceById updated (playerField state)
                     else playerField state) |>
               <| setEnemyField
                    (if negb isPlayerDefending
                     then replaceById updated (enemyField state)
                     else enemyField state) |>
               <| setConsecutiveActions
                    (if isPlayerDefending then incPlayer (consecutiveActions state) 1
                     else incEnemy (consecutiveActions state) 1) |>).

Definition spendEnergy (side : Side) (amount : Z) : Outcome BattleState :=
  match side with
  | Player => ret (state <| setPlayerEnergy (Z.max 0 (playerEnergy state - amount)) |>)
  | Enemy => ret (state <| setEnemyEnergy
                         (numMax (Int 0) (numSub (enemyEnergy state) (Int amount))) |>)
  end.

Definition drawCard (side : Side) : Outcome BattleState :=
  match side with
  | Player =>
      match playerDeck state with
      | [] => ret state
      | drawnCard :: rest =>
          ret (state <| setPlayerHand (playerHand state ++ [drawnCard]) |>
                     <| setPlayerDeck rest |>)
      end
  | Enemy =>
      match enemyDeck state with
      | [] => ret state
      | drawnCard :: rest =>
          ret (state <| setEnemyHand (enemyHand state ++ [drawnCard]) |>
                     <| setEnemyDeck rest |>)
      end
  end.

Definition regenerateEnergy (playerRegen enemyRegen : Z) : Outcome BattleState :=
  let playerMomentumBonus := player (energyMomentum state) / 10 in
  let enemyMomentumBonus := enemy (energyMomentum state) / 10 in
  ret (state <| setPlayerEnergy
                  (Z.min MAX_ENERGY (playerEnergy state + playerRegen + playerMomentumBonus)) |>
             <| setEnemyEnergy
                  (numMin (Int MAX_ENERGY)
                          (numAdd (numAdd (enemyEnergy state) (Int enemyRegen))
                                  (Int enemyMomentumBonus))) |>
             <| setEnergyMomentum (mkCounters 0 0) |>).

(** [Math.floor(energy * ENERGY_DECAY_RATE)] with [ENERGY_DECAY_RATE = 0.1]. *)
Definition decayOf (energy : Z) : Z := energy / 10.

Definition numDecayOf (energy : Num) : Num :=
  match energy with Int z => Int (decayOf z) | NaN => NaN end.

Definition applyEnergyDecayCase : Outcome BattleState :=
  let playerDecay := decayOf (playerEnergy state) in
  let enemyDecay := numDecayOf (enemyEnergy state) in
  ret (state <| setPlayerEnergy (Z.max 0 (playerEnergy state - playerDecay)) |>
             <| setEnemyEnergy
                  (numMax (Int 0) (numSub (enemyEnergy state) enemyDecay)) |>).

Definition setActivePlayerCase (side : Side) : Outcome BattleState :=
  ret (state <| setActivePlayer side |>
             <| setConsecutiveActions (mkCounters 0 0) |>).

Definition incrementTurn : Outcome BattleState :=
  ret (state <| setTurn (turn state + 1) |>).

Definition setGameStateCase (g : GameState) : Outcome BattleState :=
  ret (state <| setGameState g |>).

Definition applyOngoingEffects (addLog : bool)
  (updatedPlayerField updatedEnemyField : option (list Creature))
  : Outcome BattleState :=
  processedPlayerField <-
    mapM (processCreature EmptyString addLog) (playerField state) ;;
  processedEnemyField <-
    mapM (processCreature "Enemy " addLog) (enemyField state) ;;
  let newPlayerField :=
    match updatedPlayerField with
    | Some given => given
    | None => removeDefeated processedPlayerField
    end in
  let newEnemyField :=
    match updatedEnemyField with
    | Some given => given
    | None => removeDefeated processedEnemyField
    end in
  ret (state <| setPlayerField newPlayerField |>
             <| setEnemyField newEnemyField |>).

Definition addLogCase (text : string) : Outcome BattleState :=
  ret (state <| setBattleLog
                  (battleLog state ++
                   [ {| log_id := (dateNow env, mathRandom env);
                        log_turn := turn state;
                        message := text |} ]) |>).

Definition comboBoost (creature : Creature) : Creature :=
  setBattleStats
    (mkBattleStats (maxHealth (battleStats creature))
                   (physicalAttack (battleStats creature) + 2)
                   (magicalAttack (battleStats creature) + 2)
                   (energyCost (battleStats creature))
                   (otherStats (battleStats creature)))
    creature.

Definition comboBonus (side : Side) : Outcome BattleState :=
  let comboLevel :=
    match side with
    | Player => player (consecutiveActions state)
    | Enemy => enemy (consecutiveActions state)
    end in
  if 3 <=? comboLevel then
    match side with
    | Player => ret (state <| setPlayerField (map comboBoost (playerField state)) |>)
    | Enemy => ret (state <| setEnemyField (map comboBoost (enemyField state)) |>)
    end
  else ret state.

(** *** [EXECUTE_AI_ACTION] *)

(** The [map] callbacks of the ['useSpell'] branch; they read
    [spellResult.updatedCaster.id] and [spellResult.updatedTarget.id]
    without testing the two properties. *)
Definition aiSpellOnEnemy (r : SpellResult) (c : Creature) : Outcome Creature :=
  match updatedCaster r with
  | None => throw TypeError
  | Some caster =>
      if sameId (id c) (id caster) then ret caster
      else match updatedTarget r with
           | None => throw TypeError
           | Some target => if sameId (id c) (id target) then ret target else ret c
           end
  end.

Definition aiSpellOnPlayer (r : SpellResult) (c : Creature) : Outcome Creature :=
  match updatedTarget r with
  | None => throw TypeError
  | Some target => if sameId (id c) (id target) then ret target else ret c
  end.

Definition executeAIAction (aiAction : AIAction) : Outcome BattleState :=
  let kind := ai_type aiAction in
  if (kind =? "deploy")%string then
    match ai_creature aiAction with
    | Some creature =>
        let deployCost := orNum (ai_energyCost aiAction) 3 in
        if numLtb (enemyEnergy state) (Int deployCost) then
          emit (ConsoleError "AI tried to deploy without enough energy") ;;; ret state
        else if hasId (enemyField state) (id creature) then
          emit (ConsoleError "AI tried to deploy duplicate creature") ;;; ret state
        else
          ret (state <| setEnemyHand (withoutId (id creature) (enemyHand state)) |>
                     <| setEnemyField (enemyField state ++ [creature]) |>
                     <| setEnemyEnergy
                          (numMax (Int 0) (numSub (enemyEnergy state) (Int deployCost))) |>
                     <| setConsecutiveActions (incEnemy (consecutiveActions state) 1) |>
                     <| setEnergyMomentum (incEnemy (energyMomentum state) deployCost) |>)
    | None => ret state
    end
  else if (kind =? "attack")%string then
    match ai_attacker aiAction, ai_target aiAction with
    | Some attacker, Some target =>
        let attackCost := orNum (ai_energyCost aiAction) 2 in
        if numLtb (enemyEnergy state) (Int attackCost) then
          emit (ConsoleError "AI tried to attack without enough energy") ;;; ret state
        else
          let attackResult := processAttack attacker target None in
          ret (state <| setEnemyEnergy
                         (numMax (Int 0) (numSub (enemyEnergy state) (Int attackCost))) |>
                     <| setConsecutiveActions (incEnemy (consecutiveActions state) 1) |>
                     <| setEnergyMomentum (incEnemy (energyMomentum state) attackCost) |>
                     <| setPlayerField
                          (removeDefeated
                             (replaceById (updatedDefender attackResult)
                                          (playerField state))) |>
                     <| setEnemyField
                          (replaceById (updatedAttacker attackResult)
                                       (enemyField state)) |>)
    | _, _ => ret state
    end
  else if (kind =? "defend")%string then
    match ai_creature aiAction with
    | Some creature =>
        let defendCost := orNum (ai_energyCost aiAction) 1 in
        if numLtb (enemyEnergy state) (Int defendCost) then
          emit (ConsoleError "AI tried to defend without enough energy") ;;; ret state
        else
          let updatedDefender := defendCreature creature (Some (difficulty state)) in
          ret (state <| setEnemyEnergy
                         (numMax (Int 0) (numSub (enemyEnergy state) (Int defendCost))) |>
                     <| setConsecutiveActions (incEnemy (consecutiveActions state) 1) |>
                     <| setEnemyField (replaceById updatedDefender (enemyField state)) |>)
    | None => ret state
    end
  else if (kind =? "useTool")%string then
    match ai_tool aiAction, ai_target aiAction with
    | Some tool, Some target =>
        match applyTool target tool (difficulty state) with
        | Some (mkToolResult (Some updated)) =>
            let isEnemyTarget := hasId (enemyField state) (id target) in
            let moved :=
              if isEnemyTarget
              then state <| setEnemyField (replaceById updated (enemyField state)) |>
              else state <| setPlayerField (replaceById updated (playerField state)) |> in
            ret (moved <| setEnemyTools
                            (filter (fun t => negb (String.eqb (tool_id t) (tool_id tool)))
                                    (enemyTools state)) |>
                       <| setConsecutiveActions (incEnemy (consecutiveActions state) 1) |>)
        | _ => ret state
        end
    | _, _ => ret state
    end
  else if (kind =? "useSpell")%string then
    match ai_spell aiAction, ai_caster aiAction, ai_target aiAction with
    | Some spell, Some caster, Some target =>
        let spellCost := orNum (ai_energyCost aiAction) SPELL_ENERGY_COST in
        if numLtb (enemyEnergy state) (Int spellCost) then
          emit (ConsoleError "AI tried to cast spell without enough energy") ;;; ret state
        else
          match applySpell caster target spell (difficulty state) with
          | Some spellResult =>
              newEnemyField <- mapM (aiSpellOnEnemy spellResult) (enemyField state) ;;
              newPlayerField <- mapM (aiSpellOnPlayer spellResult) (playerField state) ;;
              ret (state <| setEnemyEnergy
                         (numMax (Int 0) (numSub (enemyEnergy state) (Int spellCost))) |>
                         <| setConsecutiveActions (incEnemy (consecutiveActions state) 1) |>
                         <| setEnergyMomentum (incEnemy (energyMomentum state) spellCost) |>
                         <| setEnemyField (removeDefeated newEnemyField) |>
                         <| setPlayerField (removeDefeated newPlayerField) |>
                         <| setEnemySpells
                              (filter (fun sp => negb (String.eqb (spell_id sp) (spell_id spell)))
                                      (enemySpells state)) |>)
          | None => ret state
          end
    | _, _, _ => ret state
    end
  else ret state.

(** *** [EXECUTE_AI_ACTION_SEQUENCE] *)

(** One iteration of [for (const aiAction of action.actionSequence)].
    The body reads [aiAction.creature], [aiAction.attacker],
    [aiAction.target] and [aiAction.energyCost] without testing them: a
    missing [energyCost] passes the test against [actionCost = 0] and makes
    [enemyEnergy] [NaN]; a missing creature is outside the model once it
    would reach a field or a collaborator. *)
Definition sequenceStep (newState : BattleState) (aiAction : AIAction)
  : Outcome BattleState :=
  let kind := ai_type aiAction in
  let actionCost := orNum (ai_energyCost aiAction) 0 in
  if numLtb (enemyEnergy newState) (Int actionCost) then
    emit (ConsoleLog ("Skipping AI action " ++ kind ++ " - not enough energy")%string) ;;;
    ret newState
  else if (kind =? "deploy")%string then
    duplicate <-
      someM (fun c => x <- idOf (ai_creature aiAction) ;; ret (sameId (id c) x))
            (enemyField newState) ;;
    if duplicate : bool then
      emit (ConsoleLog "Skipping duplicate deployment") ;;; ret newState
    else
      newHand <-
        filterM (fun c => x <- idOf (ai_creature aiAction) ;; ret (negb (sameId (id c) x)))
                (enemyHand newState) ;;
      match ai_creature aiAction with
      | Some creature =>
          ret (newState <| setEnemyHand newHand |>
                        <| setEnemyField (enemyField newState ++ [creature]) |>
                        <| setEnemyEnergy
                             (numMax (Int 0)
                                     (numSub (enemyEnergy newState)
                                             (toNumber (ai_energyCost aiAction)))) |>)
      | None => throw Unmodelled
      end
  else if (kind =? "attack")%string then
    match ai_attacker aiAction, ai_target aiAction with
    | Some attacker, Some target =>
        let attackResult := processAttack attacker target None in
        ret (newState <| setEnemyEnergy
                           (numMax (Int 0)
                                   (numSub (enemyEnergy newState)
                                           (toNumber (ai_energyCost aiAction)))) |>
                      <| setPlayerField
                           (removeDefeated
                              (replaceById (updatedDefender attackResult)
                                           (playerField newState))) |>
                      <| setEnemyField
                           (replaceById (updatedAttacker attackResult)
                                        (enemyField newState)) |>)
    | _, _ => throw Unmodelled
    end
  else if (kind =? "defend")%string then
    match ai_creature aiAction with
    | Some creature =>
        let updatedDefender := defendCreature creature None in
        ret (newState <| setEnemyEnergy
                           (numMax (Int 0)
                                   (numSub (enemyEnergy newState)
                                           (toNumber (ai_energyCost aiAction)))) |>
                      <| setEnemyField (replaceById updatedDefender (enemyField newState)) |>)
    | None => throw Unmodelled
    end
  else ret newState.

Fixpoint runSequence (newState : BattleState) (actionSequence : list AIAction)
  : Outcome BattleState :=
  match actionSequence with
  | [] => ret newState
  | aiAction :: rest =>
      next <- sequenceStep newState aiAction ;; runSequence next rest
  end.

Definition executeAIActionSequence (actionSequence : list AIAction)
  : Outcome BattleState :=
  runSequence state actionSequence.

(** *** The [switch] *)

Definition reduceKind (k : ActionKind) (p : Payload) : Outcome BattleState :=
  match k, p with
  | START_BATTLE, PStartBattle pd ph pt ps ed eh et es diff =>
      startBattle pd ph pt ps ed eh et es diff
  | DEPLOY_CREATURE, PDeploy creature cost => deployCreature creature cost
  | ENEMY_DEPLOY_CREATURE, PDeploy creature cost => enemyDeployCreature creature cost
  | UPDATE_CREATURE, PUpdateCreature creature isPlayer => updateCreature creature isPlayer
  | ATTACK, PAttack attackResult cost => attack attackResult cost
  | USE_TOOL, PUseTool result tool isPlayerTool isEnemyTool =>
      useTool result tool isPlayerTool isEnemyTool
  | USE_SPELL, PUseSpell spellResult spell cost isEnemySpell =>
      useSpell spellResult spell cost isEnemySpell
  | DEFEND, PDefend updated => defend updated
  | SPEND_ENERGY, PSpendEnergy side amount => spendEnergy side amount
  | DRAW_CARD, PSide side => drawCard side
  | REGENERATE_ENERGY, PRegenerate playerRegen enemyRegen =>
      regenerateEnergy playerRegen enemyRegen
  | APPLY_ENERGY_DECAY, _ => applyEnergyDecayCase
  | SET_ACTIVE_PLAYER, PSide side => setActivePlayerCase side
  | INCREMENT_TURN, _ => incrementTurn
  | SET_GAME_STATE, PGameState g => setGameStateCase g
  | APPLY_ONGOING_EFFECTS, POngoing addLog pf ef => applyOngoingEffects addLog pf ef
  | ADD_LOG, PLog text => addLogCase text
  | EXECUTE_AI_ACTION, PAIAction aiAction => executeAIAction aiAction
  | EXECUTE_AI_ACTION_SEQUENCE, PAISequence actionSequence =>
      executeAIActionSequence actionSequence
  | COMBO_BONUS, PSide side => comboBonus side
  | _, _ => throw Unmodelled
  end.

Definition battleReducer (action : Action) : Outcome BattleState :=
  match kindOf (type action) with
  | Some k => reduceKind k (payload action)
  | None => ret state
  end.

End Reducer.

(** ** The orchestrator's helpers *)

Section Orchestrator.

Variable processAttack : Creature -> Creature -> option string -> AttackResult.
Variable defendCreature : Creature -> option string -> Creature.
Variable applyTool : Creature -> Tool -> string -> option ToolResult.
Variable applySpell : Creature -> Creature -> Spell -> string -> option SpellResult.
Variable env : Env.

Local Notation reducer :=
  (battleReducer processAttack defendCreature applyTool applySpell env).

(** A run of [dispatch] calls, each reduced against the state the
    previous one returned. *)
Fixpoint dispatchAll (s : BattleState) (actions : list Action) : Outcome BattleState :=
  match actions with
  | [] => ret s
  | a :: rest => next <- reducer s a ;; dispatchAll next rest
  end.

(** [addToBattleLog(message)]. *)
Definition addToBattleLog (text : string) : Action := act ADD_LOG (PLog text).

(** [applyEnergyDecay]: the actions it dispatches.  [playerEnergy] and
    [enemyEnergy] are the values its closure holds. *)
Definition applyEnergyDecay (playerEnergy : Z) (enemyEnergy : Num) : list Action :=
  if orb (10 <? playerEnergy) (numLtb (Int 10) enemyEnergy)
  then [act APPLY_ENERGY_DECAY PNone]
  else [].

(** The decay step of an end-turn phase whose closure is up to date. *)
Definition decayStep (s : BattleState) : Outcome BattleState :=
  dispatchAll s (applyEnergyDecay (playerEnergy s) (enemyEnergy s)).

(** [executeSingleAIAction]: the actions it dispatches, in order.
    [enemyEnergy] and [difficulty] are the values its closure holds;
    console output is left out. *)
Definition executeSingleAIAction (enemyEnergy : Num) (difficulty : string)
  (aiAction : AIAction) : list Action :=
  let kind := ai_type aiAction in
  if (kind =? "endTurn")%string then
    [addToBattleLog "Enemy ended their turn."]
  else if (kind =? "deploy")%string then
    match ai_creature aiAction with
    | None => []
    | Some creature =>
        let cost := declaredDeployCost creature (ai_energyCost aiAction) in
        if numLtb enemyEnergy (Int cost) then []
        else [ act ENEMY_DEPLOY_CREATURE (PDeploy creature (Some cost));
               addToBattleLog ("Enemy deployed " ++ species_name creature ++
                               " to the battlefield! (-" ++ showZ cost ++
                               " energy)")%string ]
    end
  else if (kind =? "attack")%string then
    match ai_attacker aiAction, ai_target aiAction with
    | Some attacker, Some target =>
        let attackCost := orNum (ai_energyCost aiAction) ATTACK_ENERGY_COST in
        if numLtb enemyEnergy (Int attackCost) then []
        else
          let attackResult := processAttack attacker target None in
          [ act ATTACK (PAttack attackResult attackCost);
            addToBattleLog ("Enemy: " ++ attackLog attackResult ++ " (-" ++
                            showZ attackCost ++ " energy)")%string ]
    | _, _ => []
    end
  else if (kind =? "defend")%string then
    match ai_creature aiAction with
    | None => []
    | Some creature =>
        let defendCost := orNum (ai_energyCost aiAction) DEFEND_ENERGY_COST in
        if numLtb enemyEnergy (Int defendCost) then []
        else
          let updatedDefender := defendCreature creature (Some difficulty) in
          [ act DEFEND (PDefend updatedDefender);
            addToBattleLog ("Enemy " ++ species_name creature ++
                            " took a defensive stance! (-" ++ showZ defendCost ++
                            " energy)")%string ]
    end
  else if (kind =? "useTool")%string then
    match ai_tool aiAction, ai_target aiAction with
    | Some tool, Some target =>
        match applyTool target tool difficulty with
        | Some (mkToolResult (Some updated)) =>
            [ act USE_TOOL (PUseTool (Some (mkToolResult (Some updated))) tool false true);
              addToBattleLog ("Enemy used " ++ tool_name tool ++ " on " ++
                              species_name target ++ "!")%string ]
        | _ => []
        end
    | _, _ => []
    end
  else if (kind =? "useSpell")%string then
    match ai_spell aiAction, ai_caster aiAction, ai_target aiAction with
    | Some spell, Some caster, Some target =>
        let spellCost := orNum (ai_energyCost aiAction) SPELL_ENERGY_COST in
        if numLtb enemyEnergy (Int spellCost) then []
        else
          match applySpell caster target spell difficulty with
          | Some spellResult =>
              let targetName :=
                if sameId (id target) (id caster) then "themselves"
                else species_name target in
              [ act USE_SPELL (PUseSpell (Some spellResult) spell (Some spellCost) true);
                addToBattleLog ("Enemy " ++ species_name caster ++ " cast " ++
                                spell_name spell ++ " on " ++ targetName ++
                                "! (-" ++ showZ spellCost ++ " energy)")%string ]
          | None => []
          end
    | _, _, _ => []
    end
  else [].

(** What the specification says of a sequence of descriptors: each one
    goes through the player-facing reducer action that
    [executeSingleAIAction] dispatches for it, against the state the
    previous descriptor left. *)
Fixpoint foldPlayerFacing (s : BattleState) (actionSequence : list AIAction)
  : Outcome BattleState :=
  match actionSequence with
  | [] => ret s
  | aiAction :: rest =>
      next <- dispatchAll s (executeSingleAIAction (enemyEnergy s) (difficulty s) aiAction) ;;
      foldPlayerFacing next rest
  end.

(** The same fold through the single-descriptor case [EXECUTE_AI_ACTION]. *)
Fixpoint foldSingleAI (s : BattleState) (actionSequence : list AIAction)
  : Outcome BattleState :=
  match actionSequence with
  | [] => ret s
  | aiAction :: rest =>
      next <- reducer s (act EXECUTE_AI_ACTION (PAIAction aiAction)) ;;
      foldSingleAI next rest
  end.

End Orchestrator.

(** ** Reading a state by side *)

Definition energyOf (side : Side) (s : BattleState) : Num :=
  match side with Player => Int (playerEnergy s) | Enemy => enemyEnergy s end.

Definition fieldOf (side : Side) (s : BattleState) : list Creature :=
  match side with Player => playerField s | Enemy => enemyField s end.

Definition streakOf (side : Side) (s : BattleState) : Z :=
  match side with
  | Player => player (consecutiveActions s)
  | Enemy => enemy (consecutiveActions s)
  end.

Definition otherSide (side : Side) : Side :=
  match side with Player => Enemy | Enemy => Player end.

(** Everything in the state that is neither an energy nor a field. *)
Definition sameRest (s s' : BattleState) : Prop :=
  gameState s' = gameState s /\ turn s' = turn s /\
  activePlayer s' = activePlayer s /\ difficulty s' = difficulty s /\
  playerDeck s' = playerDeck s /\ playerHand s' = playerHand s /\
  playerTools s' = playerTools s /\ playerSpells s' = playerSpells s /\
  enemyDeck s' = enemyDeck s /\ enemyHand s' = enemyHand s /\
  enemyTools s' = enemyTools s /\ enemySpells s' = enemySpells s /\
  battleLog s' = battleLog s /\
  consecutiveActions s' = consecutiveActions s /\
  energyMomentum s' = energyMomentum s.

(** Collaborators used where a statement needs concrete ones: the attack
    changes nothing, the defence raises [isDefending], tools and spells
    hand their target back. *)
Module Sample.

Definition processAttack (attacker defender : Creature) (_ : option string)
  : AttackResult :=
  mkAttackResult attacker defender "attack".

Definition defendCreature (c : Creature) (_ : option string) : Creature :=
  setIsDefending true c.

Definition applyTool (target : Creature) (_ : Tool) (_ : string)
  : option ToolResult :=
  Some (mkToolResult (Some target)).

Definition applySpell (caster target : Creature) (_ : Spell) (_ : string)
  : option SpellResult :=
  Some (mkSpellResult (Some caster) (Some target)).

Definition env : Env := mkEnv 1700000000000 0.

Definition reducer : BattleState -> Action -> Outcome BattleState :=
  battleReducer processAttack defendCreature applyTool applySpell env.

Definition stats (hp : Z) : BattleStats := mkBattleStats hp 10 8 5 [("speed", 7)].

Definition creature (ident : string) (hp : Z) : Creature :=
  mkCreature ident "Bullx" (stats 30) hp (Some []) false.

(** An attack whose attacker falls to its own blow. *)
Definition processAttackRecoil (attacker defender : Creature) (_ : option string)
  : AttackResult :=
  mkAttackResult (setCurrentHealth 0 attacker) defender "recoil".

Definition poison : Effect := mkEffect "Poison" 1 (-5) [("physicalAttack", -2)].


Definition potion : Tool := mkTool "t1" "Potion".

Definition deployOf (c : Creature) (cost : Z) : AIAction :=
  mkAIAction "deploy" (Some c) None None None None None (Some cost).

Definition attackOf (attacker target : Creature) (cost : Z) : AIAction :=
  mkAIAction "attack" None (Some attacker) (Some target) None None None (Some cost).

Definition useToolOf (tool : Tool) (target : Creature) : AIAction :=
  mkAIAction "useTool" None None (Some target) None (Some tool) None None.

(** A deployment whose descriptor carries no [energyCost]. *)
Definition deployWithoutCost (c : Creature) : AIAction :=
  mkAIAction "deploy" (Some c) None None None None None None.

(** The start of a battle in which the enemy holds one creature. *)
Definition startOf (enemyCard : Creature) : Action :=
  act START_BATTLE
      (PStartBattle [] [creature "p1" 30] [] [] [] [enemyCard] None None "easy").

(** A battle under way: one creature on each field, one in each hand. *)
Definition midBattle : BattleState :=
  {| gameState := battle; turn := 3; activePlayer := Enemy;
     difficulty := "easy";
     playerDeck := []; playerHand := [creature "p2" 30];
     playerField := [creature "p1" 30];
     playerEnergy := 15; playerTools := [potion]; playerSpells := [];
     enemyDeck := []; enemyHand := [creature "e2" 30];
     enemyField := [creature "e1" 30];
     enemyEnergy := Int 10; enemyTools := [potion]; enemySpells := [];
     battleLog := [];
     consecutiveActions := mkCounters 0 0;
     energyMomentum := mkCounters 0 0 |}.

(** The enemy's field is full. *)
Definition fullEnemyField : BattleState :=
  setEnemyField midBattle
    [creature "e1" 30; creature "e3" 30; creature "e4" 30; creature "e5" 30].

End Sample.

Definition setFieldOf (side : Side) (s : BattleState) (v : list Creature)
  : BattleState :=
  match side with Player => setPlayerField s v | Enemy => setEnemyField s v end.

(** What one [APPLY_ENERGY_DECAY] leaves of an energy. *)
Definition decayed (e : Z) : Z := Z.max 0 (e - decayOf e).

Definition numDecayed (e : Num) : Num := numMax (Int 0) (numSub e (numDecayOf e)).

(** ** The value of one creature's pass *)

(** The effects a pass keeps: those whose decremented [duration] is still
    positive, in order, [null] entries skipped. *)
Fixpoint survivors (effects : list (option Effect)) : list Effect :=
  match effects with
  | [] => []
  | None :: rest => survivors rest
  | Some e :: rest =>
      if 0 <? duration e - 1
      then setDuration (duration e - 1) e :: survivors rest
      else survivors rest
  end.




(** The creature [processCreature] returns (its console and log output
    aside). *)
Definition processed (label : string) (creature : Creature) : Creature :=
  let updated :=
    match orList (activeEffects creature) with
    | [] => creature
    | effects =>
        let pass := runEffects label effects creature in
        setActiveEffects (Some (map Some (remainingEffects pass))) (passCreature pass)
    end in
  if isDefending updated then setIsDefending false updated else updated.


(** ** Energy bounds and reachable states *)

Definition optNonneg (cost : option Z) : bool :=
  match cost with Some d => 0 <=? d | None => true end.

(** Every cost, amount and regeneration an action carries is at least 0. *)
Definition amountsNonneg (p : Payload) : bool :=
  match p with
  | PDeploy creature cost =>
      andb (optNonneg cost) (0 <=? energyCost (battleStats creature))
  | PAttack _ cost => 0 <=? cost
  | PUseSpell _ _ cost _ => optNonneg cost
  | PSpendEnergy _ amount => 0 <=? amount
  | PRegenerate playerRegen enemyRegen => andb (0 <=? playerRegen) (0 <=? enemyRegen)
  | PAIAction aiAction => optNonneg (ai_energyCost aiAction)
  | PAISequence actionSequence =>
      forallb (fun aiAction => optNonneg (ai_energyCost aiAction)) actionSequence
  | _ => true
  end.

(** [lo <= a <= hi], which no [NaN] satisfies. *)
Definition numWithin (lo hi : Z) (a : Num) : Prop :=
  match a with
  | Int z => lo <= z <= hi
  | NaN => False
  end.

Definition energyBounds (s : BattleState) : Prop :=
  0 <= playerEnergy s <= MAX_ENERGY /\ numWithin 0 MAX_ENERGY (enemyEnergy s).

(** Every descriptor of an AI sequence carries its [energyCost]. *)
Definition costsDeclared (p : Payload) : bool :=
  match p with
  | PAISequence actionSequence =>
      forallb (fun aiAction => match ai_energyCost aiAction with
                               | Some _ => true
                               | None => false
                               end) actionSequence
  | _ => true
  end.

Definition momentumNonneg (s : BattleState) : Prop :=
  0 <= player (energyMomentum s) /\ 0 <= enemy (energyMomentum s).

Definition energyInv (s : BattleState) : Prop := energyBounds s /\ momentumNonneg s.

Section Reachable.

Variable processAttack : Creature -> Creature -> option string -> AttackResult.
Variable defendCreature : Creature -> option string -> Creature.
Variable applyTool : Creature -> Tool -> string -> option ToolResult.
Variable applySpell : Creature -> Creature -> Spell -> string -> option SpellResult.

(** The states the reducer can be in: the state [useReducer] starts from,
    and every state a reducer call returns from a reachable one, for an
    action whose amounts are at least 0, whatever the clock shows. *)
Inductive reachable : BattleState -> Prop :=
| reach_initial : reachable initialState
| reach_step (s : BattleState) (a : Action) (env : Env)
             (s' : BattleState) (ev : list Event) :
    reachable s ->
    amountsNonneg (payload a) = true ->
    battleReducer processAttack defendCreature applyTool applySpell env s a
    = Return s' ev ->
    reachable s'.

(** The same, through actions whose AI sequences carry every
    [energyCost]. *)
Inductive reachableDeclared : BattleState -> Prop :=
| declared_initial : reachableDeclared initialState
| declared_step (s : BattleState) (a : Action) (env : Env)
                (s' : BattleState) (ev : list Event) :
    reachableDeclared s ->
    amountsNonneg (payload a) = true ->
    costsDeclared (payload a) = true ->
    battleReducer processAttack defendCreature applyTool applySpell env s a
    = Return s' ev ->
    reachableDeclared s'.

End Reachable.

(** ** Sound fields *)

(** At most 4 creatures, none with [currentHealth <= 0]. *)
Definition fieldOk (field : list Creature) : Prop :=
  (List.length field <= 4)%nat /\ Forall (fun c => 0 < currentHealth c) field.

Definition fieldsOk (s : BattleState) : Prop :=
  fieldOk (playerField s) /\ fieldOk (enemyField s).

(** The actions of the player-facing kinds whose payload has the shape of
    its kind and brings no defeated creature and no fifth creature to a
    field: a deployed or replacing creature has [currentHealth > 0], a
    deployment goes to a field of fewer than 4, and [APPLY_ONGOING_EFFECTS]
    comes without replacement fields, as the component dispatches it. *)
Definition carried (s : BattleState) (k : ActionKind) (p : Payload) : Prop :=
  match k, p with
  | START_BATTLE, PStartBattle _ _ _ _ _ _ _ _ _ => True
  | DEPLOY_CREATURE, PDeploy creature _ =>
      0 < currentHealth creature /\ (List.length (playerField s) < 4)%nat
  | ENEMY_DEPLOY_CREATURE, PDeploy creature _ =>
      0 < currentHealth creature /\ (List.length (enemyField s) < 4)%nat
  | UPDATE_CREATURE, PUpdateCreature creature _ => 0 < currentHealth creature
  | ATTACK, PAttack _ _ => True
  | USE_TOOL, PUseTool (Some (mkToolResult (Some updated))) _ _ _ =>
      0 < currentHealth updated
  | USE_SPELL, PUseSpell _ _ _ _ => True
  | DEFEND, PDefend updated => 0 < currentHealth updated
  | SPEND_ENERGY, PSpendEnergy _ _ => True
  | DRAW_CARD, PSide _ => True
  | REGENERATE_ENERGY, PRegenerate _ _ => True
  | APPLY_ENERGY_DECAY, _ => True
  | SET_ACTIVE_PLAYER, PSide _ => True
  | INCREMENT_TURN, _ => True
  | SET_GAME_STATE, PGameState _ => True
  | APPLY_ONGOING_EFFECTS, POngoing _ None None => True
  | ADD_LOG, PLog _ => True
  | COMBO_BONUS, PSide _ => True
  | _, _ => False
  end.

Definition handOf (side : Side) (s : BattleState) : list Creature :=
  match side with Player => playerHand s | Enemy => enemyHand s end.

(** The deployment action of each side. *)
Definition deployKind (side : Side) : ActionKind :=
  match side with Player => DEPLOY_CREATURE | Enemy => ENEMY_DEPLOY_CREATURE end.

(** ** The component's handlers

    A handler of [BattleGame] is modelled by the reducer actions it
    dispatches, in order.  [view] is the battle state of the render whose
    closure the handler holds; [difficulty] is the component's own
    [difficulty] state.  Updates of local UI state ([setActionInProgress],
    the selections), timers and console output are left out.  The log
    lines that [useTool] and [useSpell] write from [result.toolEffect] and
    [spellResult.spellEffect], which the results of the model do not
    carry, are those of two functions of the result. *)

(** What the code reads of [getDifficultySettings(difficulty)];
    [enemyEnergyRegen] may be any number, or missing. *)
Record DifficultySettings : Type := mkDifficultySettings {
  enemyDeckSize : Z;
  initialHandSize : Z;
  enemyEnergyRegen : option Q
}.

(** What the code reads of an owned creature (an entry of [creatureNfts]
    or of [generateEnemyCreatures]); its other properties only reach the
    collaborators. *)
Record OwnedCreature : Type := mkOwnedCreature {
  nft_id : string;
  nft_species_name : string;
  form : option Z
}.

Definition calculateCreatureEnergyCost (creature : OwnedCreature) : Z :=
  match form creature with
  | Some f => 5 + f
  | None => 5
  end.

(** [list.slice(start, end)] for integer arguments: a negative index counts
    from the end, and both are clamped to the list. *)
Definition jsIndex (len : nat) (i : Z) : nat :=
  if i <? 0 then Z.to_nat (Z.max 0 (Z.of_nat len + i))
  else Z.to_nat (Z.min i (Z.of_nat len)).

Definition jsSlice {A : Type} (start : Z) (stop : option Z) (l : list A) : list A :=
  let a := jsIndex (List.length l) start in
  let b := match stop with
           | Some e => jsIndex (List.length l) e
           | None => List.length l
           end in
  firstn (b - a) (skipn a l).

(** [name || fallback] on a name that is a string. *)
Definition orText (name fallback : string) : string :=
  match name with
  | EmptyString => fallback
  | _ => name
  end.

(** The [action] that [handlePlayerAction] switches on: its [type], with
    [action.tool] and [action.spell] where the case reads them. *)
Inductive Intent : Type :=
| DeployIntent | AttackIntent
| UseToolIntent (tool : option Tool)
| UseSpellIntent (spell : option Spell)
| DefendIntent | EndTurnIntent
| UnknownIntent.   (* a [type] that none of the six cases names *)

Module Handlers.

Section WithCollaborators.

Variable processAttack : Creature -> Creature -> option string -> AttackResult.
Variable defendCreature : Creature -> option string -> Creature.
Variable applyTool : Creature -> Tool -> string -> option ToolResult.
Variable applySpell : Creature -> Creature -> Spell -> string -> option SpellResult.

(** The log lines [useTool] writes from [result.toolEffect] (its stat
    changes and its healing) and [useSpell] from [spellResult.spellEffect]
    (its damage and its healing), in order; none when the effect is
    missing. *)
Variable toolEffectLines : ToolResult -> list string.
Variable spellEffectLines : SpellResult -> list string.

Variable calculateDerivedStats : OwnedCreature -> BattleStats.
Variable getDifficultySettings : string -> DifficultySettings.
Variable generateEnemyCreatures : string -> Z -> list Creature -> list OwnedCreature.
Variable generateEnemyItems : string -> option (list Tool) * option (list Spell).

(** [creature.stats.energy], [0] where [stats] or [energy] is missing
    (both are falsy and add nothing to the total). *)
Variable energyStat : Creature -> Z.

Definition checkWinCondition (view : BattleState) : bool :=
  andb (Nat.eqb (List.length (enemyField view)) 0)
       (andb (Nat.eqb (List.length (enemyHand view)) 0)
             (Nat.eqb (List.length (enemyDeck view)) 0)).

Definition checkLossCondition (view : BattleState) : bool :=
  andb (Nat.eqb (List.length (playerField view)) 0)
       (andb (Nat.eqb (List.length (playerHand view)) 0)
             (Nat.eqb (List.length (playerDeck view)) 0)).

(** The body of the timeout of the win-condition effect. *)
Definition winCheck (view : BattleState) : list Action :=
  match gameState view with
  | battle =>
      if checkWinCondition view then
        [ act SET_GAME_STATE (PGameState victory);
          addToBattleLog "Victory! You've defeated all enemy creatures!" ]
      else if checkLossCondition view then
        [ act SET_GAME_STATE (PGameState defeat);
          addToBattleLog "Defeat! All your creatures have been defeated!" ]
      else []
  | _ => []
  end.

(** [` Combo x${consecutiveActions.player + 1}!`], or nothing. *)
Definition comboMessage (view : BattleState) : string :=
  if 0 <? player (consecutiveActions view)
  then (" Combo x" ++ showZ (player (consecutiveActions view) + 1) ++ "!")%string
  else EmptyString.

Definition deployCreature (view : BattleState) (creature : option Creature)
  : list Action :=
  match creature with
  | None => []
  | Some c =>
      let maxPlayerFieldSize := 4%nat in
      if Nat.leb maxPlayerFieldSize (List.length (playerField view)) then
        [addToBattleLog "Your battlefield is full! Cannot deploy more creatures."]
      else
        let cost := orNum (Some (energyCost (battleStats c))) 3 in
        if playerEnergy view <? cost then
          [addToBattleLog ("Not enough energy to deploy " ++ species_name c ++
                           ". Needs " ++ showZ cost ++ " energy.")%string]
        else
          [ act DEPLOY_CREATURE (PDeploy c (Some cost));
            addToBattleLog ("You deployed " ++ species_name c ++
                            " to the battlefield! (-" ++ showZ cost ++ " energy)" ++
                            comboMessage view)%string ]
  end.

Definition attackCreature (view : BattleState) (attacker defender : option Creature)
  : list Action :=
  match attacker, defender with
  | Some a, Some d =>
      let isPlayerAttacker := hasId (playerField view) (id a) in
      if andb isPlayerAttacker (playerEnergy view <? ATTACK_ENERGY_COST) then
        [addToBattleLog ("Not enough energy to attack. Needs " ++
                         showZ ATTACK_ENERGY_COST ++ " energy.")%string]
      else
        let attackType :=
          if magicalAttack (battleStats a) <? physicalAttack (battleStats a)
          then "physical" else "magical" in
        let attackResult := processAttack a d (Some attackType) in
        let combo := if isPlayerAttacker then comboMessage view else EmptyString in
        let energyMessage :=
          if isPlayerAttacker
          then (" (-" ++ showZ ATTACK_ENERGY_COST ++ " energy)")%string
          else EmptyString in
        [ act ATTACK (PAttack attackResult ATTACK_ENERGY_COST);
          addToBattleLog (attackLog attackResult ++ energyMessage ++ combo)%string ]
  | _, _ => [addToBattleLog "Invalid attack - missing attacker or defender"]
  end.

Definition defendCreatureAction (view : BattleState) (difficulty : string)
  (creature : option Creature) : list Action :=
  match creature with
  | None => [addToBattleLog "Invalid defend action - no creature selected"]
  | Some c =>
      let isPlayerCreature := hasId (playerField view) (id c) in
      if andb isPlayerCreature (playerEnergy view <? DEFEND_ENERGY_COST) then
        [addToBattleLog ("Not enough energy to defend. Needs " ++
                         showZ DEFEND_ENERGY_COST ++ " energy.")%string]
      else
        let updated := defendCreature c (Some difficulty) in
        let energyCost :=
          if isPlayerCreature
          then (" (-" ++ showZ DEFEND_ENERGY_COST ++ " energy)")%string
          else EmptyString in
        [ act DEFEND (PDefend updated);
          addToBattleLog ((if isPlayerCreature then EmptyString else "Enemy ") ++
                          species_name c ++ " took a defensive stance!" ++
                          energyCost)%string ]
  end.

(** [useTool]: the actions it dispatches.  Like all console output of
    the handlers, its two [console.log] calls ("Using tool:", "Target
    creature:") are left out. *)
Definition useTool (view : BattleState) (difficulty : string)
  (tool : option Tool) (targetCreature : option Creature) (isPlayerTool : bool)
  : list Action :=
  match tool, targetCreature with
  | Some tool, Some target =>
      match applyTool target tool difficulty with
      | Some (mkToolResult (Some updated)) =>
          let result := mkToolResult (Some updated) in
          let isPlayerTarget := hasId (playerField view) (id target) in
          let targetDescription :=
            if isPlayerTarget then species_name target
            else ("enemy " ++ species_name target)%string in
          [ act USE_TOOL (PUseTool (Some result) tool isPlayerTool (negb isPlayerTool));
            addToBattleLog (orText (tool_name tool) "Tool" ++ " was used on " ++
                            targetDescription ++ ".")%string ]
          ++ map addToBattleLog (toolEffectLines result)
      | _ =>
          [addToBattleLog ("Failed to use " ++ orText (tool_name tool) "tool" ++
                           ".")%string]
      end
  | _, _ => [addToBattleLog "Invalid tool use - missing tool or target"]
  end.

(** [useSpell]: the actions it dispatches. *)
Definition useSpell (view : BattleState) (difficulty : string)
  (spell : option Spell) (caster target : option Creature) (isPlayerSpell : bool)
  : list Action :=
  match spell, caster with
  | Some spell, Some caster =>
      let energyCost := SPELL_ENERGY_COST in
      if andb isPlayerSpell (playerEnergy view <? energyCost) then
        [addToBattleLog ("Not enough energy to cast " ++ spell_name spell ++
                         ". Needs " ++ showZ energyCost ++ " energy.")%string]
      else
        let effectiveTarget := match target with Some t => t | None => caster end in
        match applySpell caster effectiveTarget spell difficulty with
        | None =>
            [addToBattleLog ("Failed to cast " ++ spell_name spell ++ ".")%string]
        | Some spellResult =>
            let targetText :=
              match target with
              | Some t =>
                  if negb (sameId (id t) (id caster)) then
                    ("on " ++ (if hasId (playerField view) (id t)
                               then EmptyString else "enemy ") ++
                     species_name t)%string
                  else "on self"
              | None => "on self"
              end in
            [ act USE_SPELL (PUseSpell (Some spellResult) spell (Some energyCost)
                                       (negb isPlayerSpell));
              addToBattleLog (species_name caster ++ " cast " ++ spell_name spell ++
                              " " ++ targetText ++ ". (-" ++ showZ energyCost ++
                              " energy)")%string ]
            ++ map addToBattleLog (spellEffectLines spellResult)
        end
  | _, _ => [addToBattleLog "Invalid spell cast - missing spell or caster"]
  end.

(** The total of [creature.stats.energy] over a field. *)
Definition totalEnergy (field : list Creature) : Z :=
  fold_left (fun total creature => total + energyStat creature) field 0.

(** [Math.floor(difficultySettings.enemyEnergyRegen || 0) - 2]. *)
Definition enemyDifficultyBonus (settings : DifficultySettings) : Z :=
  match enemyEnergyRegen settings with
  | Some q => Qfloor q - 2
  | None => 0 - 2
  end.

Definition playerRegenOf (view : BattleState) : Z :=
  BASE_ENERGY_REGEN + totalEnergy (playerField view) / 50.

Definition enemyRegenOf (view : BattleState) (difficulty : string) : Z :=
  BASE_ENERGY_REGEN + totalEnergy (enemyField view) / 50
  + enemyDifficultyBonus (getDifficultySettings difficulty).

Definition regenerateEnergy (view : BattleState) (difficulty : string) : list Action :=
  let playerRegen := playerRegenOf view in
  let enemyRegen := enemyRegenOf view difficulty in
  [ act REGENERATE_ENERGY (PRegenerate playerRegen enemyRegen);
    match activePlayer view with
    | Player =>
        addToBattleLog ("You gained +" ++ showZ playerRegen ++ " energy. (" ++
                        showZ (totalEnergy (playerField view)) ++
                        " total creature energy)")%string
    | Enemy =>
        addToBattleLog ("Enemy gained +" ++ showZ enemyRegen ++ " energy.")%string
    end ].

Definition applyOngoing : Action :=
  act APPLY_ONGOING_EFFECTS (POngoing true None None).

Definition drawForPlayer (view : BattleState) : list Action :=
  let maxHandSize := 5%nat in
  match playerDeck view with
  | top :: _ =>
      if Nat.ltb (List.length (playerHand view)) maxHandSize then
        [ act DRAW_CARD (PSide Player);
          addToBattleLog ("You drew " ++ species_name top ++ ".")%string ]
      else []
  | [] => []
  end.

Definition drawForEnemy (view : BattleState) (difficulty : string) : list Action :=
  if andb (Z.of_nat (List.length (enemyHand view))
           <? initialHandSize (getDifficultySettings difficulty) + 1)
          (Nat.ltb 0 (List.length (enemyDeck view)))
  then [ act DRAW_CARD (PSide Enemy); addToBattleLog "Enemy drew a card." ]
  else [].

Definition finishEnemyTurn (view : BattleState) (difficulty : string) : list Action :=
  [applyOngoing]
  ++ applyEnergyDecay (playerEnergy view) (enemyEnergy view)
  ++ [ act INCREMENT_TURN PNone; act SET_ACTIVE_PLAYER (PSide Player) ]
  ++ drawForPlayer view
  ++ drawForEnemy view difficulty
  ++ regenerateEnergy view difficulty
  ++ (if 3 <=? enemy (consecutiveActions view)
      then [ act COMBO_BONUS (PSide Enemy);
             addToBattleLog "Enemy achieved a combo bonus!" ]
      else [])
  ++ [addToBattleLog ("Turn " ++ showZ (turn view + 1) ++ " - Your turn.")%string].

(** The ['endTurn'] case of [handlePlayerAction], up to its timeout. *)
Definition endTurn (view : BattleState) : list Action :=
  (if 3 <=? player (consecutiveActions view)
   then [ act COMBO_BONUS (PSide Player);
          addToBattleLog "You achieved a combo bonus! All creatures gain +2 attack!" ]
   else [])
  ++ [applyOngoing]
  ++ applyEnergyDecay (playerEnergy view) (enemyEnergy view)
  ++ [ act SET_ACTIVE_PLAYER (PSide Enemy);
       addToBattleLog ("Turn " ++ showZ (turn view) ++ " - Enemy's turn.")%string ].

Definition mayAct (actionInProgress : bool) (view : BattleState) : bool :=
  andb (negb actionInProgress)
       (andb (match activePlayer view with Player => true | Enemy => false end)
             (match gameState view with battle => true | _ => false end)).

Definition handlePlayerAction (actionInProgress : bool) (view : BattleState)
  (difficulty : string) (intent : Intent)
  (targetCreature sourceCreature : option Creature) : list Action :=
  if negb (mayAct actionInProgress view) then []
  else
    match intent with
    | DeployIntent => deployCreature view sourceCreature
    | AttackIntent =>
        if playerEnergy view <? ATTACK_ENERGY_COST then
          [addToBattleLog ("Not enough energy to attack. Needs " ++
                           showZ ATTACK_ENERGY_COST ++ " energy.")%string]
        else attackCreature view sourceCreature targetCreature
    | UseToolIntent tool => useTool view difficulty tool sourceCreature true
    | UseSpellIntent spell =>
        useSpell view difficulty spell sourceCreature targetCreature true
    | DefendIntent =>
        if playerEnergy view <? DEFEND_ENERGY_COST then
          [addToBattleLog ("Not enough energy to defend. Needs " ++
                           showZ DEFEND_ENERGY_COST ++ " energy.")%string]
        else defendCreatureAction view difficulty sourceCreature
    | EndTurnIntent => endTurn view
    | UnknownIntent => [addToBattleLog "Invalid action"]
    end.

Definition getAvailableActions (view : BattleState)
  (selectedCreature targetCreature : option Creature) : list string :=
  match selectedCreature with
  | None => []
  | Some selected =>
      (if hasId (playerHand view) (id selected) then ["deploy"] else [])
      ++ (if hasId (playerField view) (id selected) then
            (if andb (match targetCreature with
                      | Some target => hasId (enemyField view) (id target)
                      | None => false
                      end)
                     (ATTACK_ENERGY_COST <=? playerEnergy view)
             then ["attack"] else [])
            ++ (if Nat.ltb 0 (List.length (playerTools view)) then ["useTool"] else [])
            ++ (if andb (Nat.ltb 0 (List.length (playerSpells view)))
                        (SPELL_ENERGY_COST <=? playerEnergy view)
                then ["useSpell"] else [])
            ++ (if DEFEND_ENERGY_COST <=? playerEnergy view then ["defend"] else [])
          else [])
      ++ ["endTurn"]
  end.

(** The battle instance [initializeBattle] makes of an owned creature. *)
Definition toBattleCreature (creature : OwnedCreature) : Creature :=
  let derivedStats := calculateDerivedStats creature in
  {| id := nft_id creature;
     species_name := nft_species_name creature;
     battleStats :=
       mkBattleStats (maxHealth derivedStats) (physicalAttack derivedStats)
                     (magicalAttack derivedStats)
                     (calculateCreatureEnergyCost creature)
                     (otherStats derivedStats);
     currentHealth := maxHealth derivedStats;
     activeEffects := Some [];
     isDefending := false |}.

Definition initializeBattle (creatureNfts : option (list OwnedCreature))
  (toolNfts : option (list Tool)) (spellNfts : option (list Spell))
  (difficulty : string) : list Action :=
  match creatureNfts with
  | None | Some [] => []
  | Some nfts =>
      let battleCreatures := map toBattleCreature nfts in
      let diffSettings := getDifficultySettings difficulty in
      let enemyCreatures :=
        generateEnemyCreatures difficulty (enemyDeckSize diffSettings) battleCreatures in
      let enemyWithStats := map toBattleCreature enemyCreatures in
      let playerInitialHandSize := Z.min 3 (Z.of_nat (List.length battleCreatures)) in
      let playerInitialHand := jsSlice 0 (Some playerInitialHandSize) battleCreatures in
      let remainingDeck := jsSlice playerInitialHandSize None battleCreatures in
      let enemyInitialHandSize := initialHandSize diffSettings in
      let enemyInitialHand := jsSlice 0 (Some enemyInitialHandSize) enemyWithStats in
      let remainingEnemyDeck := jsSlice enemyInitialHandSize None enemyWithStats in
      let enemyItems := generateEnemyItems difficulty in
      let enemyTools := orList (fst enemyItems) in
      let enemySpells := orList (snd enemyItems) in
      [ act START_BATTLE
            (PStartBattle remainingDeck playerInitialHand
                          (orList toolNfts) (orList spellNfts)
                          remainingEnemyDeck enemyInitialHand
                          (Some enemyTools) (Some enemySpells) difficulty);
        addToBattleLog ("Your turn. The enemy has " ++
                        showZ (Z.of_nat (List.length enemyTools + List.length enemySpells)) ++
                        " special items!")%string ]
  end.

End WithCollaborators.

End Handlers.

Definition deckOf (side : Side) (s : BattleState) : list Creature :=
  match side with Player => playerDeck s | Enemy => enemyDeck s end.

(** The action is not an [APPLY_ONGOING_EFFECTS] that brings fields of its
    own ([updatedPlayerField], [updatedEnemyField]). *)
Definition noOverride (p : Payload) : Prop :=
  match p with
  | POngoing _ None None => True
  | POngoing _ _ _ => False
  | _ => True
  end.

(** The player-facing actions as the component writes them: the payload
    has the shape of its kind, and a [USE_TOOL] carries a result with its
    [updatedCreature]. *)
Definition playerFacing (k : ActionKind) (p : Payload) : Prop :=
  match k, p with
  | START_BATTLE, PStartBattle _ _ _ _ _ _ _ _ _ => True
  | DEPLOY_CREATURE, PDeploy _ _ => True
  | ENEMY_DEPLOY_CREATURE, PDeploy _ _ => True
  | UPDATE_CREATURE, PUpdateCreature _ _ => True
  | ATTACK, PAttack _ _ => True
  | USE_TOOL, PUseTool (Some (mkToolResult (Some _))) _ _ _ => True
  | USE_SPELL, PUseSpell _ _ _ _ => True
  | DEFEND, PDefend _ => True
  | SPEND_ENERGY, PSpendEnergy _ _ => True
  | DRAW_CARD, PSide _ => True
  | REGENERATE_ENERGY, PRegenerate _ _ => True
  | APPLY_ENERGY_DECAY, _ => True
  | SET_ACTIVE_PLAYER, PSide _ => True
  | INCREMENT_TURN, _ => True
  | SET_GAME_STATE, PGameState _ => True
  | APPLY_ONGOING_EFFECTS, POngoing _ _ _ => True
  | ADD_LOG, PLog _ => True
  | COMBO_BONUS, PSide _ => True
  | _, _ => False
  end.

Definition wellFormed (a : Action) : Prop :=
  exists k p, a = act k p /\ playerFacing k p.

(** The actions that touch neither a field, nor the streaks, nor the turn,
    nor the active player, in a state whose streaks are 0. *)
Definition quiet (a : Action) : Prop :=
  (exists side, a = act DRAW_CARD (PSide side))
  \/ (exists text, a = addToBattleLog text)
  \/ (exists playerRegen enemyRegen,
         a = act REGENERATE_ENERGY (PRegenerate playerRegen enemyRegen))
  \/ (exists side, a = act COMBO_BONUS (PSide side)).

(** Collaborators and data of a small battle, for the handlers. *)
Module SampleBattle.

Definition energyStat (c : Creature) : Z := 60.

Definition getDifficultySettings (difficulty : string) : DifficultySettings :=
  mkDifficultySettings 2 1 (Some (5 # 2)).

Definition calculateDerivedStats (owned : OwnedCreature) : BattleStats :=
  Sample.stats 30.

Definition generateEnemyCreatures (difficulty : string) (size : Z)
  (roster : list Creature) : list OwnedCreature :=
  [mkOwnedCreature "e1" "Bullx" (Some 1); mkOwnedCreature "e2" "Bullx" None].

Definition generateEnemyItems (difficulty : string)
  : option (list Tool) * option (list Spell) :=
  (Some [Sample.potion], None).

Definition spellEffectLines (result : SpellResult) : list string :=
  ["The spell dealt 5 damage!"].

Definition bolt : Spell := mkSpell "s1" "Bolt".

Definition roster : list OwnedCreature :=
  [ mkOwnedCreature "p1" "Bullx" (Some 0); mkOwnedCreature "p2" "Bullx" (Some 1);
    mkOwnedCreature "p3" "Bullx" (Some 2); mkOwnedCreature "p4" "Bullx" (Some 3) ].

(** The player's turn, with a spell in hand and a streak under way. *)
Definition playerTurn : BattleState :=
  setEnergyMomentum
    (setPlayerSpells (setActivePlayer Sample.midBattle Player) [bolt])
    (mkCounters 25 0).

(** An effect that lasts two passes. *)
Definition venom : Effect := setDuration 2 Sample.poison.

Definition envenomed : Creature :=
  setActiveEffects (Some [Some venom]) (Sample.creature "p1" 30).



End SampleBattle.

(** ** Dispatch on [action.type] *)

Lemma kindOf_typeName (k : ActionKind) : kindOf (typeName k) = Some k.
Proof. destruct k; reflexivity. Qed.

Lemma lookupKind_none (table : list (ActionKind * string)) (t : string) :
  ~ In t (map snd table) -> lookupKind table t = None.
Proof.
  induction table as [| [k label] rest IH]; intros Hnot; simpl.
  - reflexivity.
  - destruct (String.eqb_spec t label) as [Heq | Hneq].
    + exfalso. apply Hnot. left. simpl. congruence.
    + apply IH. intros Hin. apply Hnot. right. exact Hin.
Qed.

Lemma lookupKind_some (table : list (ActionKind * string)) (t : string) (k : ActionKind) :
  lookupKind table t = Some k -> In t (map snd table).
Proof.
  induction table as [| [k' label] rest IH]; simpl; intros H.
  - discriminate.
  - destruct (String.eqb_spec t label) as [Heq | Hneq].
    + left. congruence.
    + right. apply IH. exact H.
Qed.

(** ** Tactics for the case analyses *)

Ltac state_simpl :=
  cbn [gameState turn activePlayer difficulty playerDeck playerHand playerField
       playerEnergy playerTools playerSpells enemyDeck enemyHand enemyField
       enemyEnergy enemyTools enemySpells battleLog consecutiveActions
       energyMomentum setGameState setTurn setActivePlayer setDifficulty
       setPlayerDeck setPlayerHand setPlayerField setPlayerEnergy setPlayerTools
       setPlayerSpells setEnemyDeck setEnemyHand setEnemyField setEnemyEnergy
       setEnemyTools setEnemySpells setBattleLog setConsecutiveActions
       setEnergyMomentum player enemy incPlayer incEnemy setPlayer setEnemy] in *.

Ltac monad_simpl H := cbn [bind emit ret throw app] in H.

(** Case analysis on every test left in the equation [H : ... = Return _ _]. *)
Ltac split_tests H :=
  repeat match type of H with
         | context [if ?b then _ else _] => destruct b eqn:?
         | context [match ?x with _ => _ end] => destruct x eqn:?
         end.

Ltac bool_facts :=
  repeat match goal with
         | H : (_ <? _) = true |- _ => apply Z.ltb_lt in H
         | H : (_ <? _) = false |- _ => apply Z.ltb_ge in H
         | H : (_ <=? _) = true |- _ => apply Z.leb_le in H
         | H : (_ <=? _) = false |- _ => apply Z.leb_gt in H
         | H : andb _ _ = true |- _ => apply andb_prop in H; destruct H
         end.

Ltac num_simpl :=
  cbn [numLtb numLeb numMax numMin numSub numAdd numBinary numDecayOf toNumber
       numWithin] in *.

(** An enemy energy within bounds is an integer. *)
Ltac enemy_int He :=
  unfold numWithin in He;
  match type of He with
  | context [enemyEnergy ?s] =>
      destruct (enemyEnergy s) as [?e |] eqn:?Henergy; [| contradiction]
  end.

Ltac energy_done H :=
  monad_simpl H;
  try match goal with
      | Hn : enemyEnergy _ = Int _ |- _ => rewrite ?Hn in H
      end;
  num_simpl; split_tests H; try discriminate H;
  inversion H; subst; clear H;
  unfold energyInv, energyBounds, momentumNonneg, MAX_ENERGY,
         DEFEND_ENERGY_COST, SPELL_ENERGY_COST in *;
  state_simpl;
  try match goal with
      | Hn : enemyEnergy _ = Int _ |- _ => rewrite ?Hn
      end;
  num_simpl; unfold decayOf in *; bool_facts;
  repeat match goal with
         | |- context [?x / 10] =>
             lazymatch goal with
             | _ : 0 <= x / 10 |- _ => fail
             | _ => assert (0 <= x / 10) by (apply Z.div_pos; lia)
             end
         end;
  lia.

Section ReducerFacts.

Variable processAttack : Creature -> Creature -> option string -> AttackResult.
Variable defendCreature : Creature -> option string -> Creature.
Variable applyTool : Creature -> Tool -> string -> option ToolResult.
Variable applySpell : Creature -> Creature -> Spell -> string -> option SpellResult.
Variable env : Env.

Local Notation reducer :=
  (battleReducer processAttack defendCreature applyTool applySpell env).

Lemma reducer_act (s : BattleState) (k : ActionKind) (p : Payload) :
  reducer s (act k p)
  = reduceKind processAttack defendCreature applyTool applySpell env s k p.
Proof. unfold battleReducer, act; simpl type. now rewrite kindOf_typeName. Qed.

(** C10. An action whose [type] is none of the strings of [ACTIONS]
    falls to the [default] label: the reducer returns the very state it
    was given, writes nothing to the console and raises nothing. *)
Theorem unknown_action_returns_state (s : BattleState) (a : Action) :
  ~ In (type a) (map snd ACTIONS) ->
  reducer s a = Return s [].
Proof.
  intros Hnot. unfold battleReducer, kindOf.
  now rewrite (lookupKind_none ACTIONS (type a) Hnot).
Qed.

(** C9. [SPEND_ENERGY] sets the energy of the side it names to
    [max 0 (energy - amount)], which is [0] as soon as the amount reaches
    the energy and never negative, and changes nothing else.  (An enemy
    energy that is [NaN] stays [NaN], which is not negative either.) *)
Theorem spend_energy_floors_at_zero (s : BattleState) (side : Side) (amount : Z) :
  exists s',
    reducer s (act SPEND_ENERGY (PSpendEnergy side amount)) = Return s' []
    /\ energyOf side s' = numMax (Int 0) (numSub (energyOf side s) (Int amount))
    /\ energyOf side s'
       = (if numLeb (energyOf side s) (Int amount) then Int 0
          else numSub (energyOf side s) (Int amount))
    /\ numLtb (energyOf side s') (Int 0) = false
    /\ (forall e, energyOf side s = Int e ->
        energyOf side s' = Int (Z.max 0 (e - amount))
        /\ 0 <= Z.max 0 (e - amount)
        /\ (e <= amount -> energyOf side s' = Int 0))
    /\ energyOf (otherSide side) s' = energyOf (otherSide side) s
    /\ playerField s' = playerField s /\ enemyField s' = enemyField s
    /\ sameRest s s'.
Proof.
  rewrite reducer_act. cbn [reduceKind]. unfold spendEnergy.
  destruct side; cbn [bind ret energyOf otherSide];
    (eexists; split; [reflexivity |]); state_simpl;
    [| destruct (enemyEnergy s) as [e |]];
    cbn [numMax numSub numBinary numLeb numLtb];
    repeat split; try reflexivity;
    try match goal with
        | H : _ = Int _ |- _ => try discriminate H; inversion H; subst; clear H
        end;
    intros;
    try (destruct (Z.leb_spec (playerEnergy s) amount); f_equal; lia);
    try (destruct (Z.leb_spec e amount); f_equal; lia);
    try (apply Z.ltb_ge; lia);
    try (f_equal; lia).
Qed.


(** *** Combo bonus and streak reset *)

(** C7. [COMBO_BONUS] for a side whose streak is at least 3 replaces every
    creature on that side's field by its [comboBoost], which adds 2 to
    [physicalAttack] and 2 to [magicalAttack] and changes nothing else; with
    a streak below 3 the state comes back as it was.  [SET_ACTIVE_PLAYER]
    sets both streak counters to 0. *)
Theorem combo_bonus_and_streak_reset (s : BattleState) (side next : Side) :
  reducer s (act COMBO_BONUS (PSide side))
  = Return (if 3 <=? streakOf side s
            then setFieldOf side s (map comboBoost (fieldOf side s))
            else s) []
  /\ fieldOf side (setFieldOf side s (map comboBoost (fieldOf side s)))
     = map comboBoost (fieldOf side s)
  /\ fieldOf (otherSide side) (setFieldOf side s (map comboBoost (fieldOf side s)))
     = fieldOf (otherSide side) s
  /\ (forall c : Creature,
        physicalAttack (battleStats (comboBoost c)) = physicalAttack (battleStats c) + 2
        /\ magicalAttack (battleStats (comboBoost c)) = magicalAttack (battleStats c) + 2
        /\ maxHealth (battleStats (comboBoost c)) = maxHealth (battleStats c)
        /\ energyCost (battleStats (comboBoost c)) = energyCost (battleStats c)
        /\ otherStats (battleStats (comboBoost c)) = otherStats (battleStats c)
        /\ id (comboBoost c) = id c
        /\ species_name (comboBoost c) = species_name c
        /\ currentHealth (comboBoost c) = currentHealth c
        /\ activeEffects (comboBoost c) = activeEffects c
        /\ isDefending (comboBoost c) = isDefending c)
  /\ exists s',
       reducer s (act SET_ACTIVE_PLAYER (PSide next)) = Return s' []
       /\ activePlayer s' = next
       /\ streakOf Player s' = 0 /\ streakOf Enemy s' = 0.
Proof.
  split; [| split; [| split; [| split]]].
  - rewrite reducer_act. simpl. unfold comboBonus.
    destruct side; simpl; destruct (3 <=? _); reflexivity.
  - destruct side; reflexivity.
  - destruct side; reflexivity.
  - intros c. repeat split.
  - rewrite reducer_act. simpl. eexists. split; [reflexivity |]. repeat split.
Qed.

(** *** Energy decay *)

(** C5 (as the code has it).  [applyEnergyDecay] dispatches
    [APPLY_ENERGY_DECAY] when the player's or the enemy's energy exceeds 10,
    and the action takes [floor (energy / 10)] from both sides, floored at 0.
    So 20 becomes 18, an energy between 0 and 9 stays as it is because its
    decay is 0, and 10 becomes 9 whenever the action is dispatched.  (The
    enemy's energy decays like the player's; [NaN] exceeds nothing and
    stays [NaN].) *)
Theorem decay_step_hits_both_sides (s : BattleState) :
  decayStep processAttack defendCreature applyTool applySpell env s
  = Return (if orb (10 <? playerEnergy s) (numLtb (Int 10) (enemyEnergy s))
            then setEnemyEnergy (setPlayerEnergy s (decayed (playerEnergy s)))
                                (numDecayed (enemyEnergy s))
            else s) []
  /\ (forall e, numDecayed (Int e) = Int (decayed e))
  /\ (forall e, numLtb (Int 10) (Int e) = (10 <? e))
  /\ decayed 20 = 18
  /\ decayed 10 = 9
  /\ forall e, 0 <= e <= 9 -> decayed e = e.
Proof.
  split; [| split; [| split; [| split; [| split]]]]; try reflexivity.
  - unfold decayStep, applyEnergyDecay.
    destruct (orb (10 <? playerEnergy s) (numLtb (Int 10) (enemyEnergy s)));
      [| reflexivity].
    cbn [dispatchAll]. rewrite reducer_act. reflexivity.
  - intros e He. unfold decayed, decayOf.
    rewrite (Z.div_small e 10) by lia. lia.
Qed.

(** *** Deployment *)

(** C4 (as the code has it).  A side deploys a creature whose [id] is
    carried by exactly one creature of its hand (and, for the enemy, by
    none of its field).  The reducer charges the declared cost when that is
    not 0; a declared 0 is falsy, like a missing cost, and gives way to the
    creature's own [energyCost], or to 3 when that is 0 too.  With an
    energy of at least the cost charged, the hand loses that one creature,
    the field gains the deployed creature at its end, the energy drops by
    the cost charged, and the other side's hand, field and energy stay;
    with less, the reducer returns the state it was given.  (An enemy
    energy that is [NaN] is not below any cost: the deployment goes through
    and the energy stays [NaN].) *)
Theorem deploy_moves_one_creature (s : BattleState) (side : Side)
  (creature : Creature) (declared : option Z) :
  List.length (filter (fun c => sameId (id c) (id creature)) (handOf side s)) = 1%nat ->
  (side = Enemy -> hasId (enemyField s) (id creature) = false) ->
  let charged := declaredDeployCost creature declared in
  (forall d, declared = Some d -> d <> 0 -> charged = d)
  /\ (declared = Some 0 \/ declared = None ->
      charged = orNum (Some (energyCost (battleStats creature))) 3)
  /\ if numLtb (energyOf side s) (Int charged)
     then exists ev,
         reducer s (act (deployKind side) (PDeploy creature declared)) = Return s ev
     else exists s' ev,
         reducer s (act (deployKind side) (PDeploy creature declared)) = Return s' ev
         /\ handOf side s' = withoutId (id creature) (handOf side s)
         /\ (List.length (handOf side s') + 1)%nat = List.length (handOf side s)
         /\ fieldOf side s' = fieldOf side s ++ [creature]
         /\ List.length (fieldOf side s') = (List.length (fieldOf side s) + 1)%nat
         /\ energyOf side s' = numSub (energyOf side s) (Int charged)
         /\ handOf (otherSide side) s' = handOf (otherSide side) s
         /\ fieldOf (otherSide side) s' = fieldOf (otherSide side) s
         /\ energyOf (otherSide side) s' = energyOf (otherSide side) s.
Proof.
  intros Hhand Hfresh charged.
  split; [| split].
  { intros d -> Hd. unfold charged, declaredDeployCost, orNum.
    destruct (Z.eqb_spec d 0); [contradiction |].
    destruct (Z.eqb_spec d 0); [contradiction | reflexivity]. }
  { intros [-> | ->]; reflexivity. }
  rewrite reducer_act.
  pose proof (filter_length (fun c => sameId (id c) (id creature)) (handOf side s)) as Hlen.
  rewrite Hhand in Hlen.
  destruct side; cbn [deployKind reduceKind energyOf handOf fieldOf otherSide] in *;
    unfold deployCreature, enemyDeployCreature; fold charged;
    try rewrite (Hfresh eq_refl); cbn [bind emit ret app].
  - cbn [numLtb].
    destruct (Z.ltb_spec (playerEnergy s) charged) as [Hlow | Hok].
    + eexists. reflexivity.
    + eexists. eexists. split; [reflexivity |]. state_simpl.
      repeat split; try reflexivity.
      * unfold withoutId. lia.
      * rewrite length_app. reflexivity.
      * cbn [numSub numBinary]. f_equal. lia.
  - destruct (enemyEnergy s) as [e |] eqn:Henergy; cbn [numLtb].
    + destruct (Z.ltb_spec e charged) as [Hlow | Hok].
      * eexists. reflexivity.
      * eexists. eexists. split; [reflexivity |]. state_simpl.
        repeat split; try reflexivity.
        -- unfold withoutId. lia.
        -- rewrite length_app. reflexivity.
        -- rewrite ?Henergy. cbn [numSub numMax numBinary]. f_equal. lia.
    + eexists. eexists. split; [reflexivity |]. state_simpl.
      repeat split; try reflexivity.
      * unfold withoutId. lia.
      * rewrite length_app. reflexivity.
Qed.

(** *** Tool results *)

(** [USE_TOOL] with a missing result, or a result without [updatedCreature]:
    the [some] callback reads [action.result.updatedCreature.id] once per
    creature of the player's field, before the result is tested. *)
Lemma use_tool_malformed (s : BattleState) (result : option ToolResult)
  (tool : Tool) (isPlayerTool isEnemyTool : bool) :
  result = None \/ result = Some (mkToolResult None) ->
  reducer s (act USE_TOOL (PUseTool result tool isPlayerTool isEnemyTool))
  = match playerField s with
    | [] => Return s [ConsoleError "Invalid tool result:"]
    | _ :: _ => Raise TypeError []
    end.
Proof.
  intros Hbad. rewrite reducer_act. simpl. unfold useTool.
  destruct (playerField s) as [| c rest]; destruct Hbad as [-> | ->]; reflexivity.
Qed.

(** *** The monad *)

Lemma bind_Return {A B : Type} (m : Outcome A) (f : A -> Outcome B)
  (b : B) (ev : list Event) :
  bind m f = Return b ev ->
  exists a e1 e2, m = Return a e1 /\ f a = Return b e2 /\ ev = e1 ++ e2.
Proof.
  unfold bind. destruct m as [a e1 | fault e1]; [| discriminate].
  destruct (f a) as [b' e2 | fault e2] eqn:Hf; [| discriminate].
  intros H. inversion H; subst. now exists a, e1, e2.
Qed.

Lemma bind_of_Return {A B : Type} (a : A) (e1 : list Event) (f : A -> Outcome B)
  (b : B) (e2 : list Event) :
  f a = Return b e2 -> bind (Return a e1) f = Return b (e1 ++ e2).
Proof. intros H. unfold bind. now rewrite H. Qed.

(** *** Ongoing effects *)





Lemma applyEffect_remaining (label : string) (acc : EffectPass) (entry : option Effect) :
  remainingEffects (applyEffect label acc entry)
  = remainingEffects acc ++ survivors [entry].
Proof.
  destruct entry as [e |]; simpl.
  - destruct (0 <? duration e - 1); simpl; [reflexivity | now rewrite app_nil_r].
  - now rewrite app_nil_r.
Qed.

Lemma survivors_app (a b : list (option Effect)) :
  survivors (a ++ b) = survivors a ++ survivors b.
Proof.
  induction a as [| [e |] rest IH]; simpl; [reflexivity | | exact IH].
  destruct (0 <? duration e - 1); simpl; now rewrite IH.
Qed.

Lemma fold_remaining (label : string) (effects : list (option Effect)) (acc : EffectPass) :
  remainingEffects (fold_left (applyEffect label) effects acc)
  = remainingEffects acc ++ survivors effects.
Proof.
  revert acc. induction effects as [| entry rest IH]; intros acc.
  - simpl. now rewrite app_nil_r.
  - cbn [fold_left]. rewrite IH, applyEffect_remaining.
    rewrite <- app_assoc. f_equal.
    change (entry :: rest) with ([entry] ++ rest). now rewrite survivors_app.
Qed.




Lemma processCreature_value (label : string) (addLog : bool) (creature : Creature) :
  exists ev, processCreature label addLog creature = Return (processed label creature) ev.
Proof.
  unfold processCreature, processed.
  destruct (orList (activeEffects creature)) as [| entry rest].
  - eexists. reflexivity.
  - destruct (effectLog (runEffects label (entry :: rest) creature)) as [| line more];
      [| destruct addLog]; eexists; reflexivity.
Qed.

Lemma mapM_processCreature (label : string) (addLog : bool) (field : list Creature) :
  exists ev,
    mapM (processCreature label addLog) field = Return (map (processed label) field) ev.
Proof.
  induction field as [| c rest [evs IH]].
  - eexists. reflexivity.
  - destruct (processCreature_value label addLog c) as [ev Hc].
    cbn [mapM map]. rewrite Hc, IH. eexists. reflexivity.
Qed.

Lemma ongoing_effects_result (s : BattleState) (addLog : bool) :
  exists ev,
    reducer s (act APPLY_ONGOING_EFFECTS (POngoing addLog None None))
    = Return (setEnemyField
                (setPlayerField s (removeDefeated (map (processed EmptyString) (playerField s))))
                (removeDefeated (map (processed "Enemy ") (enemyField s)))) ev.
Proof.
  rewrite reducer_act. cbn [reduceKind]. unfold applyOngoingEffects.
  destruct (mapM_processCreature EmptyString addLog (playerField s)) as [e1 H1].
  destruct (mapM_processCreature "Enemy " addLog (enemyField s)) as [e2 H2].
  rewrite H1. cbn [bind]. rewrite H2. eexists. reflexivity.
Qed.


(** *** Energy stays within bounds *)

Lemma orNum_nonneg (a : option Z) (b : Z) :
  optNonneg a = true -> 0 <= b -> 0 <= orNum a b.
Proof.
  unfold optNonneg, orNum. destruct a as [v |]; [| auto].
  intros Hv Hb. apply Z.leb_le in Hv. destruct (v =? 0); lia.
Qed.

Lemma declaredDeployCost_nonneg (creature : Creature) (cost : option Z) :
  optNonneg cost = true -> 0 <= energyCost (battleStats creature) ->
  0 <= declaredDeployCost creature cost.
Proof.
  intros Hc Hs. unfold declaredDeployCost. apply orNum_nonneg; [| lia].
  simpl. apply Z.leb_le. now apply orNum_nonneg.
Qed.

Lemma executeAIAction_energy (s : BattleState) (aiAction : AIAction)
  (s' : BattleState) (ev : list Event) :
  energyInv s -> optNonneg (ai_energyCost aiAction) = true ->
  executeAIAction processAttack defendCreature applyTool applySpell s aiAction
  = Return s' ev ->
  energyInv s'.
Proof.
  intros Hinv Hcost H.
  pose proof (orNum_nonneg (ai_energyCost aiAction) 3 Hcost ltac:(lia)).
  pose proof (orNum_nonneg (ai_energyCost aiAction) 2 Hcost ltac:(lia)).
  pose proof (orNum_nonneg (ai_energyCost aiAction) 1 Hcost ltac:(lia)).
  pose proof (orNum_nonneg (ai_energyCost aiAction) SPELL_ENERGY_COST Hcost ltac:(unfold SPELL_ENERGY_COST; lia)).
  destruct Hinv as [[Hp He] [Hmp Hme]]. enemy_int He.
  unfold executeAIAction in H.
  repeat match type of H with
         | context [if (?a =? ?b)%string then _ else _] => destruct (a =? b)%string
         end.
  - energy_done H.
  - energy_done H.
  - energy_done H.
  - energy_done H.
  - destruct (ai_spell aiAction); [| energy_done H].
    destruct (ai_caster aiAction); [| energy_done H].
    destruct (ai_target aiAction); [| energy_done H].
    rewrite ?Henergy in H.
    destruct (numLtb (Int e) (Int (orNum (ai_energyCost aiAction) SPELL_ENERGY_COST)))
      eqn:Hlow; [energy_done H |].
    destruct (applySpell _ _ _ _); [| energy_done H].
    apply bind_Return in H. destruct H as (ef & e1 & e2 & _ & H & _).
    apply bind_Return in H. destruct H as (pf & e3 & e4 & _ & H & _).
    energy_done H.
  - energy_done H.
Qed.

Lemma sequenceStep_energy (st : BattleState) (aiAction : AIAction) (cost : Z)
  (st' : BattleState) (ev : list Event) :
  energyInv st -> ai_energyCost aiAction = Some cost -> 0 <= cost ->
  sequenceStep processAttack defendCreature st aiAction = Return st' ev ->
  energyInv st'.
Proof.
  intros Hinv Hcost Hnonneg H.
  destruct Hinv as [[Hp He] [Hmp Hme]]. enemy_int He.
  unfold sequenceStep in H. rewrite Hcost, ?Henergy in H.
  destruct (numLtb (Int e) (Int (orNum (Some cost) 0))); [energy_done H |].
  repeat match type of H with
         | context [if (?a =? ?b)%string then _ else _] => destruct (a =? b)%string
         end.
  - apply bind_Return in H. destruct H as (dup & e1 & e2 & _ & H & _).
    destruct dup; [energy_done H |].
    apply bind_Return in H. destruct H as (hand & e3 & e4 & _ & H & _).
    destruct (ai_creature aiAction); [| discriminate H].
    energy_done H.
  - destruct (ai_attacker aiAction); [| discriminate H].
    destruct (ai_target aiAction); [| discriminate H].
    energy_done H.
  - destruct (ai_creature aiAction); [| discriminate H].
    energy_done H.
  - energy_done H.
Qed.

Lemma runSequence_energy (actionSequence : list AIAction) (st st' : BattleState)
  (ev : list Event) :
  energyInv st ->
  forallb (fun aiAction => optNonneg (ai_energyCost aiAction)) actionSequence = true ->
  costsDeclared (PAISequence actionSequence) = true ->
  runSequence processAttack defendCreature st actionSequence = Return st' ev ->
  energyInv st'.
Proof.
  revert st ev. induction actionSequence as [| aiAction rest IH];
    intros st ev Hinv Hall Hdeclared H.
  - cbn in H. inversion H; subst. exact Hinv.
  - cbn [forallb] in Hall. apply andb_prop in Hall. destruct Hall as [Hhead Hrest].
    cbn [costsDeclared forallb] in Hdeclared. apply andb_prop in Hdeclared.
    destruct Hdeclared as [Hcost Hdeclared].
    cbn [runSequence] in H. apply bind_Return in H.
    destruct H as (next & e1 & e2 & Hstep & Hrun & _).
    eapply IH; [| exact Hrest | exact Hdeclared | exact Hrun].
    destruct (ai_energyCost aiAction) as [cost |] eqn:Hsome; [| discriminate Hcost].
    cbn [optNonneg] in Hhead. apply Z.leb_le in Hhead.
    eapply sequenceStep_energy; eassumption.
Qed.

Ltac each_payload p :=
  destruct p as [ | pDeck pHand pTools pSpells eDeck eHand eTools eSpells diff
                  | creature cost | creature isPlayer | attackResult cost
                  | result tool isPlayerTool isEnemyTool
                  | spellResult spell cost isEnemySpell | updated | side
                  | side amount | playerRegen enemyRegen | g
                  | addLog givenPlayerField givenEnemyField | text
                  | aiAction | actionSequence ].

Ltac unfold_cases H :=
  unfold startBattle, deployCreature, enemyDeployCreature, updateCreature,
         attack, useSpell, defend, spendEnergy, drawCard, regenerateEnergy,
         applyEnergyDecayCase, decayOf, setActivePlayerCase, incrementTurn,
         setGameStateCase, addLogCase, comboBonus in H.

Ltac skip_binds H :=
  unfold useTool, applyOngoingEffects in H;
  repeat (apply bind_Return in H; destruct H as (? & ? & ? & _ & H & _)).

Lemma reduceKind_energy (s : BattleState) (k : ActionKind) (p : Payload)
  (s' : BattleState) (ev : list Event) :
  energyInv s -> amountsNonneg p = true -> costsDeclared p = true ->
  reduceKind processAttack defendCreature applyTool applySpell env s k p = Return s' ev ->
  energyInv s'.
Proof.
  intros Hinv Hamt Hdeclared H.
  destruct k; each_payload p; cbn [reduceKind throw] in H; try discriminate H;
    cbn [amountsNonneg] in Hamt;
    try (eapply executeAIAction_energy; eassumption);
    try (eapply runSequence_energy; eassumption);
    clear Hdeclared;
    destruct Hinv as [[Hp He] [Hmp Hme]]; enemy_int He;
    try (apply andb_prop in Hamt; destruct Hamt as [Hc Hs]; apply Z.leb_le in Hs;
         pose proof (declaredDeployCost_nonneg creature cost Hc Hs));
    try pose proof (orNum_nonneg cost SPELL_ENERGY_COST Hamt
                      ltac:(unfold SPELL_ENERGY_COST; lia));
    unfold_cases H; skip_binds H; energy_done H.
Qed.

Lemma reducer_energy (s : BattleState) (a : Action) (s' : BattleState) (ev : list Event) :
  energyInv s -> amountsNonneg (payload a) = true ->
  costsDeclared (payload a) = true ->
  reducer s a = Return s' ev ->
  energyInv s'.
Proof.
  intros Hinv Hamt Hdeclared H. unfold battleReducer in H.
  destruct (kindOf (type a)) as [k |].
  - eapply reduceKind_energy; eassumption.
  - inversion H; subst. exact Hinv.
Qed.

(** *** Fields: size and defeated creatures *)

Lemma fieldOk_nil : fieldOk [].
Proof. split; [simpl; lia | constructor]. Qed.

Lemma fieldOk_removeDefeated (field : list Creature) :
  (List.length field <= 4)%nat -> fieldOk (removeDefeated field).
Proof.
  intros Hlen. split.
  - pose proof (filter_length_le alive field). unfold removeDefeated. lia.
  - apply Forall_forall. intros c Hc. unfold removeDefeated in Hc.
    apply filter_In in Hc. destruct Hc as [_ Halive].
    unfold alive in Halive. now apply Z.ltb_lt.
Qed.

Lemma fieldOk_removeDefeated_map (g : Creature -> Creature) (field : list Creature) :
  fieldOk field -> fieldOk (removeDefeated (map g field)).
Proof.
  intros [Hlen _]. apply fieldOk_removeDefeated. now rewrite length_map.
Qed.

Lemma fieldOk_replaceTwo (first : bool) (a : Creature) (second : bool) (b : Creature)
  (field : list Creature) :
  fieldOk field -> fieldOk (removeDefeated (replaceTwo first a second b field)).
Proof. apply fieldOk_removeDefeated_map. Qed.

Lemma fieldOk_replaceById (x : Creature) (field : list Creature) :
  0 < currentHealth x -> fieldOk field -> fieldOk (replaceById x field).
Proof.
  intros Hx [Hlen Halive]. split.
  - unfold replaceById. now rewrite length_map.
  - unfold replaceById. apply Forall_forall. intros c Hc.
    apply in_map_iff in Hc. destruct Hc as (c0 & Heq & Hin).
    destruct (sameId (id c0) (id x)); subst; [exact Hx |].
    rewrite Forall_forall in Halive. now apply Halive.
Qed.

Lemma fieldOk_snoc (x : Creature) (field : list Creature) :
  0 < currentHealth x -> (List.length field < 4)%nat -> fieldOk field ->
  fieldOk (field ++ [x]).
Proof.
  intros Hx Hroom [_ Halive]. split.
  - rewrite length_app. simpl. lia.
  - apply Forall_app. split; [exact Halive | now constructor].
Qed.

Lemma fieldOk_comboBoost (field : list Creature) :
  fieldOk field -> fieldOk (map comboBoost field).
Proof.
  intros [Hlen Halive]. split.
  - now rewrite length_map.
  - apply Forall_forall. intros c Hc. apply in_map_iff in Hc.
    destruct Hc as (c0 & <- & Hin). rewrite Forall_forall in Halive.
    change (0 < currentHealth c0). now apply Halive.
Qed.

Create HintDb fields.

#[local] Hint Resolve fieldOk_nil fieldOk_replaceTwo fieldOk_replaceById
  fieldOk_snoc fieldOk_comboBoost fieldOk_removeDefeated_map : fields.

Lemma someM_pure {A : Type} (cb : A -> Outcome bool) (g : A -> bool) (l : list A) :
  (forall x, cb x = Return (g x) []) -> someM cb l = Return (existsb g l) [].
Proof.
  intros Hcb. induction l as [| x rest IH]; [reflexivity |].
  cbn [someM existsb]. rewrite Hcb. cbn [bind].
  destruct (g x); [reflexivity |]. rewrite IH. reflexivity.
Qed.

Lemma someM_toolTarget (updated : Creature) (field : list Creature) :
  someM (fun c => x <- toolTargetId (Some (mkToolResult (Some updated))) ;;
                  ret (sameId (id c) x)) field
  = Return (hasId field (id updated)) [].
Proof. apply someM_pure. intros c. reflexivity. Qed.

Ltac split_goal_tests :=
  repeat match goal with
         | |- context [if ?b then _ else _] => destruct b eqn:?
         | |- context [match ?x with _ => _ end] => destruct x eqn:?
         end.

Lemma reduceKind_fields (s : BattleState) (k : ActionKind) (p : Payload) :
  fieldsOk s -> carried s k p ->
  exists s' ev,
    reduceKind processAttack defendCreature applyTool applySpell env s k p = Return s' ev
    /\ fieldsOk s'.
Proof.
  intros [Hpf Hef] Hcarried.
  destruct k; each_payload p; cbn [carried] in Hcarried; try contradiction;
    cbn [reduceKind].
  all: try (destruct result as [[[updated |]] |]; try contradiction;
            unfold useTool; rewrite someM_toolTarget).
  all: try (destruct givenPlayerField; try contradiction;
            destruct givenEnemyField; try contradiction;
            destruct (ongoing_effects_result s addLog) as [ev0 Hred];
            rewrite reducer_act in Hred; cbn [reduceKind] in Hred;
            rewrite Hred; eexists; eexists; split; [reflexivity |];
            split; state_simpl; auto with fields).
  all: unfold startBattle, deployCreature, enemyDeployCreature, updateCreature,
         attack, useSpell, defend, spendEnergy, drawCard, regenerateEnergy,
         applyEnergyDecayCase, decayOf, setActivePlayerCase, incrementTurn,
         setGameStateCase, addLogCase, comboBonus.
  all: try match type of Hcarried with
             | _ /\ _ => destruct Hcarried as [Halive Hroom]
             end.
  all: split_goal_tests; cbn [bind emit ret app];
    eexists; eexists; (split; [reflexivity |]);
    split; state_simpl; split_goal_tests; auto with fields.
Qed.

(** *** The sequence case skips, it does not stop *)

(** A descriptor the enemy cannot pay for is logged and passed over; the
    rest of the sequence runs against the same state. *)
Lemma sequence_skips_unaffordable (st : BattleState) (aiAction : AIAction)
  (rest : list AIAction) :
  numLtb (enemyEnergy st) (Int (orNum (ai_energyCost aiAction) 0)) = true ->
  runSequence processAttack defendCreature st (aiAction :: rest)
  = (emit (ConsoleLog ("Skipping AI action " ++ ai_type aiAction
                       ++ " - not enough energy")%string) ;;;
     runSequence processAttack defendCreature st rest).
Proof.
  intros Hlow. cbn [runSequence]. unfold sequenceStep.
  rewrite Hlow. cbn [bind emit ret app].
  destruct (runSequence processAttack defendCreature st rest); reflexivity.
Qed.

(** C1 (as the code has it).  From a state whose fields each hold at most
    4 creatures, all with [currentHealth > 0], a player-facing action that
    is [carried] returns a state with the same property.  The reducer tests
    neither the size of a field on deployment nor the health of a creature
    it is handed; [ATTACK], [USE_SPELL] and [APPLY_ONGOING_EFFECTS] drop the
    creatures with [currentHealth <= 0] from both fields. *)
Theorem sound_fields_preserved (s : BattleState) (k : ActionKind) (p : Payload) :
  fieldsOk s -> carried s k p ->
  exists s' ev, reducer s (act k p) = Return s' ev /\ fieldsOk s'.
Proof. rewrite reducer_act. apply reduceKind_fields. Qed.

End ReducerFacts.

(** *** Reachable states *)

Lemma reachable_energyInv
  (processAttack : Creature -> Creature -> option string -> AttackResult)
  (defendCreature : Creature -> option string -> Creature)
  (applyTool : Creature -> Tool -> string -> option ToolResult)
  (applySpell : Creature -> Creature -> Spell -> string -> option SpellResult)
  (s : BattleState) :
  reachableDeclared processAttack defendCreature applyTool applySpell s ->
  energyInv s.
Proof.
  induction 1 as [| s a env s' ev Hreach IH Hamt Hdeclared Hstep].
  - unfold energyInv, energyBounds, momentumNonneg, MAX_ENERGY. simpl. lia.
  - eapply reducer_energy; eassumption.
Qed.

(** X21. As long as every descriptor of an AI sequence carries its
    [energyCost], both energies lie between 0 and [MAX_ENERGY = 15] in
    every state reached: the state the reducer starts from has 10 and 10,
    every case that adds energy takes the minimum with 15, and every case
    that takes energy away takes the maximum with 0. *)
Theorem reachable_energy_within_bounds
  (processAttack : Creature -> Creature -> option string -> AttackResult)
  (defendCreature : Creature -> option string -> Creature)
  (applyTool : Creature -> Tool -> string -> option ToolResult)
  (applySpell : Creature -> Creature -> Spell -> string -> option SpellResult)
  (s : BattleState) :
  reachableDeclared processAttack defendCreature applyTool applySpell s ->
  (0 <= playerEnergy s <= MAX_ENERGY /\ numWithin 0 MAX_ENERGY (enemyEnergy s))
  /\ MAX_ENERGY = 15
  /\ forall (a : Action) (env : Env) (s' : BattleState) (ev : list Event),
       amountsNonneg (payload a) = true ->
       costsDeclared (payload a) = true ->
       battleReducer processAttack defendCreature applyTool applySpell env s a
       = Return s' ev ->
       0 <= playerEnergy s' <= MAX_ENERGY /\ numWithin 0 MAX_ENERGY (enemyEnergy s').
Proof.
  intros Hreach. split; [| split; [reflexivity |]].
  - exact (proj1 (reachable_energyInv _ _ _ _ _ Hreach)).
  - intros a env s' ev Hamt Hdeclared Hstep.
    exact (proj1 (reducer_energy _ _ _ _ _ _ _ _ _
                    (reachable_energyInv _ _ _ _ _ Hreach) Hamt Hdeclared Hstep)).
Qed.

(** A type that is not in the table, at a state with creatures on both
    fields. *)
Lemma unknown_action_returns_state_witness :
  Sample.reducer
    (setPlayerField initialState [Sample.creature "p1" 30])
    (mkAction "RESET_BATTLE" (PSide Enemy))
  = Return (setPlayerField initialState [Sample.creature "p1" 30]) [].
Proof.
  apply unknown_action_returns_state.
  simpl. intros H.
  repeat (destruct H as [H | H]; [discriminate H |]). exact H.
Defined.

(** *** C1: transitions that leave an unsound field *)

(** Three transitions from sound fields to an unsound one: the enemy
    deploys a fifth creature; [UPDATE_CREATURE] puts a creature with
    [currentHealth = 0] on the player's field; an AI-executed attack leaves
    the attacker on the enemy's field with [currentHealth = 0]. *)
Lemma fields_unsound_after_transition :
  (fieldsOk Sample.fullEnemyField
   /\ exists s' ev,
       Sample.reducer Sample.fullEnemyField
         (act ENEMY_DEPLOY_CREATURE (PDeploy (Sample.creature "e2" 30) (Some 5)))
       = Return s' ev
       /\ List.length (enemyField s') = 5%nat
       /\ ~ fieldsOk s')
  /\ (fieldsOk Sample.midBattle
      /\ exists s' ev,
          Sample.reducer Sample.midBattle
            (act UPDATE_CREATURE (PUpdateCreature (Sample.creature "p1" 0) true))
          = Return s' ev
          /\ playerField s' = [Sample.creature "p1" 0]
          /\ ~ fieldsOk s')
  /\ (fieldsOk Sample.midBattle
      /\ exists s' ev,
          battleReducer Sample.processAttackRecoil Sample.defendCreature
            Sample.applyTool Sample.applySpell Sample.env Sample.midBattle
            (act EXECUTE_AI_ACTION
               (PAIAction (Sample.attackOf (Sample.creature "e1" 30)
                                           (Sample.creature "p1" 30) 2)))
          = Return s' ev
          /\ enemyField s' = [Sample.creature "e1" 0]
          /\ ~ fieldsOk s').
Proof.
  assert (Hmid : fieldsOk Sample.midBattle).
  { split; (split; [simpl; lia | repeat constructor]). }
  split; [| split].
  - split.
    + split; (split; [simpl; lia | repeat constructor]).
    + eexists. eexists. split; [reflexivity |]. split; [reflexivity |].
      intros [_ [Hlen _]]. simpl in Hlen. lia.
  - split; [exact Hmid |].
    eexists. eexists. split; [reflexivity |]. split; [reflexivity |].
    intros [[_ Halive] _]. simpl in Halive. inversion Halive as [| c l Hc Hl]; subst.
    simpl in Hc. lia.
  - split; [exact Hmid |].
    eexists. eexists. split; [reflexivity |]. split; [reflexivity |].
    intros [_ [_ Halive]]. simpl in Halive. inversion Halive as [| c l Hc Hl]; subst.
    simpl in Hc. lia.
Qed.

(** A player's deployment onto a field of one, by a living creature. *)
Lemma sound_fields_preserved_witness :
  exists s' ev,
    Sample.reducer Sample.midBattle
      (act DEPLOY_CREATURE (PDeploy (Sample.creature "p2" 30) (Some 5)))
    = Return s' ev
    /\ fieldsOk s'.
Proof.
  apply (sound_fields_preserved Sample.processAttack Sample.defendCreature
           Sample.applyTool Sample.applySpell Sample.env
           Sample.midBattle DEPLOY_CREATURE
           (PDeploy (Sample.creature "p2" 30) (Some 5))).
  - split; (split; [simpl; lia | repeat constructor]).
  - simpl. split; lia.
Defined.

(** *** C2: a malformed tool result with creatures on the player's field *)

(** C2 (failing input).  With a creature on the player's field, [USE_TOOL]
    whose [result] is missing, or has no [updatedCreature], raises a
    [TypeError] instead of returning the state; the same action on an empty
    player field returns the state with its diagnostic, and so does
    [USE_SPELL] with a missing result, which tests the result first. *)
Theorem use_tool_malformed_raises :
  Sample.reducer Sample.midBattle
    (act USE_TOOL (PUseTool None Sample.potion true false))
  = Raise TypeError []
  /\ Sample.reducer Sample.midBattle
       (act USE_TOOL (PUseTool (Some (mkToolResult None)) Sample.potion true false))
     = Raise TypeError []
  /\ Sample.reducer initialState
       (act USE_TOOL (PUseTool None Sample.potion true false))
     = Return initialState [ConsoleError "Invalid tool result:"]
  /\ Sample.reducer Sample.midBattle
       (act USE_SPELL (PUseSpell None (mkSpell "s1" "Spark") (Some 4) false))
     = Return Sample.midBattle [ConsoleError "Invalid spell result:"].
Proof. repeat split. Qed.

(** *** A state reached by a deployment *)

Lemma reachable_after_deploy :
  reachableDeclared Sample.processAttack Sample.defendCreature Sample.applyTool
    Sample.applySpell
    (setEnergyMomentum
       (setConsecutiveActions
          (setPlayerEnergy
             (setPlayerField (setPlayerHand initialState [])
                             [Sample.creature "p1" 30])
             5)
          (mkCounters 1 0))
       (mkCounters 5 0)).
Proof.
  eapply (declared_step _ _ _ _ initialState
            (act DEPLOY_CREATURE (PDeploy (Sample.creature "p1" 30) (Some 5)))
            Sample.env).
  - apply declared_initial.
  - reflexivity.
  - reflexivity.
  - reflexivity.
Defined.

Lemma reachable_energy_within_bounds_witness :
  (0 <= 5 <= MAX_ENERGY /\ 0 <= 10 <= MAX_ENERGY) /\ MAX_ENERGY = 15.
Proof.
  pose proof (reachable_energy_within_bounds _ _ _ _ _ reachable_after_deploy) as H.
  split; [exact (proj1 H) | exact (proj1 (proj2 H))].
Defined.

(** *** C3: a descriptor without its cost *)

(** C3 (failing input).  A battle starts with one creature in the
    enemy's hand, and an AI sequence deploys it with a descriptor that
    carries no [energyCost].  The test against
    [actionCost = aiAction.energyCost || 0] passes and
    [Math.max(0, enemyEnergy - aiAction.energyCost)] is [NaN]: the state
    returned, reached from the initial state through amounts that are not
    negative, has an enemy energy outside [0, MAX_ENERGY], and a
    regeneration leaves it there.  For the same descriptor the single
    [EXECUTE_AI_ACTION] falls back on a cost of 3 and leaves 7. *)
Theorem costless_descriptor_breaks_energy_bounds :
  exists started broken regenerated viaSingle ev1 ev2 ev3 ev4,
    Sample.reducer initialState (Sample.startOf (Sample.creature "e1" 30))
    = Return started ev1
    /\ enemyEnergy started = Int 10
    /\ Sample.reducer started
         (act EXECUTE_AI_ACTION_SEQUENCE
            (PAISequence [Sample.deployWithoutCost (Sample.creature "e1" 30)]))
       = Return broken ev2
    /\ amountsNonneg
         (PAISequence [Sample.deployWithoutCost (Sample.creature "e1" 30)]) = true
    /\ reachable Sample.processAttack Sample.defendCreature Sample.applyTool
         Sample.applySpell broken
    /\ enemyField broken = [Sample.creature "e1" 30]
    /\ enemyEnergy broken = NaN
    /\ ~ numWithin 0 MAX_ENERGY (enemyEnergy broken)
    /\ Sample.reducer broken (act REGENERATE_ENERGY (PRegenerate 3 3))
       = Return regenerated ev3
    /\ enemyEnergy regenerated = NaN
    /\ Sample.reducer started
         (act EXECUTE_AI_ACTION
            (PAIAction (Sample.deployWithoutCost (Sample.creature "e1" 30))))
       = Return viaSingle ev4
    /\ enemyEnergy viaSingle = Int 7.
Proof.
  do 8 eexists.
  split; [reflexivity |]. split; [reflexivity |]. split; [reflexivity |].
  split; [reflexivity |]. split.
  { eapply (reach_step _ _ _ _ _
              (act EXECUTE_AI_ACTION_SEQUENCE
                 (PAISequence [Sample.deployWithoutCost (Sample.creature "e1" 30)]))
              Sample.env).
    - eapply (reach_step _ _ _ _ initialState
                (Sample.startOf (Sample.creature "e1" 30)) Sample.env);
        [apply reach_initial | reflexivity | reflexivity].
    - reflexivity.
    - reflexivity. }
  split; [reflexivity |]. split; [reflexivity |].
  split; [intros Hwithin; exact Hwithin |].
  split; [reflexivity |]. split; [reflexivity |].
  split; reflexivity.
Qed.

(** *** C4: a deployment from a hand of two *)

(** C4 (counterexample).  A declared cost of 0 is falsy: the reducer
    charges the creature's own cost instead, here 5.  With 2 energy, which
    is at least the declared 0, the deployment is refused and the state
    comes back as it was; with 15 it goes through and takes 5, not 0.  The
    reducer does not look for the creature in the hand: deploying a
    creature that is not there removes nothing from it.  And the enemy's
    deployment refuses a creature whose [id] is on its field already, with
    10 energy against a cost of 5. *)
Lemma deploy_at_declared_cost_zero :
  exists refused charged notInHand duplicate ev1 ev2 ev3 ev4,
    playerEnergy (setPlayerEnergy Sample.midBattle 2) = 2
    /\ Sample.reducer (setPlayerEnergy Sample.midBattle 2)
         (act DEPLOY_CREATURE (PDeploy (Sample.creature "p2" 30) (Some 0)))
       = Return refused ev1
    /\ refused = setPlayerEnergy Sample.midBattle 2
    /\ playerHand refused = [Sample.creature "p2" 30]
    /\ playerField refused = [Sample.creature "p1" 30]
    /\ playerEnergy Sample.midBattle = 15
    /\ Sample.reducer Sample.midBattle
         (act DEPLOY_CREATURE (PDeploy (Sample.creature "p2" 30) (Some 0)))
       = Return charged ev2
    /\ playerField charged = [Sample.creature "p1" 30; Sample.creature "p2" 30]
    /\ playerEnergy charged = 10
    /\ Sample.reducer Sample.midBattle
         (act DEPLOY_CREATURE (PDeploy (Sample.creature "p9" 30) (Some 5)))
       = Return notInHand ev3
    /\ playerHand notInHand = playerHand Sample.midBattle
    /\ playerField notInHand = [Sample.creature "p1" 30; Sample.creature "p9" 30]
    /\ enemyEnergy Sample.midBattle = Int 10
    /\ Sample.reducer Sample.midBattle
         (act ENEMY_DEPLOY_CREATURE (PDeploy (Sample.creature "e1" 30) (Some 5)))
       = Return duplicate ev4
    /\ duplicate = Sample.midBattle.
Proof. do 8 eexists. repeat split. Qed.

Lemma deploy_moves_one_creature_witness :
  (exists s' ev,
      Sample.reducer (setPlayerHand Sample.midBattle
                        [Sample.creature "p2" 30; Sample.creature "p3" 30])
        (act DEPLOY_CREATURE (PDeploy (Sample.creature "p2" 30) (Some 5)))
      = Return s' ev
      /\ playerHand s' = [Sample.creature "p3" 30]
      /\ playerField s' = [Sample.creature "p1" 30; Sample.creature "p2" 30]
      /\ playerEnergy s' = 10)
  /\ (exists s' ev,
        Sample.reducer Sample.midBattle
          (act ENEMY_DEPLOY_CREATURE (PDeploy (Sample.creature "e2" 30) (Some 5)))
        = Return s' ev
        /\ enemyHand s' = []
        /\ enemyField s' = [Sample.creature "e1" 30; Sample.creature "e2" 30]
        /\ enemyEnergy s' = Int 5).
Proof.
  split.
  - pose proof (deploy_moves_one_creature Sample.processAttack Sample.defendCreature
                  Sample.applyTool Sample.applySpell Sample.env
                  (setPlayerHand Sample.midBattle
                     [Sample.creature "p2" 30; Sample.creature "p3" 30])
                  Player (Sample.creature "p2" 30) (Some 5) eq_refl
                  (fun impossible => match impossible with end)) as H.
    simpl in H.
    destruct H as (_ & _ & s' & ev & Hred & Hhand & _ & Hfield & _ & Henergy & _).
    exists s', ev. repeat split; try assumption.
    exact (f_equal (fun e => match e with Int z => z | NaN => 0 end) Henergy).
  - pose proof (deploy_moves_one_creature Sample.processAttack Sample.defendCreature
                  Sample.applyTool Sample.applySpell Sample.env
                  Sample.midBattle Enemy (Sample.creature "e2" 30) (Some 5) eq_refl
                  (fun _ => eq_refl)) as H.
    simpl in H.
    destruct H as (_ & _ & s' & ev & Hred & Hhand & _ & Hfield & _ & Henergy & _).
    exists s', ev. repeat split; assumption.
Defined.

(** *** C5: the side at exactly 10 *)

(** The player holds 15 and the enemy 10: the decay step is dispatched and
    takes 1 from the enemy too, whose energy does not exceed 10. *)
Lemma decay_reaches_side_at_ten :
  playerEnergy Sample.midBattle = 15 /\ enemyEnergy Sample.midBattle = Int 10
  /\ exists s',
      decayStep Sample.processAttack Sample.defendCreature Sample.applyTool
        Sample.applySpell Sample.env Sample.midBattle
      = Return s' []
      /\ playerEnergy s' = 14
      /\ enemyEnergy s' = Int 9
      /\ enemyEnergy s' <> enemyEnergy Sample.midBattle.
Proof.
  split; [reflexivity |]. split; [reflexivity |].
  eexists. split; [reflexivity |]. split; [reflexivity |].
  split; [reflexivity | discriminate].
Qed.

Lemma decay_step_hits_both_sides_witness :
  decayed 9 = 9.
Proof.
  apply (proj2 (proj2 (proj2 (proj2 (proj2
           (decay_step_hits_both_sides Sample.processAttack Sample.defendCreature
              Sample.applyTool Sample.applySpell Sample.env Sample.midBattle)))))).
  lia.
Defined.

(** *** C6: the sequence case against the single-action logic *)

(** C6 (failing inputs).  [EXECUTE_AI_ACTION_SEQUENCE] with one affordable
    deployment moves the creature and takes the energy as the player-facing
    [ENEMY_DEPLOY_CREATURE] and the single [EXECUTE_AI_ACTION] do, and
    leaves the enemy's streak and momentum at 0 where both of them count 1
    and 5.  With one [useTool] descriptor it does nothing, where the
    player-facing [USE_TOOL] consumes the tool and counts the action.  With
    an attack whose attacker falls it keeps the attacker on the enemy's
    field, where the player-facing [ATTACK] removes it. *)
Theorem ai_sequence_differs_from_single_actions :
  (exists viaSequence viaPlayerFacing viaSingle ev1 ev2 ev3,
      Sample.reducer Sample.midBattle
        (act EXECUTE_AI_ACTION_SEQUENCE
           (PAISequence [Sample.deployOf (Sample.creature "e2" 30) 5]))
      = Return viaSequence ev1
      /\ foldPlayerFacing Sample.processAttack Sample.defendCreature Sample.applyTool
           Sample.applySpell Sample.env Sample.midBattle
           [Sample.deployOf (Sample.creature "e2" 30) 5]
         = Return viaPlayerFacing ev2
      /\ foldSingleAI Sample.processAttack Sample.defendCreature Sample.applyTool
           Sample.applySpell Sample.env Sample.midBattle
           [Sample.deployOf (Sample.creature "e2" 30) 5]
         = Return viaSingle ev3
      /\ enemyField viaSequence = enemyField viaPlayerFacing
      /\ enemyHand viaSequence = enemyHand viaPlayerFacing
      /\ enemyEnergy viaSequence = Int 5 /\ enemyEnergy viaPlayerFacing = Int 5
      /\ consecutiveActions viaSequence = mkCounters 0 0
      /\ energyMomentum viaSequence = mkCounters 0 0
      /\ consecutiveActions viaPlayerFacing = mkCounters 0 1
      /\ energyMomentum viaPlayerFacing = mkCounters 0 5
      /\ consecutiveActions viaSingle = mkCounters 0 1
      /\ energyMomentum viaSingle = mkCounters 0 5)
  /\ (exists viaPlayerFacing ev,
        Sample.reducer Sample.midBattle
          (act EXECUTE_AI_ACTION_SEQUENCE
             (PAISequence [Sample.useToolOf Sample.potion (Sample.creature "e1" 30)]))
        = Return Sample.midBattle []
        /\ foldPlayerFacing Sample.processAttack Sample.defendCreature Sample.applyTool
             Sample.applySpell Sample.env Sample.midBattle
             [Sample.useToolOf Sample.potion (Sample.creature "e1" 30)]
           = Return viaPlayerFacing ev
        /\ enemyTools Sample.midBattle = [Sample.potion]
        /\ enemyTools viaPlayerFacing = []
        /\ consecutiveActions viaPlayerFacing = mkCounters 0 1)
  /\ (exists viaSequence viaPlayerFacing ev1 ev2,
        battleReducer Sample.processAttackRecoil Sample.defendCreature
          Sample.applyTool Sample.applySpell Sample.env Sample.midBattle
          (act EXECUTE_AI_ACTION_SEQUENCE
             (PAISequence [Sample.attackOf (Sample.creature "e1" 30)
                                           (Sample.creature "p1" 30) 2]))
        = Return viaSequence ev1
        /\ foldPlayerFacing Sample.processAttackRecoil Sample.defendCreature
             Sample.applyTool Sample.applySpell Sample.env Sample.midBattle
             [Sample.attackOf (Sample.creature "e1" 30) (Sample.creature "p1" 30) 2]
           = Return viaPlayerFacing ev2
        /\ enemyField viaSequence = [Sample.creature "e1" 0]
        /\ enemyField viaPlayerFacing = []).
Proof.
  split; [| split].
  - do 6 eexists. repeat split; reflexivity.
  - do 2 eexists. repeat split; reflexivity.
  - do 4 eexists. repeat split; reflexivity.
Qed.

(** *** C8: a poisoned creature *)



(** * Further properties of the reducer and of the handlers *)

Section MoreReducerFacts.

Variable processAttack : Creature -> Creature -> option string -> AttackResult.
Variable defendCreature : Creature -> option string -> Creature.
Variable applyTool : Creature -> Tool -> string -> option ToolResult.
Variable applySpell : Creature -> Creature -> Spell -> string -> option SpellResult.
Variable env : Env.

Local Notation reducer :=
  (battleReducer processAttack defendCreature applyTool applySpell env).

Local Notation reduce :=
  (reduceKind processAttack defendCreature applyTool applySpell env).

Lemma reducer_as_reduce (s : BattleState) (k : ActionKind) (p : Payload) :
  reducer s (act k p) = reduce s k p.
Proof. apply reducer_act. Qed.

(** *** Drawing a card *)

(** X1. [DRAW_CARD] moves the first card of the side's deck to the end of
    its hand: hand followed by deck is the same list before and after, the
    deck is shorter by one unless it was empty, in which case the state
    comes back as it was; the other side's hand and deck, both fields and
    both energies are untouched. *)
Theorem draw_card_conserves_cards (s : BattleState) (side : Side) :
  exists s',
    reducer s (act DRAW_CARD (PSide side)) = Return s' []
    /\ handOf side s' ++ deckOf side s' = handOf side s ++ deckOf side s
    /\ handOf side s' = handOf side s ++ firstn 1 (deckOf side s)
    /\ deckOf side s' = skipn 1 (deckOf side s)
    /\ match deckOf side s with [] => s' = s | _ :: _ => True end
    /\ handOf (otherSide side) s' = handOf (otherSide side) s
    /\ deckOf (otherSide side) s' = deckOf (otherSide side) s
    /\ playerField s' = playerField s /\ enemyField s' = enemyField s
    /\ playerEnergy s' = playerEnergy s /\ enemyEnergy s' = enemyEnergy s.
Proof.
  rewrite reducer_as_reduce. cbn [reduceKind]. unfold drawCard.
  destruct side; cbn [handOf deckOf otherSide].
  - destruct (playerDeck s) as [| top rest] eqn:Hdeck;
      eexists; (split; [reflexivity |]); state_simpl; rewrite ?Hdeck;
      cbn [firstn skipn]; rewrite ?app_nil_r, <- ?app_assoc;
      repeat split; reflexivity.
  - destruct (enemyDeck s) as [| top rest] eqn:Hdeck;
      eexists; (split; [reflexivity |]); state_simpl; rewrite ?Hdeck;
      cbn [firstn skipn]; rewrite ?app_nil_r, <- ?app_assoc;
      repeat split; reflexivity.
Qed.


(** *** Who writes the log and the turn counter *)

(** Runs an equation [H : ... = Return _ _] to its leaves. *)
Ltac run_outcome H :=
  repeat first
    [ apply bind_Return in H; destruct H as (? & ? & ? & _ & H & _)
    | progress monad_simpl H
    | match type of H with
      | context [if ?b then _ else _] => destruct b eqn:?
      | context [match ?x with _ => _ end] => destruct x eqn:?
      end ];
  try discriminate H;
  inversion H; subst; clear H.

Lemma sequenceStep_frame (st : BattleState) (aiAction : AIAction)
  (st' : BattleState) (ev : list Event) :
  sequenceStep processAttack defendCreature st aiAction = Return st' ev ->
  turn st' = turn st /\ battleLog st' = battleLog st.
Proof.
  intros H. unfold sequenceStep in H. run_outcome H; split; reflexivity.
Qed.

Lemma runSequence_frame (actionSequence : list AIAction) (st st' : BattleState)
  (ev : list Event) :
  runSequence processAttack defendCreature st actionSequence = Return st' ev ->
  turn st' = turn st /\ battleLog st' = battleLog st.
Proof.
  revert st ev. induction actionSequence as [| aiAction rest IH]; intros st ev H.
  - cbn in H. inversion H; subst. split; reflexivity.
  - cbn [runSequence] in H. apply bind_Return in H.
    destruct H as (next & e1 & e2 & Hstep & Hrun & _).
    apply sequenceStep_frame in Hstep. apply IH in Hrun.
    destruct Hstep as [<- <-]. exact Hrun.
Qed.

Lemma executeAIAction_frame (s : BattleState) (aiAction : AIAction)
  (s' : BattleState) (ev : list Event) :
  executeAIAction processAttack defendCreature applyTool applySpell s aiAction
  = Return s' ev ->
  turn s' = turn s /\ battleLog s' = battleLog s.
Proof.
  intros H. unfold executeAIAction in H. run_outcome H; split; reflexivity.
Qed.

Ltac payload_cases p :=
  destruct p as [ | pDeck pHand pTools pSpells eDeck eHand eTools eSpells diff
                  | creature cost | creature isPlayer | attackResult cost
                  | result tool isPlayerTool isEnemyTool
                  | spellResult spell cost isEnemySpell | updated | side
                  | side amount | playerRegen enemyRegen | g
                  | addLog givenPlayerField givenEnemyField | text
                  | aiAction | actionSequence ].

Ltac unfold_all_cases H :=
  unfold startBattle, deployCreature, enemyDeployCreature, updateCreature,
         attack, useTool, useSpell, defend, spendEnergy, drawCard,
         regenerateEnergy, applyEnergyDecayCase, decayOf, setActivePlayerCase,
         incrementTurn, setGameStateCase, applyOngoingEffects, addLogCase,
         comboBonus in H.

(** X2. Of all transitions, only [ADD_LOG] writes the log, and it appends
    one entry stamped with the current turn; only [INCREMENT_TURN] advances
    the turn, by one; [START_BATTLE] replaces the log by a single entry and
    sets the turn to 1; every other action, the AI-executed ones included,
    returns the log and the turn it was given. *)
Theorem log_and_turn_writers (s : BattleState) (k : ActionKind) (p : Payload)
  (s' : BattleState) (ev : list Event) :
  reducer s (act k p) = Return s' ev ->
  match k with
  | START_BATTLE => turn s' = 1 /\ List.length (battleLog s') = 1%nat
  | ADD_LOG =>
      turn s' = turn s
      /\ exists entry,
          battleLog s' = battleLog s ++ [entry] /\ log_turn entry = turn s
  | INCREMENT_TURN => turn s' = turn s + 1 /\ battleLog s' = battleLog s
  | _ => turn s' = turn s /\ battleLog s' = battleLog s
  end.
Proof.
  rewrite reducer_as_reduce. intros H.
  destruct k; payload_cases p; cbn [reduceKind throw] in H; try discriminate H;
    try (eapply executeAIAction_frame; eassumption);
    try (eapply runSequence_frame; eassumption);
    unfold_all_cases H; run_outcome H; state_simpl;
    first [ split; reflexivity
          | split; [reflexivity | eexists; split; reflexivity] ].
Qed.

(** *** What a pass of ongoing effects leaves behind *)

Lemma survivors_positive (effects : list (option Effect)) :
  Forall (fun e => 0 < duration e) (survivors effects).
Proof.
  induction effects as [| [e |] rest IH]; cbn [survivors]; [constructor | | exact IH].
  destruct (Z.ltb_spec 0 (duration e - 1)) as [Hpos | Hneg]; [| exact IH].
  constructor; [exact Hpos | exact IH].
Qed.

Lemma processed_effects (label : string) (c : Creature) (l : list (option Effect)) :
  activeEffects c = Some l ->
  activeEffects (processed label c) = Some (map Some (survivors l)).
Proof.
  intros Hl. unfold processed. rewrite Hl. cbn [orList].
  destruct l as [| entry rest].
  - destruct (isDefending c); cbn; exact Hl.
  - unfold runEffects. rewrite fold_remaining. cbn [remainingEffects app].
    destruct (isDefending _); reflexivity.
Qed.

Lemma processed_no_effects (label : string) (c : Creature) :
  activeEffects c = None -> activeEffects (processed label c) = None.
Proof.
  intros Hl. unfold processed. rewrite Hl. cbn [orList].
  destruct (isDefending c); cbn; exact Hl.
Qed.

Lemma processed_not_defending (label : string) (c : Creature) :
  isDefending (processed label c) = false.
Proof.
  unfold processed.
  set (updated := match orList (activeEffects c) with
                  | [] => c
                  | _ :: _ => _
                  end).
  destruct (isDefending updated) eqn:Hd; [reflexivity | exact Hd].
Qed.

(** X3. Whatever the state, one [APPLY_ONGOING_EFFECTS] without
    replacement fields returns a state in which no field has grown and
    every creature on a field has [currentHealth > 0], is not defending,
    and carries only effects that are present (no [null] entry) with a
    positive [duration]. *)
Theorem ongoing_effects_clean_fields (s : BattleState) (addLog : bool) :
  exists s' ev,
    reducer s (act APPLY_ONGOING_EFFECTS (POngoing addLog None None)) = Return s' ev
    /\ forall side : Side,
        (List.length (fieldOf side s') <= List.length (fieldOf side s))%nat
        /\ forall c : Creature,
            In c (fieldOf side s') ->
            0 < currentHealth c
            /\ isDefending c = false
            /\ forall (l : list (option Effect)) (entry : option Effect),
                activeEffects c = Some l -> In entry l ->
                exists e, entry = Some e /\ 0 < duration e.
Proof.
  destruct (ongoing_effects_result processAttack defendCreature applyTool applySpell
              env s addLog) as [ev Hred].
  eexists. exists ev. split; [exact Hred |].
  assert (Hgen : forall label field,
             (List.length (removeDefeated (map (processed label) field))
              <= List.length field)%nat
             /\ forall c, In c (removeDefeated (map (processed label) field)) ->
                  0 < currentHealth c /\ isDefending c = false
                  /\ forall l entry, activeEffects c = Some l -> In entry l ->
                       exists e, entry = Some e /\ 0 < duration e).
  { intros label field. split.
    - unfold removeDefeated.
      pose proof (filter_length_le alive (map (processed label) field)) as Hle.
      rewrite length_map in Hle. exact Hle.
    - intros c Hc. unfold removeDefeated in Hc. apply filter_In in Hc.
      destruct Hc as [Hin Halive]. apply in_map_iff in Hin.
      destruct Hin as (c0 & <- & _).
      split; [now apply Z.ltb_lt |]. split; [apply processed_not_defending |].
      intros l entry Hl Hentry.
      destruct (activeEffects c0) as [l0 |] eqn:Hl0.
      + rewrite (processed_effects label c0 l0 Hl0) in Hl. inversion Hl; subst.
        apply in_map_iff in Hentry. destruct Hentry as (e & <- & He).
        exists e. split; [reflexivity |].
        pose proof (survivors_positive l0) as Hpos.
        rewrite Forall_forall in Hpos. now apply Hpos.
      + rewrite (processed_no_effects label c0 Hl0) in Hl. discriminate Hl. }
  intros side. destruct side; cbn [fieldOf]; state_simpl; apply Hgen.
Qed.

(** X4. A creature whose only effect has [duration = n >= 1] carries that
    effect, with [duration = n - k], after [k < n] passes, and carries no
    effect after [n] passes or more: the effect is applied by exactly [n]
    passes. *)
Theorem effect_lasts_its_duration (label : string) (c : Creature) (e : Effect)
  (n k : nat) :
  activeEffects c = Some [Some e] ->
  duration e = Z.of_nat n ->
  (1 <= n)%nat ->
  activeEffects (Nat.iter k (processed label) c)
  = Some (if (k <? n)%nat
          then [Some (setDuration (Z.of_nat (n - k)) e)]
          else []).
Proof.
  intros Hc Hduration Hn. induction k as [| k IH].
  - unfold Nat.iter; cbn [nat_rect]. destruct (Nat.ltb_spec 0 n) as [_ | Hbad]; [| lia].
    rewrite Hc. rewrite Nat.sub_0_r, <- Hduration. destruct e; reflexivity.
  - rewrite Nat.iter_succ. rewrite (processed_effects label _ _ IH).
    destruct (Nat.ltb_spec k n) as [Hlt | Hge].
    + cbn [survivors setDuration duration].
      destruct (Nat.ltb_spec (S k) n) as [Hlt' | Hge'].
      * destruct (Z.ltb_spec 0 (Z.of_nat (n - k) - 1)) as [_ | Hbad]; [| lia].
        cbn [map setDuration name healthEffect statEffect duration].
        replace (Z.of_nat (n - k) - 1) with (Z.of_nat (n - S k)) by lia.
        reflexivity.
      * destruct (Z.ltb_spec 0 (Z.of_nat (n - k) - 1)) as [Hbad | _]; [lia |].
        reflexivity.
    + destruct (Nat.ltb_spec (S k) n) as [Hlt' | _]; [lia | reflexivity].
Qed.

(** *** Defending and using a tool *)

(** X5. [DEFEND] charges the side on whose behalf it acts, the player when
    the creature's [id] is on the player's field and the enemy otherwise:
    with less than [DEFEND_ENERGY_COST = 1] energy the state comes back
    unchanged, with one console error; otherwise it pays exactly 1, its
    streak grows by one, the creature replaces its namesakes on that
    side's field, and the other side's energy, streak and field as well as
    both momentum counters stay as they were.  (An enemy energy that is
    [NaN] is not less than 1 and stays [NaN].) *)
Theorem defend_costs_one_energy (s : BattleState) (updated : Creature) :
  let side := if hasId (playerField s) (id updated) then Player else Enemy in
  if numLtb (energyOf side s) (Int DEFEND_ENERGY_COST)
  then exists text,
      reducer s (act DEFEND (PDefend updated)) = Return s [ConsoleError text]
  else exists s',
      reducer s (act DEFEND (PDefend updated)) = Return s' []
      /\ energyOf side s' = numSub (energyOf side s) (Int 1)
      /\ energyOf (otherSide side) s' = energyOf (otherSide side) s
      /\ energyMomentum s' = energyMomentum s
      /\ streakOf side s' = streakOf side s + 1
      /\ streakOf (otherSide side) s' = streakOf (otherSide side) s
      /\ fieldOf side s' = replaceById updated (fieldOf side s)
      /\ fieldOf (otherSide side) s' = fieldOf (otherSide side) s.
Proof.
  rewrite reducer_as_reduce. cbn [reduceKind]. unfold defend, DEFEND_ENERGY_COST.
  destruct (hasId (playerField s) (id updated)); cbn [energyOf andb negb numLtb].
  - destruct (Z.ltb_spec (playerEnergy s) 1) as [Hlow | Hok].
    + eexists. reflexivity.
    + eexists. split; [reflexivity |]. state_simpl.
      cbn [energyOf otherSide streakOf fieldOf]. state_simpl.
      repeat split; try reflexivity. cbn [numSub numBinary]. f_equal. lia.
  - destruct (enemyEnergy s) as [e |] eqn:Henergy; cbn [numLtb].
    + destruct (Z.ltb_spec e 1) as [Hlow | Hok].
      * eexists. reflexivity.
      * eexists. split; [reflexivity |]. state_simpl.
        cbn [energyOf otherSide streakOf fieldOf]. state_simpl.
        rewrite ?Henergy. cbn [numMax numSub numBinary].
        repeat split; try reflexivity. f_equal. lia.
    + eexists. split; [reflexivity |]. state_simpl.
      cbn [energyOf otherSide streakOf fieldOf]. state_simpl.
      rewrite ?Henergy. repeat split; reflexivity.
Qed.

(** X6. [USE_TOOL] with a well-formed result costs nothing: both energies
    and both momentum counters are as before and no field changes size.
    The tools with the used tool's [id] leave the player's collection when
    [isPlayerTool] is set and the enemy's when [isEnemyTool] is set; the
    streak that grows is the player's when [isPlayerTool] is set and the
    enemy's otherwise. *)
Theorem use_tool_costs_no_energy (s : BattleState) (updated : Creature)
  (tool : Tool) (isPlayerTool isEnemyTool : bool) :
  exists s',
    reducer s (act USE_TOOL
                 (PUseTool (Some (mkToolResult (Some updated))) tool
                           isPlayerTool isEnemyTool))
    = Return s' []
    /\ playerEnergy s' = playerEnergy s /\ enemyEnergy s' = enemyEnergy s
    /\ energyMomentum s' = energyMomentum s
    /\ List.length (playerField s') = List.length (playerField s)
    /\ List.length (enemyField s') = List.length (enemyField s)
    /\ (if isPlayerTool
        then Forall (fun t => tool_id t <> tool_id tool) (playerTools s')
        else playerTools s' = playerTools s)
    /\ (if isEnemyTool
        then Forall (fun t => tool_id t <> tool_id tool) (enemyTools s')
        else enemyTools s' = enemyTools s)
    /\ consecutiveActions s'
       = (if isPlayerTool then incPlayer (consecutiveActions s) 1
          else incEnemy (consecutiveActions s) 1).
Proof.
  rewrite reducer_as_reduce. cbn [reduceKind]. unfold useTool.
  rewrite someM_toolTarget. cbn [bind ret app].
  eexists. split; [reflexivity |]. state_simpl.
  assert (Hgone : forall tools : list Tool,
             Forall (fun t => tool_id t <> tool_id tool)
                    (filter (fun t => negb (String.eqb (tool_id t) (tool_id tool))) tools)).
  { intros tools. apply Forall_forall. intros t Ht. apply filter_In in Ht.
    destruct Ht as [_ Hne]. destruct (String.eqb_spec (tool_id t) (tool_id tool));
      [discriminate Hne | assumption]. }
  repeat split; try reflexivity.
  - destruct (hasId _ _); [unfold replaceById; apply length_map | reflexivity].
  - destruct (negb _); [unfold replaceById; apply length_map | reflexivity].
  - destruct isPlayerTool; [apply Hgone | reflexivity].
  - destruct isEnemyTool; [apply Hgone | reflexivity].
Qed.

(** *** Attacks and spells clear the defeated *)

Lemma removeDefeated_map_clean (g : Creature -> Creature) (field : list Creature) :
  (List.length (removeDefeated (map g field)) <= List.length field)%nat
  /\ Forall (fun c => 0 < currentHealth c) (removeDefeated (map g field)).
Proof.
  split.
  - unfold removeDefeated.
    pose proof (filter_length_le alive (map g field)) as Hle.
    now rewrite length_map in Hle.
  - apply Forall_forall. intros c Hc. unfold removeDefeated in Hc.
    apply filter_In in Hc. destruct Hc as [_ Halive]. now apply Z.ltb_lt.
Qed.

(** X7. [ATTACK] and [USE_SPELL] either refuse, returning the state they
    were given together with a console error, or return, in silence, a
    state in which no field has grown and no creature on either field has
    [currentHealth <= 0], whatever the fields held before. *)
Theorem attack_and_spell_clear_defeated (s : BattleState) :
  (forall (attackResult : AttackResult) (cost : Z),
      exists s' ev,
        reducer s (act ATTACK (PAttack attackResult cost)) = Return s' ev
        /\ match ev with
           | [] => forall side : Side,
                 (List.length (fieldOf side s') <= List.length (fieldOf side s))%nat
                 /\ Forall (fun c => 0 < currentHealth c) (fieldOf side s')
           | _ :: _ => s' = s
           end)
  /\ (forall (caster target : Creature) (spell : Spell) (cost : option Z)
             (isEnemySpell : bool),
         exists s' ev,
           reducer s (act USE_SPELL
                        (PUseSpell (Some (mkSpellResult (Some caster) (Some target)))
                                   spell cost isEnemySpell))
           = Return s' ev
           /\ match ev with
              | [] => forall side : Side,
                    (List.length (fieldOf side s') <= List.length (fieldOf side s))%nat
                    /\ Forall (fun c => 0 < currentHealth c) (fieldOf side s')
              | _ :: _ => s' = s
              end).
Proof.
  split.
  - intros attackResult cost. rewrite reducer_as_reduce. cbn [reduceKind].
    unfold attack.
    destruct (andb _ (playerEnergy s <? cost)).
    { eexists. eexists. split; reflexivity. }
    destruct (andb _ (numLtb (enemyEnergy s) (Int cost))).
    { eexists. eexists. split; reflexivity. }
    eexists. eexists. split; [reflexivity |].
    intros side. destruct side; cbn [fieldOf]; state_simpl;
      unfold replaceTwo; apply removeDefeated_map_clean.
  - intros caster target spell cost isEnemySpell.
    rewrite reducer_as_reduce. cbn [reduceKind]. unfold useSpell.
    destruct (andb _ (playerEnergy s <? _)).
    { eexists. eexists. split; reflexivity. }
    destruct (andb _ (numLtb (enemyEnergy s) _)).
    { eexists. eexists. split; reflexivity. }
    eexists. eexists. split; [reflexivity |].
    intros side. destruct side; cbn [fieldOf]; state_simpl;
      unfold replaceTwo; apply removeDefeated_map_clean.
Qed.

(** *** The ids on a field *)

Lemma sameId_eq (a b : string) : sameId a b = true -> a = b.
Proof. unfold sameId. apply String.eqb_eq. Qed.

Lemma hasId_false (field : list Creature) (x : string) :
  hasId field x = false -> ~ In x (map id field).
Proof.
  unfold hasId. induction field as [| c rest IH]; cbn [existsb map In]; [tauto |].
  intros H. apply orb_false_iff in H. destruct H as [Hc Hrest].
  intros [Heq | Hin]; [| now apply IH].
  unfold sameId in Hc. rewrite Heq, String.eqb_refl in Hc. discriminate Hc.
Qed.

Lemma ids_map_same (h : Creature -> Creature) (field : list Creature) :
  (forall c, In c field -> id (h c) = id c) ->
  map id (map h field) = map id field.
Proof.
  intros Hh. rewrite map_map. apply map_ext_in. exact Hh.
Qed.

Lemma ids_replaceById (x : Creature) (field : list Creature) :
  map id (replaceById x field) = map id field.
Proof.
  unfold replaceById. apply ids_map_same. intros c _.
  destruct (sameId (id c) (id x)) eqn:Hx; [| reflexivity].
  symmetry. now apply sameId_eq.
Qed.

Lemma ids_replaceTwo (first : bool) (a : Creature) (second : bool) (b : Creature)
  (field : list Creature) :
  map id (replaceTwo first a second b field) = map id field.
Proof.
  unfold replaceTwo. apply ids_map_same. intros c _.
  destruct first, second; cbn [andb];
    repeat match goal with
           | |- context [if sameId ?x ?y then _ else _] =>
               destruct (sameId x y) eqn:?
           end;
    try reflexivity; symmetry; now apply sameId_eq.
Qed.

Lemma ids_comboBoost (field : list Creature) :
  map id (map comboBoost field) = map id field.
Proof. apply ids_map_same. reflexivity. Qed.

Lemma applyEffect_id (label : string) (acc : EffectPass) (entry : option Effect) :
  id (passCreature (applyEffect label acc entry)) = id (passCreature acc).
Proof.
  destruct entry as [e |]; [| reflexivity]. cbn [applyEffect].
  destruct (0 <? duration (setDuration (duration e - 1) e));
    destruct (healthEffect e =? 0); reflexivity.
Qed.

Lemma runEffects_id (label : string) (effects : list (option Effect)) (acc : EffectPass) :
  id (passCreature (fold_left (applyEffect label) effects acc)) = id (passCreature acc).
Proof.
  revert acc. induction effects as [| entry rest IH]; intros acc; [reflexivity |].
  cbn [fold_left]. now rewrite IH, applyEffect_id.
Qed.

Lemma processed_id (label : string) (c : Creature) : id (processed label c) = id c.
Proof.
  unfold processed.
  destruct (orList (activeEffects c)) as [| entry rest].
  - destruct (isDefending c); reflexivity.
  - set (pass := runEffects label (entry :: rest) c).
    assert (Hpass : id (passCreature pass) = id c) by apply runEffects_id.
    destruct (isDefending _); exact Hpass.
Qed.

Lemma ids_processed (label : string) (field : list Creature) :
  map id (map (processed label) field) = map id field.
Proof. apply ids_map_same. intros c _. apply processed_id. Qed.

Lemma NoDup_ids_filter (g : Creature -> bool) (field : list Creature) :
  NoDup (map id field) -> NoDup (map id (filter g field)).
Proof.
  induction field as [| c rest IH]; cbn [map filter]; [auto |].
  intros Hnd. inversion Hnd as [| x l Hnotin Hrest]; subst.
  destruct (g c); [| now apply IH].
  cbn [map]. constructor; [| now apply IH].
  intros Hin. apply Hnotin. apply in_map_iff in Hin.
  destruct Hin as (c0 & Heq & Hc0). apply filter_In in Hc0.
  apply in_map_iff. exists c0. tauto.
Qed.

Lemma NoDup_ids_removeDefeated (field field0 : list Creature) :
  map id field = map id field0 ->
  NoDup (map id field0) -> NoDup (map id (removeDefeated field)).
Proof.
  intros Hids Hnd. apply NoDup_ids_filter. now rewrite Hids.
Qed.

Lemma NoDup_ids_snoc (field : list Creature) (c : Creature) :
  hasId field (id c) = false -> NoDup (map id field) ->
  NoDup (map id (field ++ [c])).
Proof.
  intros Hfresh Hnd. rewrite map_app. cbn [map].
  apply NoDup_app; [exact Hnd | repeat constructor; intros [] | ].
  intros x Hx [<- | []]. now apply (hasId_false field (id c)).
Qed.

Lemma mapM_ids (cb : Creature -> Outcome Creature) (l l' : list Creature)
  (ev : list Event) :
  (forall c c' e, cb c = Return c' e -> id c' = id c) ->
  mapM cb l = Return l' ev -> map id l' = map id l.
Proof.
  intros Hcb. revert l' ev. induction l as [| c rest IH]; intros l' ev H.
  - cbn in H. inversion H; subst. reflexivity.
  - cbn [mapM] in H. apply bind_Return in H.
    destruct H as (c' & e1 & e2 & Hc & H & _).
    apply bind_Return in H. destruct H as (rest' & e3 & e4 & Hrest & H & _).
    cbn in H. inversion H; subst. cbn [map].
    rewrite (Hcb _ _ _ Hc), (IH _ _ Hrest). reflexivity.
Qed.

Lemma aiSpellOnEnemy_id (r : SpellResult) (c c' : Creature) (e : list Event) :
  aiSpellOnEnemy r c = Return c' e -> id c' = id c.
Proof.
  unfold aiSpellOnEnemy. intros H.
  destruct (updatedCaster r) as [caster |]; [| discriminate H].
  destruct (sameId (id c) (id caster)) eqn:Hc.
  - inversion H; subst. symmetry. now apply sameId_eq.
  - destruct (updatedTarget r) as [target |]; [| discriminate H].
    destruct (sameId (id c) (id target)) eqn:Ht; inversion H; subst;
      [symmetry; now apply sameId_eq | reflexivity].
Qed.

Lemma aiSpellOnPlayer_id (r : SpellResult) (c c' : Creature) (e : list Event) :
  aiSpellOnPlayer r c = Return c' e -> id c' = id c.
Proof.
  unfold aiSpellOnPlayer. intros H.
  destruct (updatedTarget r) as [target |]; [| discriminate H].
  destruct (sameId (id c) (id target)) eqn:Ht; inversion H; subst;
    [symmetry; now apply sameId_eq | reflexivity].
Qed.

Ltac run_outcome_keep H :=
  repeat first
    [ apply bind_Return in H; destruct H as (? & ? & ? & ? & H & _)
    | progress monad_simpl H
    | match type of H with
      | context [if ?b then _ else _] => destruct b eqn:?
      | context [match ?x with _ => _ end] => destruct x eqn:?
      end ];
  try discriminate H;
  inversion H; subst; clear H.

Ltac ids_done :=
  state_simpl;
  repeat match goal with
         | Hm : mapM (aiSpellOnEnemy ?r) _ = Return _ _ |- _ =>
             apply (mapM_ids _ _ _ _ (aiSpellOnEnemy_id r)) in Hm
         | Hm : mapM (aiSpellOnPlayer ?r) _ = Return _ _ |- _ =>
             apply (mapM_ids _ _ _ _ (aiSpellOnPlayer_id r)) in Hm
         end;
  repeat match goal with
         | |- context [if ?b then _ else _] => destruct b eqn:?
         end;
  state_simpl;
  first [ assumption
        | congruence
        | apply NoDup_nil
        | apply NoDup_ids_snoc; assumption
        | rewrite ?ids_replaceById, ?ids_replaceTwo, ?ids_comboBoost; assumption
        | unfold removeDefeated; apply NoDup_ids_filter;
          rewrite ?ids_replaceById, ?ids_replaceTwo;
          repeat match goal with
                 | Hm : map id ?x = map id _ |- context [map id ?x] => rewrite Hm
                 end;
          assumption ].

Lemma executeAIAction_ids (s : BattleState) (aiAction : AIAction)
  (s' : BattleState) (ev : list Event) :
  executeAIAction processAttack defendCreature applyTool applySpell s aiAction
  = Return s' ev ->
  (NoDup (map id (enemyField s)) -> NoDup (map id (enemyField s')))
  /\ (NoDup (map id (playerField s)) -> NoDup (map id (playerField s'))).
Proof.
  intros H. unfold executeAIAction in H.
  run_outcome_keep H; split; intros Hnd; ids_done.
Qed.

Lemma sequenceStep_ids (st : BattleState) (aiAction : AIAction)
  (st' : BattleState) (ev : list Event) :
  sequenceStep processAttack defendCreature st aiAction = Return st' ev ->
  (NoDup (map id (enemyField st)) -> NoDup (map id (enemyField st')))
  /\ (NoDup (map id (playerField st)) -> NoDup (map id (playerField st'))).
Proof.
  intros H. unfold sequenceStep in H.
  destruct (numLtb (enemyEnergy st) (Int (orNum (ai_energyCost aiAction) 0))).
  { monad_simpl H. inversion H; subst. split; auto. }
  destruct (ai_type aiAction =? "deploy")%string.
  - destruct (ai_creature aiAction) as [c |].
    + rewrite (someM_pure _ (fun c0 => sameId (id c0) (id c)))
        in H by (intros x; reflexivity).
      apply bind_Return in H. destruct H as (dup & e1 & e2 & Hsome & H & _).
      inversion Hsome; subst dup e1; clear Hsome.
      destruct (existsb _ (enemyField st)) eqn:Hdup.
      * monad_simpl H. inversion H; subst. split; auto.
      * change (hasId (enemyField st) (id c) = false) in Hdup.
        run_outcome H; split; intros Hnd; ids_done.
    + destruct (enemyField st) as [| c0 rest] eqn:Hfield.
      * apply bind_Return in H. destruct H as (dup & e1 & e2 & Hsome & H & _).
        cbn in Hsome. inversion Hsome; subst dup e1; clear Hsome.
        run_outcome H.
      * apply bind_Return in H. destruct H as (dup & e1 & e2 & Hsome & H & _).
        cbn in Hsome. discriminate Hsome.
  - run_outcome H; split; intros Hnd; ids_done.
Qed.

Lemma runSequence_ids (actionSequence : list AIAction) (st st' : BattleState)
  (ev : list Event) :
  runSequence processAttack defendCreature st actionSequence = Return st' ev ->
  (NoDup (map id (enemyField st)) -> NoDup (map id (enemyField st')))
  /\ (NoDup (map id (playerField st)) -> NoDup (map id (playerField st'))).
Proof.
  revert st ev. induction actionSequence as [| aiAction rest IH]; intros st ev H.
  - cbn in H. inversion H; subst. split; auto.
  - cbn [runSequence] in H. apply bind_Return in H.
    destruct H as (next & e1 & e2 & Hstep & Hrun & _).
    apply sequenceStep_ids in Hstep. apply IH in Hrun.
    destruct Hstep as [He Hp]. destruct Hrun as [He' Hp']. split; auto.
Qed.

(** X8. The [id]s on the enemy's field stay pairwise distinct under every
    action that does not bring fields of its own, the AI-executed ones
    included: the enemy's deployments refuse a creature whose [id] is
    already there, and every replacement keeps the [id] it replaces.  The
    same holds for the player's field under every action but
    [DEPLOY_CREATURE], which appends without looking. *)
Theorem field_ids_stay_distinct (s : BattleState) (k : ActionKind) (p : Payload)
  (s' : BattleState) (ev : list Event) :
  noOverride p ->
  reducer s (act k p) = Return s' ev ->
  (NoDup (map id (enemyField s)) -> NoDup (map id (enemyField s')))
  /\ (k <> DEPLOY_CREATURE ->
      NoDup (map id (playerField s)) -> NoDup (map id (playerField s'))).
Proof.
  rewrite reducer_as_reduce. intros Hshape H.
  destruct k; payload_cases p; cbn [reduceKind throw] in H; try discriminate H;
    try (apply executeAIAction_ids in H; tauto);
    try (apply runSequence_ids in H; tauto).
  all: try (destruct givenPlayerField; [contradiction |];
            destruct givenEnemyField; [contradiction |];
            destruct (ongoing_effects_result processAttack defendCreature applyTool
                        applySpell env s addLog) as [ev0 Hred];
            rewrite reducer_act in Hred; cbn [reduceKind] in Hred;
            rewrite Hred in H; inversion H; subst; state_simpl;
            split; [| intros _]; intros Hnd;
            unfold removeDefeated; apply NoDup_ids_filter;
            rewrite ids_processed; exact Hnd).
  all: unfold_all_cases H; run_outcome H; (split; [| intros Hk]); intros Hnd;
    ids_done.
Qed.

End MoreReducerFacts.

(** ** The handlers *)

Section HandlerFacts.

Variable processAttack : Creature -> Creature -> option string -> AttackResult.
Variable defendCreature : Creature -> option string -> Creature.
Variable applyTool : Creature -> Tool -> string -> option ToolResult.
Variable applySpell : Creature -> Creature -> Spell -> string -> option SpellResult.
Variable toolEffectLines : ToolResult -> list string.
Variable spellEffectLines : SpellResult -> list string.
Variable env : Env.
Variable calculateDerivedStats : OwnedCreature -> BattleStats.
Variable getDifficultySettings : string -> DifficultySettings.
Variable generateEnemyCreatures : string -> Z -> list Creature -> list OwnedCreature.
Variable generateEnemyItems : string -> option (list Tool) * option (list Spell).
Variable energyStat : Creature -> Z.

Local Notation reducer :=
  (battleReducer processAttack defendCreature applyTool applySpell env).

Local Notation run :=
  (dispatchAll processAttack defendCreature applyTool applySpell env).

Local Notation handlePlayerAction :=
  (Handlers.handlePlayerAction processAttack defendCreature applyTool applySpell
     toolEffectLines spellEffectLines).

Local Notation useToolHandler := (Handlers.useTool applyTool toolEffectLines).

Local Notation useSpellHandler := (Handlers.useSpell applySpell spellEffectLines).

(** *** Runs of dispatches *)

Lemma bind_assoc {A B C : Type} (m : Outcome A) (f : A -> Outcome B)
  (g : B -> Outcome C) :
  bind (bind m f) g = bind m (fun a => bind (f a) g).
Proof.
  destruct m as [a e1 | fault e1]; cbn [bind]; [| reflexivity].
  destruct (f a) as [b e2 | fault e2]; cbn [bind]; [| reflexivity].
  destruct (g b) as [c e3 | fault e3]; now rewrite app_assoc.
Qed.

Lemma bind_ret_left {A B : Type} (a : A) (f : A -> Outcome B) :
  bind (ret a) f = f a.
Proof. unfold ret; cbn [bind]. destruct (f a); reflexivity. Qed.

Lemma run_cons (s : BattleState) (a : Action) (rest : list Action) :
  run s (a :: rest) = bind (reducer s a) (fun next => run next rest).
Proof. reflexivity. Qed.

Lemma run_app (l1 l2 : list Action) (s : BattleState) :
  run s (l1 ++ l2) = bind (run s l1) (fun middle => run middle l2).
Proof.
  revert s. induction l1 as [| a rest IH]; intros s.
  - cbn [app dispatchAll]. now rewrite bind_ret_left.
  - cbn [app]. rewrite !run_cons, bind_assoc.
    destruct (reducer s a) as [next e | fault e]; cbn [bind]; [| reflexivity].
    now rewrite IH.
Qed.

Lemma run_step (s next : BattleState) (a : Action) (rest : list Action)
  (e : list Event) :
  reducer s a = Return next e ->
  run s (a :: rest) = bind (Return next e) (fun middle => run middle rest).
Proof. intros H. now rewrite run_cons, H. Qed.

Lemma add_log_result (s : BattleState) (text : string) :
  reducer s (addToBattleLog text)
  = Return (setBattleLog s (battleLog s ++
                            [mkLogEntry (dateNow env, mathRandom env) (turn s) text]))
           [].
Proof. unfold addToBattleLog. now rewrite reducer_act. Qed.

(** *** No dispatch of a handler makes the reducer fault *)

Ltac goal_tests :=
  repeat match goal with
         | |- context [if ?b then _ else _] => destruct b eqn:?
         | |- context [match ?x with _ => _ end] => destruct x eqn:?
         end.

Lemma player_facing_returns (s : BattleState) (k : ActionKind) (p : Payload) :
  playerFacing k p -> exists s' ev, reducer s (act k p) = Return s' ev.
Proof.
  intros Hshape. rewrite reducer_act.
  destruct k; destruct p; cbn [playerFacing] in Hshape; try contradiction;
    cbn [reduceKind].
  all: try (match goal with
            | r : option ToolResult |- _ =>
                destruct r as [[[updated |]] |]; try contradiction;
                unfold useTool; rewrite someM_toolTarget; cbn [bind ret emit app]
            end).
  all: try (unfold applyOngoingEffects;
            match goal with
            | b : bool |- _ =>
                destruct (mapM_processCreature EmptyString b (playerField s)) as [e1 H1];
                destruct (mapM_processCreature "Enemy " b (enemyField s)) as [e2 H2];
                rewrite H1, H2; cbn [bind ret emit app]
            end).
  all: unfold startBattle, deployCreature, enemyDeployCreature, updateCreature,
         attack, useSpell, defend, spendEnergy, drawCard, regenerateEnergy,
         applyEnergyDecayCase, setActivePlayerCase, incrementTurn,
         setGameStateCase, addLogCase, comboBonus.
  all: goal_tests; cbn [bind emit ret app]; eexists; eexists; reflexivity.
Qed.

Lemma well_formed_run (actions : list Action) (s : BattleState) :
  Forall wellFormed actions -> exists s' ev, run s actions = Return s' ev.
Proof.
  revert s. induction actions as [| a rest IH]; intros s Hall.
  - eexists. eexists. reflexivity.
  - inversion Hall as [| a0 l0 Ha Hrest]; subst.
    destruct Ha as (k & p & -> & Hshape).
    destruct (player_facing_returns s k p Hshape) as (next & e & Hstep).
    destruct (IH next Hrest) as (s' & ev & Hrun).
    rewrite (run_step _ _ _ _ _ Hstep). cbn [bind]. rewrite Hrun.
    eexists. eexists. reflexivity.
Qed.

Lemma wellFormed_log (text : string) : wellFormed (addToBattleLog text).
Proof. exists ADD_LOG, (PLog text). split; [reflexivity | exact I]. Qed.

Lemma wellFormed_act (k : ActionKind) (p : Payload) :
  playerFacing k p -> wellFormed (act k p).
Proof. intros H. exists k, p. split; [reflexivity | exact H]. Qed.

Lemma wellFormed_logs (lines : list string) :
  Forall wellFormed (map addToBattleLog lines).
Proof.
  induction lines as [| text rest IH]; cbn [map]; constructor;
    [apply wellFormed_log | exact IH].
Qed.

Ltac well_formed_list :=
  repeat first
    [ apply Forall_nil
    | apply wellFormed_logs
    | apply Forall_cons
    | apply Forall_app; split
    | apply wellFormed_log
    | apply wellFormed_act; exact I
    | match goal with
      | |- Forall _ (if ?b then _ else _) => destruct b
      | |- Forall _ (match ?x with _ => _ end) => destruct x
      end ].

(** X9. Whatever the descriptor, the closure values and the collaborators,
    every action [executeSingleAIAction] dispatches is reduced without a
    fault: a [USE_TOOL] leaves it only with a result that has its
    [updatedCreature], so the tool case never reads a missing property. *)
Theorem ai_dispatch_never_faults (s : BattleState) (enemyEnergy : Num)
  (difficulty : string) (aiAction : AIAction) :
  Forall wellFormed
    (executeSingleAIAction processAttack defendCreature applyTool applySpell
       enemyEnergy difficulty aiAction)
  /\ exists s' ev,
      run s (executeSingleAIAction processAttack defendCreature applyTool applySpell
               enemyEnergy difficulty aiAction)
      = Return s' ev.
Proof.
  assert (Hwf : Forall wellFormed
                  (executeSingleAIAction processAttack defendCreature applyTool
                     applySpell enemyEnergy difficulty aiAction)).
  { unfold executeSingleAIAction.
    repeat match goal with
           | |- context [if (?a =? ?b)%string then _ else _] => destruct (a =? b)%string
           end; well_formed_list. }
  split; [exact Hwf | now apply well_formed_run].
Qed.

(** X10. Past its guard or not, whatever the intent (all six cases and
    an unknown type), the selection, the closure and the collaborators,
    every action [handlePlayerAction] dispatches is reduced without a fault:
    [useTool] dispatches [USE_TOOL] only with a result that has its
    [updatedCreature].  Nothing is dispatched at all while an action is in
    progress, on the enemy's turn, or outside a battle. *)
Theorem player_dispatch_never_faults (s view : BattleState) (actionInProgress : bool)
  (difficulty : string) (intent : Intent) (target source : option Creature) :
  (exists s' ev,
      run s (handlePlayerAction actionInProgress view difficulty intent target source)
      = Return s' ev)
  /\ (Handlers.mayAct actionInProgress view = false ->
      handlePlayerAction actionInProgress view difficulty intent target source = [])
  /\ (Handlers.mayAct actionInProgress view = true <->
      actionInProgress = false /\ activePlayer view = Player
      /\ gameState view = battle).
Proof.
  split; [| split].
  - apply well_formed_run.
    unfold Handlers.handlePlayerAction, Handlers.deployCreature,
      Handlers.attackCreature, Handlers.defendCreatureAction, Handlers.endTurn,
      Handlers.useTool, Handlers.useSpell,
      Handlers.applyOngoing, applyEnergyDecay.
    destruct (negb _); [constructor |].
    destruct intent; well_formed_list.
  - intros Hno. unfold Handlers.handlePlayerAction. now rewrite Hno.
  - unfold Handlers.mayAct.
    destruct actionInProgress, (activePlayer view), (gameState view); cbn;
      split; intros H; try discriminate H; try (repeat split; reflexivity);
      destruct H as (H1 & H2 & H3); discriminate.
Qed.

(** *** The win-condition check *)

(** X11. On a battle in progress the check dispatches [victory] exactly when
    the enemy's field, hand and deck are all empty ([victory] also when the
    player's are empty too), [defeat] exactly when they are not and the
    player's three are; outside a battle, or when neither side is
    exhausted, it dispatches nothing.  It changes no container and no
    energy, and a second check on the state it leaves changes nothing
    more. *)
Theorem win_check_settles_once (view : BattleState) :
  (Handlers.checkWinCondition view = true <->
   enemyField view = [] /\ enemyHand view = [] /\ enemyDeck view = [])
  /\ (Handlers.checkLossCondition view = true <->
      playerField view = [] /\ playerHand view = [] /\ playerDeck view = [])
  /\ exists s',
      run view (Handlers.winCheck view) = Return s' []
      /\ gameState s'
         = match gameState view with
           | battle =>
               if Handlers.checkWinCondition view then victory
               else if Handlers.checkLossCondition view then defeat
               else battle
           | other => other
           end
      /\ run s' (Handlers.winCheck s') = Return s' []
      /\ playerField s' = playerField view /\ enemyField s' = enemyField view
      /\ playerHand s' = playerHand view /\ enemyHand s' = enemyHand view
      /\ playerDeck s' = playerDeck view /\ enemyDeck s' = enemyDeck view
      /\ playerEnergy s' = playerEnergy view /\ enemyEnergy s' = enemyEnergy view
      /\ turn s' = turn view.
Proof.
  assert (Hempty : forall (A : Type) (l : list A),
             Nat.eqb (List.length l) 0 = true <-> l = []).
  { intros A l. destruct l; cbn; split; intros H; try reflexivity; discriminate H. }
  split; [| split].
  - unfold Handlers.checkWinCondition. rewrite !andb_true_iff, !Hempty. tauto.
  - unfold Handlers.checkLossCondition. rewrite !andb_true_iff, !Hempty. tauto.
  - unfold Handlers.winCheck.
    destruct (gameState view) eqn:Hstate;
      try (exists view; cbn [dispatchAll]; rewrite Hstate;
           repeat split; reflexivity).
    destruct (Handlers.checkWinCondition view) eqn:Hwin;
      [| destruct (Handlers.checkLossCondition view) eqn:Hloss].
    + cbn [dispatchAll]. rewrite reducer_act. cbn [reduceKind].
      unfold setGameStateCase. cbn [bind ret]. rewrite add_log_result.
      cbn [bind app]. eexists. split; [reflexivity |]. repeat split.
    + cbn [dispatchAll]. rewrite reducer_act. cbn [reduceKind].
      unfold setGameStateCase. cbn [bind ret]. rewrite add_log_result.
      cbn [bind app]. eexists. split; [reflexivity |]. repeat split.
    + exists view. cbn [dispatchAll]. rewrite Hstate, Hwin, Hloss.
      repeat split; reflexivity.
Qed.

(** *** Deploying from the hand *)

Lemma handler_cost_declared (c : Creature) :
  let cost := orNum (Some (energyCost (battleStats c))) 3 in
  cost <> 0 /\ declaredDeployCost c (Some cost) = cost.
Proof.
  cbn zeta. unfold declaredDeployCost, orNum.
  destruct (Z.eqb_spec (energyCost (battleStats c)) 0) as [Hz | Hnz].
  - cbn. split; [discriminate | reflexivity].
  - destruct (Z.eqb_spec (energyCost (battleStats c)) 0); [contradiction |].
    split; [exact Hnz |].
    destruct (Z.eqb_spec (energyCost (battleStats c)) 0); [contradiction | reflexivity].
Qed.

(** X12. The player's [deployCreature], run against the state its closure
    shows, never meets the reducer's refusal: the reducer writes no error.
    With a full field (4 or more) or too little energy it only writes one
    log line and the rest of the state is as before; otherwise the creature
    goes to the end of the field, the creatures with its [id] leave the
    hand, and the energy drops by exactly the creature's cost
    ([battleStats.energyCost], or 3 when that is 0).  A field of at most 4
    stays at most 4. *)
Theorem deploy_handler_respects_field_limit (view : BattleState) (c : Creature) :
  let cost := orNum (Some (energyCost (battleStats c))) 3 in
  exists s',
    run view (Handlers.deployCreature view (Some c)) = Return s' []
    /\ (List.length (playerField s') <= Nat.max 4 (List.length (playerField view)))%nat
    /\ if orb (Nat.leb 4 (List.length (playerField view))) (playerEnergy view <? cost)
       then s' = setBattleLog view (battleLog s')
            /\ List.length (battleLog s') = S (List.length (battleLog view))
       else playerField s' = playerField view ++ [c]
            /\ playerHand s' = withoutId (id c) (playerHand view)
            /\ playerEnergy s' = playerEnergy view - cost
            /\ enemyEnergy s' = enemyEnergy view
            /\ enemyField s' = enemyField view.
Proof.
  cbn zeta. destruct (handler_cost_declared c) as [Hnz Hdeclared].
  unfold Handlers.deployCreature.
  destruct (Nat.leb_spec 4 (List.length (playerField view))) as [Hfull | Hroom].
  - cbn [dispatchAll orb]. rewrite add_log_result. cbn [bind ret app].
    eexists. split; [reflexivity |]. state_simpl.
    split; [lia |]. split; [reflexivity |].
    rewrite length_app. cbn. lia.
  - cbn [orb].
    destruct (Z.ltb_spec (playerEnergy view) (orNum (Some (energyCost (battleStats c))) 3))
      as [Hlow | Hok].
    + cbn [dispatchAll]. rewrite add_log_result. cbn [bind ret app].
      eexists. split; [reflexivity |]. state_simpl.
      split; [lia |]. split; [reflexivity |].
      rewrite length_app. cbn. lia.
    + cbn [dispatchAll]. rewrite reducer_act. cbn [reduceKind].
      unfold deployCreature. rewrite Hdeclared.
      destruct (Z.ltb_spec (playerEnergy view)
                  (orNum (Some (energyCost (battleStats c))) 3)) as [Hbad | _]; [lia |].
      cbn [bind ret]. rewrite add_log_result. cbn [bind app].
      eexists. split; [reflexivity |]. state_simpl.
      split; [rewrite length_app; cbn [List.length]; lia |].
      repeat split; try reflexivity. lia.
Qed.

(** *** An attack by the player, end to end *)

(** X13. The player's creature [a], on the player's field, attacks with
    at least [ATTACK_ENERGY_COST = 2] energy, and [processAttack] gives the
    attacker back under its own [id].  Run against the state its closure
    shows, [attackCreature] costs the player exactly 2 energy and the enemy
    none, adds 1 to the player's streak and 2 to the player's momentum,
    leaves no creature with [currentHealth <= 0] on either field, writes
    nothing to the console, and appends one log entry stamped with the
    turn of the attack. *)
Theorem player_attack_end_to_end (view : BattleState) (a d : Creature) :
  hasId (playerField view) (id a) = true ->
  ATTACK_ENERGY_COST <= playerEnergy view ->
  (forall kind, id (updatedAttacker (processAttack a d kind)) = id a) ->
  exists s' entry,
    run view (Handlers.attackCreature processAttack view (Some a) (Some d))
    = Return s' []
    /\ playerEnergy s' = playerEnergy view - 2
    /\ enemyEnergy s' = enemyEnergy view
    /\ consecutiveActions s' = incPlayer (consecutiveActions view) 1
    /\ energyMomentum s' = incPlayer (energyMomentum view) 2
    /\ battleLog s' = battleLog view ++ [entry]
    /\ log_turn entry = turn view
    /\ turn s' = turn view
    /\ Forall (fun c => 0 < currentHealth c) (playerField s')
    /\ Forall (fun c => 0 < currentHealth c) (enemyField s').
Proof.
  intros Hfield Henergy Hid. unfold Handlers.attackCreature, ATTACK_ENERGY_COST in *.
  rewrite Hfield. cbn [andb].
  destruct (Z.ltb_spec (playerEnergy view) 2) as [Hbad | _]; [lia |].
  cbn [dispatchAll]. rewrite reducer_act. cbn [reduceKind]. unfold attack.
  rewrite Hid, Hfield. cbn [andb negb].
  destruct (Z.ltb_spec (playerEnergy view) 2) as [Hbad | _]; [lia |].
  cbn [bind ret]. rewrite add_log_result. cbn [bind app].
  eexists. eexists. split; [reflexivity |]. state_simpl. cbn [log_turn].
  repeat split; try reflexivity; try lia;
    unfold replaceTwo; apply removeDefeated_map_clean.
Qed.

(** *** The end of a turn *)

Lemma run_then (l1 l2 : list Action) (s s1 s2 : BattleState) (e1 e2 : list Event) :
  run s l1 = Return s1 e1 -> run s1 l2 = Return s2 e2 ->
  run s (l1 ++ l2) = Return s2 (e1 ++ e2).
Proof.
  intros H1 H2. rewrite run_app, H1. now apply bind_of_Return.
Qed.

Lemma quiet_step (s : BattleState) (a : Action) :
  quiet a -> consecutiveActions s = mkCounters 0 0 ->
  exists s',
    reducer s a = Return s' []
    /\ playerField s' = playerField s /\ enemyField s' = enemyField s
    /\ consecutiveActions s' = mkCounters 0 0
    /\ turn s' = turn s /\ activePlayer s' = activePlayer s
    /\ gameState s' = gameState s.
Proof.
  intros Hquiet Hstreak.
  destruct Hquiet as [[side ->] | [[text ->] | [(pr & er & ->) | [side ->]]]].
  - rewrite reducer_act. cbn [reduceKind]. unfold drawCard.
    destruct side; [destruct (playerDeck s) | destruct (enemyDeck s)];
      eexists; (split; [reflexivity |]); state_simpl; repeat split; assumption.
  - rewrite add_log_result. eexists. split; [reflexivity |]. state_simpl.
    repeat split; assumption.
  - rewrite reducer_act. cbn [reduceKind]. unfold regenerateEnergy.
    eexists. split; [reflexivity |]. state_simpl. repeat split; assumption.
  - rewrite reducer_act. cbn [reduceKind]. unfold comboBonus.
    rewrite Hstreak. destruct side; cbn [player enemy];
      (destruct (Z.leb_spec 3 0) as [Hbad | _]; [lia |]);
      eexists; (split; [reflexivity |]); repeat split; assumption.
Qed.

Lemma quiet_run (actions : list Action) (s : BattleState) :
  Forall quiet actions -> consecutiveActions s = mkCounters 0 0 ->
  exists s',
    run s actions = Return s' []
    /\ playerField s' = playerField s /\ enemyField s' = enemyField s
    /\ consecutiveActions s' = mkCounters 0 0
    /\ turn s' = turn s /\ activePlayer s' = activePlayer s
    /\ gameState s' = gameState s.
Proof.
  revert s. induction actions as [| a rest IH]; intros s Hall Hstreak.
  - exists s. repeat split; try reflexivity; assumption.
  - inversion Hall as [| a0 l0 Ha Hrest]; subst.
    destruct (quiet_step s a Ha Hstreak)
      as (next & Hstep & Hpf & Hef & Hst & Hturn & Hactive & Hgame).
    destruct (IH next Hrest Hst)
      as (s' & Hrun & Hpf' & Hef' & Hst' & Hturn' & Hactive' & Hgame').
    exists s'. rewrite (run_step _ _ _ _ _ Hstep). cbn [bind app]. rewrite Hrun.
    repeat split; congruence.
Qed.

Lemma decay_run (pe : Z) (ee : Num) (s : BattleState) :
  exists s',
    run s (applyEnergyDecay pe ee) = Return s' []
    /\ playerField s' = playerField s /\ enemyField s' = enemyField s
    /\ consecutiveActions s' = consecutiveActions s
    /\ turn s' = turn s /\ gameState s' = gameState s.
Proof.
  unfold applyEnergyDecay. destruct (orb _ _).
  - cbn [dispatchAll]. rewrite reducer_act. cbn [reduceKind].
    unfold applyEnergyDecayCase. cbn [bind ret app].
    eexists. split; [reflexivity |]. repeat split.
  - exists s. repeat split.
Qed.

Ltac quiet_list :=
  repeat first
    [ apply Forall_nil
    | apply Forall_cons
    | apply Forall_app; split
    | left; eexists; reflexivity
    | right; left; eexists; reflexivity
    | right; right; left; eexists; eexists; reflexivity
    | right; right; right; eexists; reflexivity
    | match goal with
      | |- Forall _ (if ?b then _ else _) => destruct b
      | |- Forall _ (match ?x with _ => _ end) => destruct x
      | |- quiet (match ?x with _ => _ end) => destruct x
      end ].

(** X14. Whatever the state and the closure, the dispatches of
    [finishEnemyTurn] return a state of the player's turn, one turn later,
    with both streaks at 0, and with exactly the fields that the pass of
    ongoing effects left.  The [COMBO_BONUS] for the enemy is reduced after
    [SET_ACTIVE_PLAYER] has reset the streaks, so it never changes a
    creature, however long the enemy's streak was. *)
Theorem enemy_turn_end_grants_no_combo (s view : BattleState) (difficulty : string) :
  exists s' ev,
    run s (Handlers.finishEnemyTurn getDifficultySettings energyStat view difficulty)
    = Return s' ev
    /\ playerField s' = removeDefeated (map (processed EmptyString) (playerField s))
    /\ enemyField s' = removeDefeated (map (processed "Enemy ") (enemyField s))
    /\ consecutiveActions s' = mkCounters 0 0
    /\ activePlayer s' = Player
    /\ turn s' = turn s + 1
    /\ gameState s' = gameState s.
Proof.
  unfold Handlers.finishEnemyTurn.
  destruct (ongoing_effects_result processAttack defendCreature applyTool applySpell
              env s true) as [ev0 Hongoing].
  set (s1 := setEnemyField
               (setPlayerField s (removeDefeated (map (processed EmptyString) (playerField s))))
               (removeDefeated (map (processed "Enemy ") (enemyField s)))) in *.
  assert (H1 : run s [Handlers.applyOngoing] = Return s1 (ev0 ++ [])).
  { unfold Handlers.applyOngoing. cbn [dispatchAll]. rewrite Hongoing. reflexivity. }
  destruct (decay_run (playerEnergy view) (enemyEnergy view) s1)
    as (s2 & H2 & Hpf2 & Hef2 & Hst2 & Hturn2 & Hgame2).
  set (s3 := setConsecutiveActions
               (setActivePlayer (setTurn s2 (turn s2 + 1)) Player)
               (mkCounters 0 0)).
  assert (H3 : run s2 [act INCREMENT_TURN PNone; act SET_ACTIVE_PLAYER (PSide Player)]
               = Return s3 []).
  { cbn [dispatchAll]. rewrite !reducer_act. cbn [reduceKind].
    unfold incrementTurn. cbn [bind ret].
    rewrite reducer_act. cbn [reduceKind]. unfold setActivePlayerCase.
    reflexivity. }
  destruct (quiet_run
              (Handlers.drawForPlayer view
               ++ Handlers.drawForEnemy getDifficultySettings view difficulty
               ++ Handlers.regenerateEnergy getDifficultySettings energyStat view difficulty
               ++ (if 3 <=? enemy (consecutiveActions view)
                   then [act COMBO_BONUS (PSide Enemy);
                         addToBattleLog "Enemy achieved a combo bonus!"]
                   else [])
               ++ [addToBattleLog ("Turn " ++ showZ (turn view + 1) ++ " - Your turn.")%string])
              s3)
    as (s4 & H4 & Hpf4 & Hef4 & Hst4 & Hturn4 & Hactive4 & Hgame4).
  { unfold Handlers.drawForPlayer, Handlers.drawForEnemy, Handlers.regenerateEnergy.
    quiet_list. }
  { reflexivity. }
  exists s4. eexists. split.
  - eapply run_then; [exact H1 |].
    eapply run_then; [exact H2 |].
    eapply run_then; [exact H3 | exact H4].
  - subst s3 s1. state_simpl. cbn [setEnemyField setPlayerField] in *.
    repeat split; congruence.
Qed.

(** X15. The player's end of turn, run against the state its closure
    shows: with a streak of 3 or more every creature on the player's field
    first gains +2/+2, then both fields go through the pass of ongoing
    effects; the state returned is of the enemy's turn, in the same turn
    number, with both streaks at 0.  Unlike the enemy's, the player's
    [COMBO_BONUS] is reduced before the streaks are reset. *)
Theorem player_turn_end_applies_combo (s : BattleState) :
  exists s' ev,
    run s (Handlers.endTurn s) = Return s' ev
    /\ playerField s'
       = removeDefeated
           (map (processed EmptyString)
                (if 3 <=? player (consecutiveActions s)
                 then map comboBoost (playerField s)
                 else playerField s))
    /\ enemyField s' = removeDefeated (map (processed "Enemy ") (enemyField s))
    /\ consecutiveActions s' = mkCounters 0 0
    /\ activePlayer s' = Enemy
    /\ turn s' = turn s.
Proof.
  unfold Handlers.endTurn.
  set (boosted := if 3 <=? player (consecutiveActions s)
                  then map comboBoost (playerField s) else playerField s).
  assert (H0 : exists s0,
             run s (if 3 <=? player (consecutiveActions s)
                    then [act COMBO_BONUS (PSide Player);
                          addToBattleLog
                            "You achieved a combo bonus! All creatures gain +2 attack!"]
                    else [])
             = Return s0 []
             /\ playerField s0 = boosted /\ enemyField s0 = enemyField s
             /\ turn s0 = turn s).
  { subst boosted. destruct (3 <=? player (consecutiveActions s)) eqn:Hstreak.
    - cbn [dispatchAll]. rewrite reducer_act. cbn [reduceKind]. unfold comboBonus.
      rewrite Hstreak. cbn [bind ret]. rewrite add_log_result. cbn [bind app].
      eexists. split; [reflexivity |]. repeat split.
    - exists s. repeat split. }
  destruct H0 as (s0 & H0 & Hpf0 & Hef0 & Hturn0).
  destruct (ongoing_effects_result processAttack defendCreature applyTool applySpell
              env s0 true) as [ev1 Hongoing].
  set (s1 := setEnemyField
               (setPlayerField s0 (removeDefeated (map (processed EmptyString) (playerField s0))))
               (removeDefeated (map (processed "Enemy ") (enemyField s0)))) in *.
  assert (H1 : run s0 [Handlers.applyOngoing] = Return s1 (ev1 ++ [])).
  { unfold Handlers.applyOngoing. cbn [dispatchAll]. rewrite Hongoing. reflexivity. }
  destruct (decay_run (playerEnergy s) (enemyEnergy s) s1)
    as (s2 & H2 & Hpf2 & Hef2 & Hst2 & Hturn2 & Hgame2).
  assert (H3 : exists s3,
             run s2 [act SET_ACTIVE_PLAYER (PSide Enemy);
                     addToBattleLog ("Turn " ++ showZ (turn s) ++ " - Enemy's turn.")%string]
             = Return s3 []
             /\ playerField s3 = playerField s2 /\ enemyField s3 = enemyField s2
             /\ consecutiveActions s3 = mkCounters 0 0
             /\ activePlayer s3 = Enemy /\ turn s3 = turn s2).
  { cbn [dispatchAll]. rewrite reducer_act. cbn [reduceKind].
    unfold setActivePlayerCase. cbn [bind ret]. rewrite add_log_result.
    cbn [bind app]. eexists. split; [reflexivity |]. repeat split. }
  destruct H3 as (s3 & H3 & Hpf3 & Hef3 & Hst3 & Hactive3 & Hturn3).
  exists s3. eexists. split.
  - eapply run_then; [exact H0 |].
    eapply run_then; [exact H1 |].
    eapply run_then; [exact H2 | exact H3].
  - subst s1. state_simpl. repeat split; congruence.
Qed.

(** *** Regeneration *)

Lemma totalEnergy_from (field : list Creature) (start : Z) :
  Forall (fun c => 0 <= energyStat c) field ->
  start <= fold_left (fun total creature => total + energyStat creature) field start.
Proof.
  revert start. induction field as [| c rest IH]; intros start Hall; cbn [fold_left].
  - lia.
  - inversion Hall as [| c0 l0 Hc Hrest]; subst.
    specialize (IH (start + energyStat c) Hrest). lia.
Qed.

(** X16. When no creature on the player's field has a negative energy
    stat, [regenerateEnergy] offers the player the base 3 plus one per 50
    points of total energy stat, so at least 3; reduced in a state whose
    momentum is not negative and whose energy is at most 15, it never
    lowers the player's energy, raises it by at least 3 unless the cap of 15
    cuts it short, and resets both momentum counters.  The enemy is offered
    the same base and stat bonus plus [floor enemyEnergyRegen - 2], which
    is 2 less than the base when the difficulty has no such setting. *)
Theorem regeneration_gives_at_least_three (s view : BattleState) (difficulty : string) :
  Forall (fun c => 0 <= energyStat c) (playerField view) ->
  0 <= player (energyMomentum s) ->
  playerEnergy s <= MAX_ENERGY ->
  3 <= Handlers.playerRegenOf energyStat view
  /\ Handlers.enemyRegenOf getDifficultySettings energyStat view difficulty
     = BASE_ENERGY_REGEN + Handlers.totalEnergy energyStat (enemyField view) / 50
       + match enemyEnergyRegen (getDifficultySettings difficulty) with
         | Some q => Qfloor q - 2
         | None => - 2
         end
  /\ exists s',
      run s (Handlers.regenerateEnergy getDifficultySettings energyStat view difficulty)
      = Return s' []
      /\ playerEnergy s'
         = Z.min MAX_ENERGY
             (playerEnergy s + Handlers.playerRegenOf energyStat view
              + player (energyMomentum s) / 10)
      /\ enemyEnergy s'
         = numMin (Int MAX_ENERGY)
             (numAdd
                (numAdd (enemyEnergy s)
                   (Int (Handlers.enemyRegenOf getDifficultySettings energyStat view
                           difficulty)))
                (Int (enemy (energyMomentum s) / 10)))
      /\ (forall e, enemyEnergy s = Int e ->
          enemyEnergy s'
          = Int (Z.min MAX_ENERGY
                   (e + Handlers.enemyRegenOf getDifficultySettings energyStat view
                          difficulty
                    + enemy (energyMomentum s) / 10)))
      /\ Z.min MAX_ENERGY (playerEnergy s + 3) <= playerEnergy s' <= MAX_ENERGY
      /\ playerEnergy s <= playerEnergy s'
      /\ energyMomentum s' = mkCounters 0 0.
Proof.
  intros Hstats Hmomentum Hcap.
  assert (Hregen : 3 <= Handlers.playerRegenOf energyStat view).
  { unfold Handlers.playerRegenOf, Handlers.totalEnergy, BASE_ENERGY_REGEN.
    pose proof (totalEnergy_from (playerField view) 0 Hstats) as Htotal.
    assert (0 <= fold_left (fun total creature => total + energyStat creature)
                           (playerField view) 0 / 50)
      by (apply Z.div_pos; lia).
    lia. }
  split; [exact Hregen |]. split.
  { unfold Handlers.enemyRegenOf, Handlers.enemyDifficultyBonus.
    destruct (enemyEnergyRegen (getDifficultySettings difficulty)); reflexivity. }
  unfold Handlers.regenerateEnergy. cbn [dispatchAll].
  rewrite reducer_act. cbn [reduceKind]. unfold regenerateEnergy.
  cbn [bind ret].
  assert (Hlog : forall a : Action, (exists text, a = addToBattleLog text) ->
                 forall st, exists st', reducer st a = Return st' []
                   /\ playerEnergy st' = playerEnergy st
                   /\ enemyEnergy st' = enemyEnergy st
                   /\ energyMomentum st' = energyMomentum st).
  { intros a [text ->] st. rewrite add_log_result. eexists.
    split; [reflexivity |]. repeat split. }
  match goal with
  | |- context [reducer ?st ?a] =>
      destruct (Hlog a ltac:(destruct (activePlayer view); eexists; reflexivity) st)
        as (st' & Hst' & Hpe & Hee & Hmo)
  end.
  rewrite Hst'. cbn [bind app]. exists st'. split; [reflexivity |].
  rewrite Hpe, Hee, Hmo. state_simpl.
  assert (0 <= player (energyMomentum s) / 10) by (apply Z.div_pos; lia).
  unfold MAX_ENERGY in *. repeat split; try reflexivity; try lia.
  intros e He. rewrite He. reflexivity.
Qed.

(** *** Starting a battle *)

Lemma jsIndex_bound (len : nat) (i : Z) : (jsIndex len i <= len)%nat.
Proof. unfold jsIndex. destruct (Z.ltb_spec i 0); lia. Qed.

Lemma jsSlice_split {A : Type} (l : list A) (k : Z) :
  jsSlice 0 (Some k) l ++ jsSlice k None l = l.
Proof.
  unfold jsSlice.
  assert (H0 : jsIndex (List.length l) 0 = 0%nat) by (unfold jsIndex; cbn; lia).
  rewrite H0. cbn [skipn]. rewrite Nat.sub_0_r.
  pose proof (jsIndex_bound (List.length l) k) as Hk.
  rewrite (firstn_all2 (skipn (jsIndex (List.length l) k) l))
    by (rewrite length_skipn; lia).
  apply firstn_skipn.
Qed.

Lemma jsSlice_head_length {A : Type} (l : list A) (k : Z) :
  0 <= k ->
  List.length (jsSlice 0 (Some k) l) = Nat.min (Z.to_nat k) (List.length l).
Proof.
  intros Hk. unfold jsSlice.
  assert (H0 : jsIndex (List.length l) 0 = 0%nat) by (unfold jsIndex; cbn; lia).
  rewrite H0. cbn [skipn]. rewrite Nat.sub_0_r, length_firstn.
  unfold jsIndex. destruct (Z.ltb_spec k 0); lia.
Qed.

(** X17. [initializeBattle] with a roster that is not empty starts a
    battle that deals every creature exactly once: the player's hand
    followed by the deck is the whole roster in its order, the hand holding
    [min 3 n] of its [n] creatures, and the enemy's hand followed by its
    deck is the whole generated roster, whatever [initialHandSize] the
    difficulty sets.  Every creature starts at full health, without
    effects, not defending, at a cost of 5 plus its form (5 without a
    form); both fields are empty, both energies 10, and the log has two
    entries, whatever state the reducer was in.  With a missing or an empty
    roster nothing is dispatched. *)
Theorem battle_starts_with_whole_roster (s : BattleState) (nfts : list OwnedCreature)
  (toolNfts : option (list Tool)) (spellNfts : option (list Spell))
  (difficulty : string) :
  nfts <> [] ->
  let toBattle := Handlers.toBattleCreature calculateDerivedStats in
  let roster := map toBattle nfts in
  let enemyRoster :=
    map toBattle
        (generateEnemyCreatures difficulty
           (enemyDeckSize (getDifficultySettings difficulty)) roster) in
  let start := Handlers.initializeBattle calculateDerivedStats getDifficultySettings
                 generateEnemyCreatures generateEnemyItems in
  (exists s',
      run s (start (Some nfts) toolNfts spellNfts difficulty) = Return s' []
      /\ playerHand s' ++ playerDeck s' = roster
      /\ List.length (playerHand s') = Nat.min 3 (List.length nfts)
      /\ enemyHand s' ++ enemyDeck s' = enemyRoster
      /\ playerField s' = [] /\ enemyField s' = []
      /\ playerEnergy s' = 10 /\ enemyEnergy s' = Int 10
      /\ gameState s' = battle /\ turn s' = 1 /\ activePlayer s' = Player
      /\ consecutiveActions s' = mkCounters 0 0
      /\ energyMomentum s' = mkCounters 0 0
      /\ playerTools s' = orList toolNfts /\ playerSpells s' = orList spellNfts
      /\ List.length (battleLog s') = 2%nat)
  /\ Forall (fun c => currentHealth c = maxHealth (battleStats c)
                      /\ activeEffects c = Some [] /\ isDefending c = false)
            (roster ++ enemyRoster)
  /\ (forall owned,
         energyCost (battleStats (toBattle owned))
         = 5 + match form owned with Some f => f | None => 0 end)
  /\ start None toolNfts spellNfts difficulty = []
  /\ start (Some []) toolNfts spellNfts difficulty = [].
Proof.
  intros Hroster. cbn zeta.
  split; [| split; [| split; [| split]]].
  - unfold Handlers.initializeBattle.
    destruct nfts as [| first others]; [contradiction |].
    cbn [dispatchAll]. rewrite reducer_act. cbn [reduceKind]. unfold startBattle.
    cbn [bind ret]. rewrite add_log_result. cbn [bind app].
    eexists. split; [reflexivity |]. state_simpl.
    repeat split.
    + apply jsSlice_split.
    + rewrite jsSlice_head_length by lia. rewrite !length_map. lia.
    + apply jsSlice_split.
  - apply Forall_forall. intros c Hc. apply in_app_iff in Hc.
    destruct Hc as [Hc | Hc]; apply in_map_iff in Hc;
      destruct Hc as (owned & <- & _); repeat split.
  - intros owned. unfold Handlers.toBattleCreature, calculateCreatureEnergyCost.
    cbn [battleStats energyCost]. destruct (form owned); lia.
  - reflexivity.
  - reflexivity.
Qed.

(** *** The actions offered to the player *)

Lemma in_when (b : bool) (x y : string) :
  In x (if b then [y] else []) <-> b = true /\ y = x.
Proof.
  destruct b; cbn [In]; split.
  - intros [H | []]. split; [reflexivity | exact H].
  - intros [_ H]. left. exact H.
  - intros [].
  - intros [H _]. discriminate H.
Qed.

Lemma offered_spelled_out (view : BattleState) (selected : Creature)
  (target : option Creature) (x : string) :
  In x (Handlers.getAvailableActions view (Some selected) target) <->
  (hasId (playerHand view) (id selected) = true /\ "deploy" = x)
  \/ (hasId (playerField view) (id selected) = true
      /\ (((exists t, target = Some t /\ hasId (enemyField view) (id t) = true)
           /\ ATTACK_ENERGY_COST <= playerEnergy view /\ "attack" = x)
          \/ (playerTools view <> [] /\ "useTool" = x)
          \/ (playerSpells view <> [] /\ SPELL_ENERGY_COST <= playerEnergy view
              /\ "useSpell" = x)
          \/ (DEFEND_ENERGY_COST <= playerEnergy view /\ "defend" = x)))
  \/ "endTurn" = x.
Proof.
  assert (Hlen : forall (A : Type) (l : list A),
             Nat.ltb 0 (List.length l) = true <-> l <> []).
  { intros A [| a l]; cbn; split; intros H; congruence. }
  assert (Htarget :
            match target with
            | Some t => hasId (enemyField view) (id t)
            | None => false
            end = true <->
            exists t, target = Some t /\ hasId (enemyField view) (id t) = true).
  { destruct target as [t |]; split.
    - intros H. exists t. split; [reflexivity | exact H].
    - intros (t' & Heq & H). inversion Heq. subst. exact H.
    - intros H. discriminate H.
    - intros (t' & Heq & _). discriminate Heq. }
  unfold Handlers.getAvailableActions.
  rewrite !in_app_iff, in_when. cbn [In].
  destruct (hasId (playerField view) (id selected)).
  - rewrite !in_app_iff, !in_when, !Bool.andb_true_iff, !Z.leb_le, !Hlen, Htarget.
    tauto.
  - cbn [In]. split.
    + intros [H | [[] | [H | []]]]; [left; exact H | right; right; exact H].
    + intros [H | [[H _] | H]]; [left; exact H | discriminate H | right; right; left; exact H].
Qed.

(** X18. With nothing selected no action is offered; with a creature
    selected the last action offered is ['endTurn'], once.  ['attack'] is
    offered exactly when the creature is on the player's field, the target
    is on the enemy's and the player has 2 energy; ['defend'] exactly when
    it is on the field and the player has 1; ['useSpell'] exactly when it
    is on the field, the player holds a spell and has 4; ['deploy'] exactly
    when it is in the hand.  So an offered attack or defence, taken on the
    player's turn, is never answered with "Not enough energy": the handler
    dispatches [ATTACK], or [DEFEND], and one log line. *)
Theorem offered_actions_are_affordable (view : BattleState) (selected : Creature)
  (target : option Creature) (difficulty : string) :
  let offered := Handlers.getAvailableActions view (Some selected) target in
  Handlers.getAvailableActions view None target = []
  /\ (exists before, offered = before ++ ["endTurn"] /\ ~ In "endTurn" before)
  /\ (In "deploy" offered <-> hasId (playerHand view) (id selected) = true)
  /\ (In "attack" offered <->
      hasId (playerField view) (id selected) = true
      /\ (exists t, target = Some t /\ hasId (enemyField view) (id t) = true)
      /\ ATTACK_ENERGY_COST <= playerEnergy view)
  /\ (In "defend" offered <->
      hasId (playerField view) (id selected) = true
      /\ DEFEND_ENERGY_COST <= playerEnergy view)
  /\ (In "useSpell" offered <->
      hasId (playerField view) (id selected) = true
      /\ playerSpells view <> []
      /\ SPELL_ENERGY_COST <= playerEnergy view)
  /\ (In "attack" offered -> Handlers.mayAct false view = true ->
      exists result text,
        handlePlayerAction false view
          difficulty AttackIntent target (Some selected)
        = [act ATTACK (PAttack result ATTACK_ENERGY_COST); addToBattleLog text])
  /\ (In "defend" offered -> Handlers.mayAct false view = true ->
      exists updated text,
        handlePlayerAction false view
          difficulty DefendIntent target (Some selected)
        = [act DEFEND (PDefend updated); addToBattleLog text]).
Proof.
  cbn zeta.
  assert (Hattack :
            In "attack" (Handlers.getAvailableActions view (Some selected) target) <->
            hasId (playerField view) (id selected) = true
            /\ (exists t, target = Some t /\ hasId (enemyField view) (id t) = true)
            /\ ATTACK_ENERGY_COST <= playerEnergy view).
  { rewrite offered_spelled_out. split.
    - intros [[_ H] | [[Hf [(Ht & He & _) | [[_ H] | [(_ & _ & H) | [_ H]]]]] | H]];
        try discriminate H. tauto.
    - intros (Hf & Ht & He). right. left. split; [exact Hf |]. left. tauto. }
  assert (Hdefend :
            In "defend" (Handlers.getAvailableActions view (Some selected) target) <->
            hasId (playerField view) (id selected) = true
            /\ DEFEND_ENERGY_COST <= playerEnergy view).
  { rewrite offered_spelled_out. split.
    - intros [[_ H] | [[Hf [(_ & _ & H) | [[_ H] | [(_ & _ & H) | [He _]]]]] | H]];
        try discriminate H. tauto.
    - intros (Hf & He). right. left. split; [exact Hf |]. right. right. right. tauto. }
  split; [reflexivity |].
  split; [| split; [| split; [exact Hattack | split; [exact Hdefend | split; [| split]]]]].
  - unfold Handlers.getAvailableActions. rewrite app_assoc. eexists.
    split; [reflexivity |].
    rewrite in_app_iff, in_when. intros [[_ H] | H]; [discriminate H |].
    destruct (hasId (playerField view) (id selected)); [| exact H].
    rewrite !in_app_iff, !in_when in H.
    destruct H as [[_ H] | [[_ H] | [[_ H] | [_ H]]]]; discriminate H.
  - rewrite offered_spelled_out. split.
    + intros [[H _] | [[Hf [(_ & _ & H) | [[_ H] | [(_ & _ & H) | [_ H]]]]] | H]];
        try discriminate H. exact H.
    + intros H. left. tauto.
  - rewrite offered_spelled_out. split.
    + intros [[_ H] | [[Hf [(_ & _ & H) | [[_ H] | [(Hs & He & _) | [_ H]]]]] | H]];
        try discriminate H. tauto.
    + intros (Hf & Hs & He). right. left. split; [exact Hf |]. right. right. left. tauto.
  - intros Hoffered Hturn. apply Hattack in Hoffered.
    destruct Hoffered as (Hfield & (t & -> & Ht) & Henergy).
    unfold Handlers.handlePlayerAction, Handlers.attackCreature.
    rewrite Hturn, Hfield. cbn [negb andb]. unfold ATTACK_ENERGY_COST in *.
    destruct (Z.ltb_spec (playerEnergy view) 2) as [Hbad | _]; [lia |].
    eexists. eexists. reflexivity.
  - intros Hoffered Hturn. apply Hdefend in Hoffered.
    destruct Hoffered as (Hfield & Henergy).
    unfold Handlers.handlePlayerAction, Handlers.defendCreatureAction.
    rewrite Hturn, Hfield. cbn [negb andb]. unfold DEFEND_ENERGY_COST in *.
    destruct (Z.ltb_spec (playerEnergy view) 1) as [Hbad | _]; [lia |].
    eexists. eexists. reflexivity.
Qed.

(** *** The player's tools and spells *)

Lemma log_lines_run (lines : list string) (s : BattleState) :
  run s (map addToBattleLog lines)
  = Return (setBattleLog s
              (battleLog s ++
               map (mkLogEntry (dateNow env, mathRandom env) (turn s)) lines))
           [].
Proof.
  revert s. induction lines as [| text rest IH]; intros s.
  - cbn [map dispatchAll]. rewrite app_nil_r. destruct s; reflexivity.
  - cbn [map]. rewrite run_cons, add_log_result. cbn [bind]. rewrite IH.
    cbn [app]. state_simpl. rewrite <- app_assoc. reflexivity.
Qed.

(** X19. The dispatches of the player's [useTool], reduced against the state
    its closure shows, never reach the reducer's "Invalid tool result":
    the reducer writes nothing to the console (the handler itself logs the
    tool and the target there).  A tool costs no energy and no momentum.  When
    [applyTool] fails, or returns no [updatedCreature], the tool is not
    spent: the state gains one log line and nothing else.  Otherwise the
    tools with its [id] leave the player's collection, the player's streak
    grows by one, both fields keep their [id]s in their order, and the log
    gains one line plus those of the tool's effect. *)
Theorem failed_tool_is_not_spent (view : BattleState) (tool : Tool)
  (target : Creature) (difficulty : string) :
  exists s',
    run view (useToolHandler view difficulty (Some tool) (Some target) true)
    = Return s' []
    /\ playerEnergy s' = playerEnergy view
    /\ enemyEnergy s' = enemyEnergy view
    /\ energyMomentum s' = energyMomentum view
    /\ enemyTools s' = enemyTools view
    /\ match applyTool target tool difficulty with
       | Some (mkToolResult (Some updated)) =>
           playerTools s'
           = filter (fun t => negb (String.eqb (tool_id t) (tool_id tool)))
                    (playerTools view)
           /\ consecutiveActions s' = incPlayer (consecutiveActions view) 1
           /\ map id (playerField s') = map id (playerField view)
           /\ map id (enemyField s') = map id (enemyField view)
           /\ List.length (battleLog s')
              = (List.length (battleLog view) + 1
                 + List.length (toolEffectLines (mkToolResult (Some updated))))%nat
       | _ =>
           exists entry, s' = setBattleLog view (battleLog view ++ [entry])
       end.
Proof.
  unfold Handlers.useTool.
  destruct (applyTool target tool difficulty) as [[[updated |]] |].
  - rewrite run_app. cbn [dispatchAll]. rewrite reducer_act. cbn [reduceKind].
    unfold useTool. rewrite someM_toolTarget.
    cbn [bind ret app]. rewrite add_log_result. cbn [bind ret app].
    rewrite log_lines_run. cbn [bind app].
    eexists. split; [reflexivity |]. state_simpl.
    repeat split.
    + destruct (hasId (playerField view) (id updated)); cbn [negb];
        [apply ids_replaceById | reflexivity].
    + destruct (hasId (playerField view) (id updated)); cbn [negb];
        [reflexivity | apply ids_replaceById].
    + rewrite !length_app, length_map. cbn [List.length]. lia.
  - cbn [dispatchAll]. rewrite add_log_result. cbn [bind app].
    eexists. split; [reflexivity |]. state_simpl. repeat split.
    eexists. reflexivity.
  - cbn [dispatchAll]. rewrite add_log_result. cbn [bind app].
    eexists. split; [reflexivity |]. state_simpl. repeat split.
    eexists. reflexivity.
Qed.

(** X20. The player's creature [caster], on the player's field, casts a
    spell, and [applySpell] gives back a caster under the same [id] and a
    target.  Run against the state its closure shows, [useSpell] with less
    than [SPELL_ENERGY_COST = 4] energy writes one log line and changes
    nothing else; otherwise it costs the player exactly 4 energy and the
    enemy none, adds 1 to the player's streak and 4 to the player's
    momentum, removes the spells with this [id] from the player's
    collection, leaves no creature with [currentHealth <= 0] on either
    field, and writes nothing to the console: the reducer's energy test
    never fails after the handler's. *)
Theorem player_spell_end_to_end (view : BattleState) (spell : Spell)
  (caster : Creature) (target : option Creature) (difficulty : string)
  (newCaster newTarget : Creature) :
  hasId (playerField view) (id caster) = true ->
  applySpell caster (match target with Some t => t | None => caster end)
             spell difficulty
  = Some (mkSpellResult (Some newCaster) (Some newTarget)) ->
  id newCaster = id caster ->
  exists s',
    run view (useSpellHandler view difficulty (Some spell) (Some caster) target true)
    = Return s' []
    /\ enemyEnergy s' = enemyEnergy view
    /\ enemySpells s' = enemySpells view
    /\ turn s' = turn view
    /\ if playerEnergy view <? SPELL_ENERGY_COST
       then exists entry, s' = setBattleLog view (battleLog view ++ [entry])
       else playerEnergy s' = playerEnergy view - 4
            /\ consecutiveActions s' = incPlayer (consecutiveActions view) 1
            /\ energyMomentum s' = incPlayer (energyMomentum view) 4
            /\ playerSpells s'
               = filter (fun sp => negb (String.eqb (spell_id sp) (spell_id spell)))
                        (playerSpells view)
            /\ Forall (fun c => 0 < currentHealth c) (playerField s')
            /\ Forall (fun c => 0 < currentHealth c) (enemyField s').
Proof.
  intros Hfield Hresult Hid. unfold Handlers.useSpell, SPELL_ENERGY_COST in *.
  cbn [andb].
  destruct (Z.ltb_spec (playerEnergy view) 4) as [Hlow | Henough].
  - cbn [dispatchAll]. rewrite add_log_result. cbn [bind app].
    eexists. split; [reflexivity |]. state_simpl. repeat split.
    eexists. reflexivity.
  - rewrite Hresult, run_app. cbn [dispatchAll]. rewrite reducer_act.
    cbn [reduceKind]. unfold useSpell, SPELL_ENERGY_COST.
    rewrite Hid, Hfield. cbn [orNum Z.eqb andb negb].
    destruct (Z.ltb_spec (playerEnergy view) 4) as [Hbad | _]; [lia |].
    cbn [bind ret app]. rewrite add_log_result. cbn [bind ret app].
    rewrite log_lines_run. cbn [bind app].
    eexists. split; [reflexivity |]. state_simpl.
    repeat split; try reflexivity; try lia;
      unfold replaceTwo; apply removeDefeated_map_clean.
Qed.

End HandlerFacts.

(** ** The further properties on the sample battle *)

(** *** The turn counter *)

Lemma log_and_turn_writers_witness :
  exists s',
    Sample.reducer Sample.midBattle (act INCREMENT_TURN PNone) = Return s' []
    /\ turn s' = 4 /\ battleLog s' = [].
Proof.
  eexists. split; [reflexivity |].
  exact (log_and_turn_writers Sample.processAttack Sample.defendCreature
           Sample.applyTool Sample.applySpell Sample.env
           Sample.midBattle INCREMENT_TURN PNone _ [] eq_refl).
Defined.

(** *** An effect of two passes *)

Lemma effect_lasts_its_duration_witness :
  activeEffects (processed EmptyString SampleBattle.envenomed)
  = Some [Some Sample.poison]
  /\ activeEffects (processed EmptyString
                      (processed EmptyString SampleBattle.envenomed))
     = Some [].
Proof.
  split.
  - exact (effect_lasts_its_duration EmptyString SampleBattle.envenomed
             SampleBattle.venom 2 1 eq_refl eq_refl ltac:(lia)).
  - exact (effect_lasts_its_duration EmptyString SampleBattle.envenomed
             SampleBattle.venom 2 2 eq_refl eq_refl ltac:(lia)).
Defined.

(** *** A second creature on the enemy's field *)

Lemma field_ids_stay_distinct_witness :
  exists s' ev,
    Sample.reducer Sample.midBattle
      (act ENEMY_DEPLOY_CREATURE (PDeploy (Sample.creature "e2" 30) (Some 5)))
    = Return s' ev
    /\ map id (enemyField s') = ["e1"; "e2"]
    /\ NoDup (map id (enemyField s')).
Proof.
  eexists. eexists. split; [reflexivity |]. split; [reflexivity |].
  apply (proj1 (field_ids_stay_distinct Sample.processAttack Sample.defendCreature
                  Sample.applyTool Sample.applySpell Sample.env
                  Sample.midBattle ENEMY_DEPLOY_CREATURE
                  (PDeploy (Sample.creature "e2" 30) (Some 5)) _ _ I eq_refl)).
  constructor; [intros [] | constructor].
Defined.

(** *** The player attacks *)

Lemma player_attack_end_to_end_witness :
  exists s',
    dispatchAll Sample.processAttack Sample.defendCreature Sample.applyTool
      Sample.applySpell Sample.env SampleBattle.playerTurn
      (Handlers.attackCreature Sample.processAttack SampleBattle.playerTurn
         (Some (Sample.creature "p1" 30)) (Some (Sample.creature "e1" 30)))
    = Return s' []
    /\ playerEnergy s' = 13 /\ enemyEnergy s' = Int 10
    /\ energyMomentum s' = mkCounters 27 0.
Proof.
  destruct (player_attack_end_to_end Sample.processAttack Sample.defendCreature
              Sample.applyTool Sample.applySpell Sample.env
              SampleBattle.playerTurn
              (Sample.creature "p1" 30) (Sample.creature "e1" 30)
              eq_refl ltac:(unfold ATTACK_ENERGY_COST; simpl; lia)
              (fun _ => eq_refl))
    as (s' & entry & Hrun & Hpe & Hee & _ & Hmomentum & _).
  exists s'. repeat split; assumption.
Defined.

(** *** Regeneration on the player's turn *)

Lemma regeneration_gives_at_least_three_witness :
  Handlers.playerRegenOf SampleBattle.energyStat SampleBattle.playerTurn = 4
  /\ Handlers.enemyRegenOf SampleBattle.getDifficultySettings SampleBattle.energyStat
       SampleBattle.playerTurn "easy" = 4
  /\ exists s',
      dispatchAll Sample.processAttack Sample.defendCreature Sample.applyTool
        Sample.applySpell Sample.env (setPlayerEnergy SampleBattle.playerTurn 5)
        (Handlers.regenerateEnergy SampleBattle.getDifficultySettings
           SampleBattle.energyStat SampleBattle.playerTurn "easy")
      = Return s' []
      /\ playerEnergy s' = 11 /\ enemyEnergy s' = Int 14
      /\ energyMomentum s' = mkCounters 0 0.
Proof.
  destruct (regeneration_gives_at_least_three Sample.processAttack
              Sample.defendCreature Sample.applyTool Sample.applySpell Sample.env
              SampleBattle.getDifficultySettings SampleBattle.energyStat
              (setPlayerEnergy SampleBattle.playerTurn 5) SampleBattle.playerTurn
              "easy"
              ltac:(repeat constructor; unfold SampleBattle.energyStat; lia)
              ltac:(simpl; lia) ltac:(unfold MAX_ENERGY; simpl; lia))
    as (_ & Henemy & s' & Hrun & Hpe & Hee & _ & _ & _ & Hmomentum).
  split; [reflexivity |]. split; [exact Henemy |].
  exists s'. repeat split; assumption.
Defined.

(** *** A roster of four *)

Lemma battle_starts_with_whole_roster_witness :
  exists s',
    dispatchAll Sample.processAttack Sample.defendCreature Sample.applyTool
      Sample.applySpell Sample.env Sample.midBattle
      (Handlers.initializeBattle SampleBattle.calculateDerivedStats
         SampleBattle.getDifficultySettings SampleBattle.generateEnemyCreatures
         SampleBattle.generateEnemyItems (Some SampleBattle.roster) None None "easy")
    = Return s' []
    /\ map id (playerHand s' ++ playerDeck s') = ["p1"; "p2"; "p3"; "p4"]
    /\ List.length (playerHand s') = 3%nat
    /\ map id (enemyHand s' ++ enemyDeck s') = ["e1"; "e2"]
    /\ playerField s' = [] /\ enemyField s' = []
    /\ playerEnergy s' = 10 /\ enemyEnergy s' = Int 10 /\ turn s' = 1.
Proof.
  destruct (battle_starts_with_whole_roster Sample.processAttack
              Sample.defendCreature Sample.applyTool Sample.applySpell Sample.env
              SampleBattle.calculateDerivedStats SampleBattle.getDifficultySettings
              SampleBattle.generateEnemyCreatures SampleBattle.generateEnemyItems
              Sample.midBattle SampleBattle.roster None None "easy"
              ltac:(discriminate))
    as ((s' & Hrun & Hplayer & Hhand & Henemy & Hpf & Hef & Hpe & Hee & _ & Hturn & _)
        & _).
  exists s'. split; [exact Hrun |].
  split; [exact (f_equal (map id) Hplayer) |].
  split; [exact Hhand |].
  split; [exact (f_equal (map id) Henemy) |].
  repeat split; assumption.
Defined.

(** *** The player casts a spell *)

Lemma player_spell_end_to_end_witness :
  exists s',
    dispatchAll Sample.processAttack Sample.defendCreature Sample.applyTool
      Sample.applySpell Sample.env SampleBattle.playerTurn
      (Handlers.useSpell Sample.applySpell SampleBattle.spellEffectLines
         SampleBattle.playerTurn "easy" (Some SampleBattle.bolt)
         (Some (Sample.creature "p1" 30)) (Some (Sample.creature "e1" 30)) true)
    = Return s' []
    /\ playerEnergy s' = 11 /\ enemyEnergy s' = Int 10 /\ playerSpells s' = [].
Proof.
  destruct (player_spell_end_to_end Sample.processAttack Sample.defendCreature
              Sample.applyTool Sample.applySpell SampleBattle.spellEffectLines
              Sample.env SampleBattle.playerTurn SampleBattle.bolt
              (Sample.creature "p1" 30) (Some (Sample.creature "e1" 30)) "easy"
              (Sample.creature "p1" 30) (Sample.creature "e1" 30)
              eq_refl eq_refl eq_refl)
    as (s' & Hrun & Hee & _ & _ & Hrest).
  destruct (Hrest : _ /\ _) as (Hpe & _ & _ & Hspells & _).
  exists s'. repeat split; assumption.
Defined.
